(** * GeminiWebsocketClient: the streaming session protocol client

    A shallow embedding of the class [GeminiWebsocketClient]
    ([client/js/ws/client.js], snapshot [client_20250406184318.js]) and
    the properties of its connection life cycle, its inbound dispatcher
    and its outbound encoder.

    The class is event driven: its methods and the four listeners it
    attaches to every [WebSocket] mutate the fields of [this] and act on
    the platform (sockets, timers, promises, the console, the registered
    event listeners).  The embedding threads one [World] through every
    call; the world holds the fields of [this], the platform objects the
    class created, and a chronological log of the effects it performed.

    Conventions.  A method body is a computation in the monad [M]: it
    ends normally or throws; for the [async] methods of the class a throw
    is the rejection of the promise the call returns.  Sockets, promises
    and timers are numbered in order of creation.  What the platform does
    (the ready state of a socket, the order of its events) follows the
    WebSocket standard and is written out in [step]. *)

From Stdlib Require Import ZArith QArith String List Bool Lia.
From stdpp Require Import base gmap strings list.

Open Scope string_scope.
Open Scope list_scope.
Open Scope Z_scope.

(** ** JavaScript values *)

(** The values the class handles: what [JSON.parse] produces, [undefined]
    (the result of reading an absent property) and [ArrayBuffer] (the
    decoded audio).  A number is a finite double, kept as the rational it
    denotes; the class only tests numbers for zero.  An object is its list
    of own properties. *)
#[warnings="-register-all"]
Inductive value : Type :=
| VUndefined
| VNull
| VBool (b : bool)
| VNum (q : Q)
| VStr (s : string)
| VArr (elems : list value)
| VObj (props : list (string * value))
| VBuffer (bytes : list Byte.byte).

(** ToBoolean. *)
Definition truthy (v : value) : bool :=
  match v with
  | VUndefined | VNull => false
  | VBool b => b
  | VNum q => negb (Qeq_bool q 0)
  | VStr s => negb (String.eqb s "")
  | VArr _ | VObj _ | VBuffer _ => true
  end.

Inductive Exn : Type :=
| TypeError
| ReferenceError
| InvalidStateError
| Error (message : string)
| Thrown (v : value).

(** The outcome of running a function body: it returns, or it throws.  For
    an [async] method the outcome is the settlement of the promise it
    returns: [Normal] fulfils it, [Throw] rejects it. *)
Inductive Completion (A : Type) : Type :=
| Normal (a : A)
| Throw (e : Exn).
Arguments Normal {A} a.
Arguments Throw {A} e.

Definition is_throw {A} (c : Completion A) : bool :=
  match c with Normal _ => false | Throw _ => true end.

Fixpoint own_property (props : list (string * value)) (k : string) : value :=
  match props with
  | [] => VUndefined
  | (k', v) :: rest => if String.eqb k' k then v else own_property rest k
  end.

(** [v.k] for the property names the class reads ([toolCall], [parts],
    [mimeType], [id], ...): none of them is inherited from a prototype, so
    the read is an own-property lookup on objects, [undefined] on the other
    non-nullish values, and a [TypeError] on [null] and [undefined]. *)
Definition get (v : value) (k : string) : Completion value :=
  match v with
  | VUndefined | VNull => Throw TypeError
  | VObj props => Normal (own_property props k)
  | _ => Normal VUndefined
  end.

(** [v?.k] *)
Definition get_opt (v : value) (k : string) : value :=
  match v with
  | VObj props => own_property props k
  | _ => VUndefined
  end.

(** [v.startsWith(prefix)]: a method of strings only; on any other value
    the call is a [TypeError]. *)
Definition startsWith (v : value) (prefix : string) : Completion bool :=
  match v with
  | VStr s => Normal (String.prefix prefix s)
  | _ => Throw TypeError
  end.

(** SameValueZero, as [Array.prototype.includes] uses it.  Objects, arrays
    and buffers are equal only to themselves; an element of a parsed array
    is identified by its index [i], [j] in that array. *)
Definition same_value_zero (a b : nat * value) : bool :=
  match snd a, snd b with
  | VUndefined, VUndefined => true
  | VNull, VNull => true
  | VBool x, VBool y => Bool.eqb x y
  | VNum x, VNum y => Qeq_bool x y
  | VStr x, VStr y => String.eqb x y
  | VArr _, VArr _ | VObj _, VObj _ | VBuffer _, VBuffer _ => Nat.eqb (fst a) (fst b)
  | _, _ => false
  end.

Definition includes (l : list (nat * value)) (p : nat * value) : bool :=
  existsb (fun a => same_value_zero a p) l.

(** ** The world *)

Inductive ReadyState : Type := CONNECTING | OPEN | CLOSING | CLOSED.

(** A [WebSocket] the class created.  [ws_promise] is the promise whose
    [resolve] and [reject] the socket's listeners captured. *)
Record WebSocket : Type := mkWebSocket {
  ws_url : string;
  readyState : ReadyState;
  ws_promise : nat
}.

Inductive PromiseState : Type := Pending | Fulfilled | Rejected (reason : value).

(** [p_catch] counts the [.catch] handlers the reconnect timers attached. *)
Record Promise : Type := mkPromise {
  p_state : PromiseState;
  p_catch : nat
}.

(** A timer set by [setTimeout].  The class has one [setTimeout], in
    the close listener, and every timer carries the same callback,
    [reconnect_callback] below: the record keeps the delay and whether
    the timer has expired. *)
Record Timer : Type := mkTimer {
  t_delay : Z;
  t_fired : bool
}.

Inductive Level : Type := Debug | Info | Warn | Err.

Inductive Effect : Type :=
| Emit (eventName : string) (data : value)
| Invoke (callback : nat) (data : value)
| Console (level : Level) (message : string)
| NewWebSocket (sock : nat) (url : string)
| Send (sock : nat) (data : value)
| Close (sock : nat) (code : Z) (reason : string)
| SetTimeout (timer : nat) (delay : Z)
| Resolve (p : nat)
| Reject (p : nat) (reason : value).

(** The fields of [this]. *)
Record GeminiWebsocketClient : Type := mkClient {
  _eventListeners : gmap string (list nat);
  name : string;
  url : string;
  ws : option nat;
  config : value;
  isConnecting : bool;
  connectionPromise : option nat;
  reconnectAttempts : Z;
  maxReconnectAttempts : Z;
  reconnectDelay : Z
}.

Record World : Type := mkWorld {
  this : GeminiWebsocketClient;
  sockets : list WebSocket;
  promises : list Promise;
  timers : list Timer;
  effects : list Effect
}.

(** Field updates. *)
Definition set_this (f : GeminiWebsocketClient -> GeminiWebsocketClient) (w : World) : World :=
  mkWorld (f (this w)) (sockets w) (promises w) (timers w) (effects w).

Definition with_eventListeners (m : gmap string (list nat)) (c : GeminiWebsocketClient) :=
  mkClient m (name c) (url c) (ws c) (config c) (isConnecting c)
           (connectionPromise c) (reconnectAttempts c) (maxReconnectAttempts c) (reconnectDelay c).
Definition with_ws (x : option nat) (c : GeminiWebsocketClient) :=
  mkClient (_eventListeners c) (name c) (url c) x (config c) (isConnecting c)
           (connectionPromise c) (reconnectAttempts c) (maxReconnectAttempts c) (reconnectDelay c).
Definition with_isConnecting (x : bool) (c : GeminiWebsocketClient) :=
  mkClient (_eventListeners c) (name c) (url c) (ws c) (config c) x
           (connectionPromise c) (reconnectAttempts c) (maxReconnectAttempts c) (reconnectDelay c).
Definition with_connectionPromise (x : option nat) (c : GeminiWebsocketClient) :=
  mkClient (_eventListeners c) (name c) (url c) (ws c) (config c) (isConnecting c)
           x (reconnectAttempts c) (maxReconnectAttempts c) (reconnectDelay c).
Definition with_reconnectAttempts (x : Z) (c : GeminiWebsocketClient) :=
  mkClient (_eventListeners c) (name c) (url c) (ws c) (config c) (isConnecting c)
           (connectionPromise c) x (maxReconnectAttempts c) (reconnectDelay c).

Definition set_sockets (l : list WebSocket) (w : World) : World :=
  mkWorld (this w) l (promises w) (timers w) (effects w).
Definition set_promises (l : list Promise) (w : World) : World :=
  mkWorld (this w) (sockets w) l (timers w) (effects w).
Definition set_timers (l : list Timer) (w : World) : World :=
  mkWorld (this w) (sockets w) (promises w) l (effects w).

(** Append to the effect log. *)
Definition perform (es : list Effect) (w : World) : World :=
  mkWorld (this w) (sockets w) (promises w) (timers w) (effects w ++ es).

Definition console (l : Level) (message : string) : World -> World :=
  perform [Console l message].

(** ** A state and exception monad for method bodies *)

Definition M (A : Type) : Type := World -> Completion A * World.

#[global] Instance M_ret : MRet M := fun A a w => (Normal a, w).
#[global] Instance M_bind : MBind M := fun A B f m w =>
  match m w with
  | (Normal a, w') => f a w'
  | (Throw e, w') => (Throw e, w')
  end.

(** Run a step that cannot throw. *)
Definition act (f : World -> World) : M unit := fun w => (Normal tt, f w).
(** Use a pure, fallible computation. *)
Definition lift {A} (c : Completion A) : M A := fun w => (c, w).
Definition throw {A} (e : Exn) : M A := fun w => (Throw e, w).

(** [try { body } catch (error) { handler }] *)
Definition try_catch {A} (body : M A) (handler : Exn -> M A) : M A := fun w =>
  match body w with
  | (Normal a, w') => (Normal a, w')
  | (Throw e, w') => handler e w'
  end.

(** The call of an [async] method does not throw: it returns a
    promise, fulfilled with what the body returns or rejected with what
    the body throws.  A body without [await] has run to its end when the
    call returns, and the promise is settled by then.  The [async]
    methods of the class are given below by their bodies, where a
    [Throw] is the rejection of that promise; [async body] is the call
    as the caller sees it. *)
Inductive Outcome (A : Type) : Type :=
| Fulfills (a : A)
| Rejects (e : Exn).
Arguments Fulfills {A} a.
Arguments Rejects {A} e.

Definition async {A} (body : M A) : M (Outcome A) := fun w =>
  match body w with
  | (Normal a, w') => (Normal (Fulfills a), w')
  | (Throw e, w') => (Normal (Rejects e), w')
  end.

(** ** Event bus *)

(** Listeners are functions of the code that uses the class; a listener is
    identified by a number, and calling it is recorded as [Invoke].  The
    model takes listeners to return normally without calling back into the
    client during the emission. *)

Definition on (eventName : string) (callback : nat) (w : World) : World :=
  let m := _eventListeners (this w) in
  let m := match m !! eventName with
           | None => <[eventName := []]> m
           | Some _ => m
           end in
  let l := default [] (m !! eventName) in
  set_this (with_eventListeners (<[eventName := l ++ [callback]]> m)) w.

(** The call [this.emit(eventName, data)] is logged as [Emit], followed by
    one [Invoke] per registered listener, in registration order. *)
Definition emit (eventName : string) (data : value) (w : World) : World :=
  match _eventListeners (this w) !! eventName with
  | None => perform [Emit eventName data] w
  | Some callbacks =>
      perform (Emit eventName data :: map (fun cb => Invoke cb data) callbacks) w
  end.

(** ** Platform operations on sockets, promises and timers *)

Definition set_readyState (s : nat) (r : ReadyState) (w : World) : World :=
  match sockets w !! s with
  | Some sock => set_sockets (<[s := mkWebSocket (ws_url sock) r (ws_promise sock)]> (sockets w)) w
  | None => w
  end.

(** [ws.send(text)]: an [InvalidStateError] while the socket is still
    connecting; transmitted when open; dropped once closing or closed.
    [data] is the value whose [JSON.stringify] text is sent. *)
Definition ws_send (s : nat) (data : value) : M unit := fun w =>
  match readyState <$> sockets w !! s with
  | Some CONNECTING => (Throw InvalidStateError, w)
  | Some OPEN => (Normal tt, perform [Send s data] w)
  | _ => (Normal tt, w)
  end.

(** [ws.close(code, reason)]: starts the closing handshake unless the
    socket is already closing or closed. *)
Definition ws_close (s : nat) (code : Z) (reason : string) (w : World) : World :=
  let w := perform [Close s code reason] w in
  match readyState <$> sockets w !! s with
  | Some CONNECTING | Some OPEN => set_readyState s CLOSING w
  | _ => w
  end.

Definition settle (p : nat) (st : PromiseState) (w : World) : World :=
  match promises w !! p with
  | Some pr =>
      match p_state pr with
      | Pending => set_promises (<[p := mkPromise st (p_catch pr)]> (promises w)) w
      | _ => w
      end
  | None => w
  end.

(** The handler the reconnect timer attaches with [.catch]. *)
Definition reconnect_failed (n : nat) : list Effect :=
  repeat (Console Err "Reconnection failed:") n.

Definition resolve (p : nat) (w : World) : World :=
  settle p Fulfilled (perform [Resolve p] w).

Definition reject (p : nat) (reason : value) (w : World) : World :=
  let w := perform [Reject p reason] w in
  match promises w !! p with
  | Some pr =>
      match p_state pr with
      | Pending => perform (reconnect_failed (p_catch pr)) (settle p (Rejected reason) w)
      | _ => w
      end
  | None => w
  end.

Definition setTimeout (delay : Z) (w : World) : World :=
  perform [SetTimeout (length (timers w)) delay]
          (set_timers (timers w ++ [mkTimer delay false]) w).

(** ** The class *)

(** The text of console messages and of [Error] messages is kept up to its
    fixed leading part; the interpolated values are left out. *)

(** [constructor(name, url, config)].  An argument that is falsy is the
    empty string here.  The default URL reads the free identifier
    [apiKey], which the module does not define: [apiKey] is [None] when no
    such global exists, and reading it is then a [ReferenceError]. *)
Definition new_GeminiWebsocketClient (apiKey : option string)
    (name0 url0 : string) (config0 : value) : Completion GeminiWebsocketClient :=
  let default_url :=
    match apiKey with
    | Some key =>
        Normal ("wss://generativelanguage.googleapis.com/ws/google.ai.generativelanguage.v1alpha.GenerativeService.BidiGenerateContent?key=" ++ key)%string
    | None => Throw ReferenceError
    end in
  match (if String.eqb url0 "" then default_url else Normal url0) with
  | Normal u =>
      Normal {| _eventListeners := ∅;
                name := if String.eqb name0 "" then "WebSocketClient" else name0;
                url := u;
                ws := None;
                config := config0;
                isConnecting := false;
                connectionPromise := None;
                reconnectAttempts := 0;
                maxReconnectAttempts := 3;
                reconnectDelay := 2000 |}
  | Throw e => Throw e
  end.

Definition initial (c : GeminiWebsocketClient) : World :=
  {| this := c; sockets := []; promises := []; timers := []; effects := [] |}.

(** [isConnected()]: [this.ws && this.ws.readyState === WebSocket.OPEN],
    as the boolean its callers test. *)
Definition isConnected (w : World) : bool :=
  match ws (this w) with
  | Some s =>
      match readyState <$> sockets w !! s with
      | Some OPEN => true
      | _ => false
      end
  | None => false
  end.

(** [this.ws.send(JSON.stringify(data))] *)
Definition this_ws_send (data : value) : M unit := fun w =>
  match ws (this w) with
  | Some s => ws_send s data w
  | None => (Throw TypeError, w)
  end.

(** [async sendJSON(json)], by its body (deprecated in the source,
    used for the setup message). *)
Definition sendJSON (json : value) : M unit :=
  try_catch
    (fun w => if negb (isConnected w)
              then (Throw (Error "WebSocket is not connected"), w)
              else this_ws_send json w)
    (fun _ => throw (Error "Failed to send")).

(** [safelySendJSON(data)] *)
Definition safelySendJSON (data : value) : M bool := fun w =>
  if isConnected w then
    try_catch
      (this_ws_send data;; mret true)
      (fun _ => act (console Err "Failed to send data");; mret false) w
  else
    (act (console Warn "Cannot send: WebSocket not connected");; mret false) w.

(** The ['open'] listener of socket [s]. *)
Definition ws_onopen (s : nat) (w : World) : World :=
  let w := console Info "Successfully connected to websocket" w in
  let w := set_this (with_ws (Some s)) w in
  let w := set_this (with_isConnecting false) w in
  let w := set_this (with_reconnectAttempts 0) w in
  (* sendJSON is async and its promise is dropped: a failure does not
     reach the listener *)
  let w := snd (sendJSON (VObj [("setup", config (this w))]) w) in
  let w := console Debug "Setup message with the following configuration was sent:" w in
  let w := emit "connected" (VObj []) w in
  match sockets w !! s with
  | Some sock => resolve (ws_promise sock) w
  | None => w
  end.

(** The ['error'] listener of socket [s].  It reads [error.reason]
    before it logs: on an event that is [null] or [undefined] the read
    is a [TypeError], and the listener ends there.  An exception thrown
    by a listener is reported by the platform; it does not stop the
    events that follow. *)
Definition ws_onerror (s : nat) (error : value) (w : World) : World :=
  let w := set_this (with_isConnecting false) w in
  match get error "reason" with
  | Normal _ =>
      let w := console Err "Could not connect" w in
      let w := emit "connection_error" (VObj [("error", error)]) w in
      match sockets w !! s with
      | Some sock => reject (ws_promise sock) error w
      | None => w
      end
  | Throw _ => w
  end.

(** The ['close'] listener of socket [s].  The counter is never negative
    (see [reachable_fields]), so the exponent of [Math.pow] is a natural
    number. *)
Definition ws_onclose (s : nat) (code : Z) (reason : string) (w : World) : World :=
  let w := set_this (with_isConnecting false) w in
  let w := console Warn "WebSocket connection closed." w in
  let w := emit "disconnected"
                (VObj [("code", VNum (inject_Z code)); ("reason", VStr reason)]) w in
  if negb (code =? 1000)
     && (reconnectAttempts (this w) <? maxReconnectAttempts (this w)) then
    let w := set_this (with_reconnectAttempts (reconnectAttempts (this w) + 1)) w in
    let delay := reconnectDelay (this w) * 2 ^ (reconnectAttempts (this w) - 1) in
    let w := console Info "Attempting to reconnect" w in
    setTimeout delay w
  else w.

(** [connect()].  The result is the promise the caller's promise follows.
    The URL is taken to be one [new WebSocket] accepts. *)
Definition connect : M (option nat) := fun w =>
  if isConnected w then (Normal (connectionPromise (this w)), w)
  else if isConnecting (this w) then (Normal (connectionPromise (this w)), w)
  else
    let w := console Info "Establishing WebSocket connection..." w in
    let w := set_this (with_isConnecting true) w in
    let p := length (promises w) in
    let w := set_promises (promises w ++ [mkPromise Pending 0]) w in
    let s := length (sockets w) in
    let w := perform [NewWebSocket s (url (this w))]
               (set_sockets (sockets w ++ [mkWebSocket (url (this w)) CONNECTING p]) w) in
    let w := set_this (with_connectionPromise (Some p)) w in
    (Normal (Some p), w).

(** [disconnect()] *)
Definition disconnect (w : World) : World :=
  match ws (this w) with
  | Some s =>
      let w := set_this (with_reconnectAttempts (maxReconnectAttempts (this w))) w in
      let w := ws_close s 1000 "User initiated disconnect" w in
      let w := set_this (with_ws None) w in
      let w := set_this (with_isConnecting false) w in
      let w := set_this (with_connectionPromise None) w in
      console Info "successfully disconnected from websocket" w
  | None => w
  end.

(** The callback of the reconnect timer:
    [this.connect().catch(err => console.error(...))]. *)
Definition reconnect_callback (w : World) : World :=
  match connect w with
  | (Normal (Some p), w) =>
      match promises w !! p with
      | Some pr =>
          match p_state pr with
          | Pending => set_promises (<[p := mkPromise Pending (S (p_catch pr))]> (promises w)) w
          | Rejected _ => perform (reconnect_failed 1) w
          | Fulfilled => w
          end
      | None => w
      end
  | (_, w) => w
  end.

(** ** Outbound encoder *)

#[global] Instance Completion_ret : MRet Completion := fun A a => Normal a.
#[global] Instance Completion_bind : MBind Completion := fun A B f c =>
  match c with
  | Normal a => f a
  | Throw e => Throw e
  end.

Definition media_chunk (mimeType : string) (data : value) : value :=
  VObj [("realtimeInput",
         VObj [("mediaChunks",
                VArr [VObj [("mimeType", VStr mimeType); ("data", data)]])])].

(** [async sendAudio(base64audio)], by its body *)
Definition sendAudio (base64audio : value) : M unit :=
  if negb (truthy base64audio) then mret tt
  else
    success ← safelySendJSON (media_chunk "audio/pcm" base64audio);
    if (success : bool) then act (console Debug "Sending audio chunk") else mret tt.

(** [async sendImage(base64image)], by its body *)
Definition sendImage (base64image : value) : M unit :=
  if negb (truthy base64image) then mret tt
  else
    success ← safelySendJSON (media_chunk "image/jpeg" base64image);
    if (success : bool) then act (console Debug "Image was sent") else mret tt.

Definition text_turn (text endOfTurn : value) : value :=
  VObj [("clientContent",
         VObj [("turns", VArr [VObj [("role", VStr "user");
                                     ("parts", VObj [("text", text)])]]);
               ("turnComplete", endOfTurn)])].

(** [async sendText(text, endOfTurn = true)], by its body: the default
    applies when the argument is [undefined]. *)
Definition sendText (text endOfTurn : value) : M unit :=
  let endOfTurn := match endOfTurn with VUndefined => VBool true | v => v end in
  success ← safelySendJSON (text_turn text endOfTurn);
  if (success : bool) then act (console Debug "Text sent") else mret tt.

Definition is_undefined (v : value) : bool :=
  match v with VUndefined => true | _ => false end.

Definition tool_response (response id : value) : value :=
  VObj [("toolResponse",
         VObj [("functionResponses",
                VArr [VObj [("response", response); ("id", id)]])])].

(** [async sendToolResponse(toolResponse)], by its body *)
Definition sendToolResponse (toolResponse : value) : M unit :=
  no_id ← lift (if negb (truthy toolResponse) then Normal true
                else id ← get toolResponse "id"; Normal (negb (truthy id)));
  if (no_id : bool) then throw (Error "Tool response must include an id")
  else
    output ← lift (get toolResponse "output");
    id ← lift (get toolResponse "id");
    error ← lift (get toolResponse "error");
    result ←
      (if truthy error then mret (VObj [("error", error)])
       else if is_undefined output then
         throw (Error "Tool response must include an output when no error is provided")
       else mret (VObj [("output", output)]));
    success ← safelySendJSON (tool_response result id);
    if (success : bool) then act (console Debug "Tool response sent") else mret tt.

(** ** Inbound dispatcher *)

Fixpoint filterM {A} (f : A -> Completion bool) (l : list A) : Completion (list A) :=
  match l with
  | [] => Normal []
  | x :: rest =>
      keep ← f x;
      kept ← filterM f rest;
      Normal (if (keep : bool) then x :: kept else kept)
  end.

(** [p.inlineData && p.inlineData.mimeType.startsWith('audio/pcm')], as the
    boolean [filter] makes of it. *)
Definition is_audio_part (p : value) : Completion bool :=
  inlineData ← get p "inlineData";
  if truthy inlineData then
    mimeType ← get inlineData "mimeType";
    startsWith mimeType "audio/pcm"
  else Normal false.

(** The elements of a parsed array with their identities. *)
Definition indexed (l : list value) : list (nat * value) :=
  combine (seq 0 (length l)) l.

(** [p.inlineData?.data] *)
Definition base64_of (p : value) : Completion value :=
  inlineData ← get p "inlineData";
  Normal (get_opt inlineData "data").

Fixpoint mapM {A B} (f : A -> Completion B) (l : list A) : Completion (list B) :=
  match l with
  | [] => Normal []
  | x :: rest =>
      y ← f x;
      ys ← mapM f rest;
      Normal (y :: ys)
  end.

Section Dispatcher.

(** [utils.js] is not part of the sources at hand; its two functions are
    parameters.  [blobToJSON] reads a blob as text and parses it;
    [base64ToArrayBuffer] decodes base64 text.  Either may fail. *)
Variable Blob : Type.
Variable blobToJSON : Blob -> Completion value.
Variable base64ToArrayBuffer : value -> Completion (list Byte.byte).

(** The body of [base64s.forEach(...)]. *)
Fixpoint emit_audio (base64s : list value) : M unit :=
  match base64s with
  | [] => mret tt
  | b64 :: rest =>
      (if truthy b64 then
         data ← lift (base64ToArrayBuffer b64);
         act (emit "audio" (VBuffer data))
       else mret tt);;
      emit_audio rest
  end.

(** The [modelTurn] branch of [receive]. *)
Definition receive_modelTurn (modelTurn : value) : M unit :=
  parts ← lift (get modelTurn "parts");
  match parts with
  | VArr parts =>
      let parts := indexed parts in
      audioParts ← lift (filterM (fun p => is_audio_part (snd p)) parts);
      base64s ← lift (mapM (fun p => base64_of (snd p)) audioParts);
      let otherParts := List.filter (fun p => negb (includes audioParts p)) parts in
      emit_audio base64s;;
      if negb (length otherParts =? 0)%nat then
        act (emit "content"
               (VObj [("modelTurn", VObj [("parts", VArr (map snd otherParts))])]));;
        act (console Debug "sent:")
      else mret tt
  | _ => throw TypeError
  end.

(** The body of [receive] once the blob is parsed. *)
Definition dispatch (response : value) : M unit :=
  toolCall ← lift (get response "toolCall");
  if truthy toolCall then
    act (console Debug "received tool call");;
    act (emit "tool_call" toolCall)
  else
    toolCallCancellation ← lift (get response "toolCallCancellation");
    if truthy toolCallCancellation then
      act (console Debug "received tool call cancellation");;
      act (emit "tool_call_cancellation" toolCallCancellation)
    else
      serverContent ← lift (get response "serverContent");
      if truthy serverContent then
        interrupted ← lift (get serverContent "interrupted");
        if truthy interrupted then
          act (console Debug "is interrupted");;
          act (emit "interrupted" VUndefined)
        else
          turnComplete ← lift (get serverContent "turnComplete");
          (if truthy turnComplete then
             act (console Debug "has completed its turn");;
             act (emit "turn_complete" VUndefined)
           else mret tt);;
          modelTurn ← lift (get serverContent "modelTurn");
          if truthy modelTurn then receive_modelTurn modelTurn else mret tt
      else
        act (console Debug "received unmatched message:").

(** [async receive(blob)], by its body *)
Definition receive (blob : Blob) : M unit :=
  response ← lift (blobToJSON blob);
  dispatch response.

End Dispatcher.

(** ** The event loop *)

Section Machine.

Variable Blob : Type.
Variable blobToJSON : Blob -> Completion value.
Variable base64ToArrayBuffer : value -> Completion (list Byte.byte).

Inductive MessageData : Type :=
| BlobData (blob : Blob)
| OtherData (v : value).

(** The ['message'] listener.  [receive] is async and its promise is
    dropped; the model runs it to completion within the event. *)
Definition ws_onmessage (data : MessageData) (w : World) : World :=
  match data with
  | BlobData blob => snd (receive Blob blobToJSON base64ToArrayBuffer blob w)
  | OtherData _ => console Err "Non-blob message received" w
  end.

(** What can happen to a client: a call of one of its methods by the
    application, an event of one of its sockets, the expiry of one of
    its timers.  Socket events follow the WebSocket standard: [open] is
    fired once, on a connecting socket; a connection that fails (while
    connecting or when open) fires [error] and then [close] in the same
    task, with the socket already [CLOSED]; any other closure fires
    [close] alone. *)
Inductive Input : Type :=
| CallOn (eventName : string) (callback : nat)
| CallConnect
| CallDisconnect
| CallSendAudio (base64audio : value)
| CallSendImage (base64image : value)
| CallSendText (text endOfTurn : value)
| CallSendToolResponse (toolResponse : value)
| SocketOpen (s : nat)
| SocketFail (s : nat) (error : value) (code : Z) (reason : string)
| SocketClose (s : nat) (code : Z) (reason : string)
| SocketMessage (s : nat) (data : MessageData)
| TimerFires (t : nat).

Definition step (i : Input) (w : World) : World :=
  match i with
  | CallOn eventName callback => on eventName callback w
  | CallConnect => snd (connect w)
  | CallDisconnect => disconnect w
  | CallSendAudio v => snd (sendAudio v w)
  | CallSendImage v => snd (sendImage v w)
  | CallSendText text endOfTurn => snd (sendText text endOfTurn w)
  | CallSendToolResponse v => snd (sendToolResponse v w)
  | SocketOpen s =>
      match readyState <$> sockets w !! s with
      | Some CONNECTING => ws_onopen s (set_readyState s OPEN w)
      | _ => w
      end
  | SocketFail s error code reason =>
      match readyState <$> sockets w !! s with
      | Some CLOSED | None => w
      | Some _ =>
          ws_onclose s code reason (ws_onerror s error (set_readyState s CLOSED w))
      end
  | SocketClose s code reason =>
      match readyState <$> sockets w !! s with
      | Some CLOSED | None => w
      | Some _ => ws_onclose s code reason (set_readyState s CLOSED w)
      end
  | SocketMessage s data =>
      match readyState <$> sockets w !! s with
      | Some OPEN | Some CLOSING => ws_onmessage data w
      | _ => w
      end
  | TimerFires t =>
      match timers w !! t with
      | Some tm =>
          if t_fired tm then w
          else reconnect_callback
                 (set_timers (<[t := mkTimer (t_delay tm) true]> (timers w)) w)
      | None => w
      end
  end.

Definition run (inputs : list Input) (w : World) : World :=
  fold_left (fun w i => step i w) inputs w.

(** The worlds a client can be in: constructed, then driven by inputs. *)
Inductive reachable : World -> Prop :=
| reachable_new apiKey name0 url0 config0 c :
    new_GeminiWebsocketClient apiKey name0 url0 config0 = Normal c ->
    reachable (initial c)
| reachable_step i w :
    reachable w -> reachable (step i w).

End Machine.

Arguments BlobData {Blob} blob.
Arguments OtherData {Blob} v.
Arguments CallOn {Blob} eventName callback.
Arguments CallConnect {Blob}.
Arguments CallDisconnect {Blob}.
Arguments CallSendAudio {Blob} base64audio.
Arguments CallSendImage {Blob} base64image.
Arguments CallSendText {Blob} text endOfTurn.
Arguments CallSendToolResponse {Blob} toolResponse.
Arguments SocketOpen {Blob} s.
Arguments SocketFail {Blob} s error code reason.
Arguments SocketClose {Blob} s code reason.
Arguments SocketMessage {Blob} s data.
Arguments TimerFires {Blob} t.

(** A concrete instance to run examples on: a blob is its parsed content,
    and the decoder yields the bytes of the text it is given. *)
Definition demo_blobToJSON (blob : value) : Completion value := Normal blob.
Definition demo_base64ToArrayBuffer (v : value) : Completion (list Byte.byte) :=
  match v with
  | VStr s => Normal (list_byte_of_string s)
  | _ => Throw (Error "InvalidCharacterError")
  end.

Definition demo_step := step value demo_blobToJSON demo_base64ToArrayBuffer.
Definition demo_run := run value demo_blobToJSON demo_base64ToArrayBuffer.

Definition demo_client : GeminiWebsocketClient :=
  {| _eventListeners := ∅; name := "gemini"; url := "wss://example.test/ws?key=k";
     ws := None; config := VObj [("model", VStr "models/gemini-2.0-flash-exp")];
     isConnecting := false; connectionPromise := None;
     reconnectAttempts := 0; maxReconnectAttempts := 3; reconnectDelay := 2000 |}.

(** ** Notions used in the statements *)

(** What one [emit] call adds to the log. *)
Definition emission (w : World) (eventName : string) (data : value) : list Effect :=
  Emit eventName data
    :: map (fun cb => Invoke cb data) (default [] (_eventListeners (this w) !! eventName)).

(** Effects that only tell something to the outside: console lines and
    publications on the event bus. *)
Definition is_report (e : Effect) : Prop :=
  match e with
  | Emit _ _ | Invoke _ _ | Console _ _ => True
  | _ => False
  end.

(** A computation that only reports: it leaves the client, the sockets,
    the promises and the timers alone. *)
Definition reports_only {A} (m : M A) : Prop :=
  forall w, exists es, snd (m w) = perform es w /\ Forall is_report es.

(** An audio inline-data part: [inlineData] is present and its MIME type
    is a string that starts with [audio/pcm]. *)
Definition audio_part (p : value) : bool :=
  let inlineData := get_opt p "inlineData" in
  truthy inlineData
  && match get_opt inlineData "mimeType" with
     | VStr s => String.prefix "audio/pcm" s
     | _ => false
     end.

(** The base64 payload of a part. *)
Definition payload (p : value) : value :=
  get_opt (get_opt p "inlineData") "data".

(** A part on which the audio test of [receive] does not throw: the part
    is not [null], and an [inlineData] it carries has a string
    [mimeType]. *)
Definition well_formed_part (p : value) : bool :=
  match p with
  | VNull | VUndefined => false
  | _ =>
      let inlineData := get_opt p "inlineData" in
      if truthy inlineData then
        match get_opt inlineData "mimeType" with
        | VStr _ => true
        | _ => false
        end
      else true
  end.

(** The elements of an array from index [k] on. *)
Definition indexed_from (k : nat) (l : list value) : list (nat * value) :=
  combine (seq k (length l)) l.

(** The bytes the decoder yields for a payload (empty if it fails). *)
Definition decoded (base64ToArrayBuffer : value -> Completion (list Byte.byte))
    (b64 : value) : list Byte.byte :=
  match base64ToArrayBuffer b64 with
  | Normal bytes => bytes
  | Throw _ => []
  end.

(** An audio part whose payload is present and not empty. *)
Definition audible (p : value) : bool := audio_part p && truthy (payload p).

(** A part whose payload, if it is to be played, decodes. *)
Definition decodable (base64ToArrayBuffer : value -> Completion (list Byte.byte))
    (p : value) : Prop :=
  audible p = true -> is_throw (base64ToArrayBuffer (payload p)) = false.

(** The log entries of the three publications of a server-content frame. *)
Definition turn_complete_events (w : World) (serverContent : value) : list Effect :=
  if truthy (get_opt serverContent "turnComplete")
  then Console Debug "has completed its turn" :: emission w "turn_complete" VUndefined
  else [].

Definition audio_events (base64ToArrayBuffer : value -> Completion (list Byte.byte))
    (w : World) (parts : list value) : list Effect :=
  flat_map (fun p => emission w "audio" (VBuffer (decoded base64ToArrayBuffer (payload p))))
           (List.filter audible parts).

Definition content_events (w : World) (parts : list value) : list Effect :=
  match List.filter (fun p => negb (audio_part p)) parts with
  | [] => []
  | others =>
      emission w "content" (VObj [("modelTurn", VObj [("parts", VArr others)])])
      ++ [Console Debug "sent:"]
  end.

(** The frame gets past the tool-call and cancellation rules, is not
    interrupted and carries a model turn. *)
Definition reaches_modelTurn (response : value) : bool :=
  let serverContent := get_opt response "serverContent" in
  negb (truthy (get_opt response "toolCall"))
  && negb (truthy (get_opt response "toolCallCancellation"))
  && negb (truthy (get_opt serverContent "interrupted"))
  && truthy (get_opt serverContent "modelTurn").

Definition parts_of (response : value) : value :=
  get_opt (get_opt (get_opt response "serverContent") "modelTurn") "parts".

(** The frames [receive] handles without an exception: the frame is not
    [null], and if it reaches the model-turn branch its [parts] are an
    array of well-formed parts with decodable audio payloads. *)
Definition well_formed_frame (base64ToArrayBuffer : value -> Completion (list Byte.byte))
    (response : value) : Prop :=
  response <> VNull /\ response <> VUndefined /\
  (reaches_modelTurn response = true ->
   exists parts, parts_of response = VArr parts
     /\ Forall (fun p => well_formed_part p = true) parts
     /\ Forall (decodable base64ToArrayBuffer) parts).

(** The dispatch rules as the specification lists them (4.3, rules 1 to
    4), as the list of log entries a frame produces; [dispatch_refines]
    compares [dispatch] with it. *)
Definition dispatch_events (base64ToArrayBuffer : value -> Completion (list Byte.byte))
    (w : World) (response : value) : list Effect :=
  let toolCall := get_opt response "toolCall" in
  let toolCallCancellation := get_opt response "toolCallCancellation" in
  let serverContent := get_opt response "serverContent" in
  if truthy toolCall then
    Console Debug "received tool call" :: emission w "tool_call" toolCall
  else if truthy toolCallCancellation then
    Console Debug "received tool call cancellation"
      :: emission w "tool_call_cancellation" toolCallCancellation
  else if truthy serverContent then
    if truthy (get_opt serverContent "interrupted") then
      Console Debug "is interrupted" :: emission w "interrupted" VUndefined
    else
      turn_complete_events w serverContent
      ++ (if truthy (get_opt serverContent "modelTurn") then
            match parts_of response with
            | VArr parts =>
                audio_events base64ToArrayBuffer w parts ++ content_events w parts
            | _ => []
            end
          else [])
  else [Console Debug "received unmatched message:"].

(** Sample frames. *)
Definition audio_inline (data : list (string * value)) : value :=
  VObj [("inlineData", VObj (("mimeType", VStr "audio/pcm;rate=24000") :: data))].

Definition text_part (text : string) : value := VObj [("text", VStr text)].

Definition model_turn_frame (flags : list (string * value)) (parts : list value) : value :=
  VObj [("serverContent", VObj (flags ++ [("modelTurn", VObj [("parts", VArr parts)])]))].

Definition demo_dispatch := dispatch demo_base64ToArrayBuffer.
Definition demo_receive := receive value demo_blobToJSON demo_base64ToArrayBuffer.

(** [n] calls of [connect()] in a row, with their results. *)
Fixpoint connect_times (n : nat) (w : World) : list (Completion (option nat)) * World :=
  match n with
  | O => ([], w)
  | S n =>
      let (r, w) := connect w in
      let (rs, w) := connect_times n w in
      (r :: rs, w)
  end.

(** The payload of the [disconnected] event. *)
Definition close_info (code : Z) (reason : string) : value :=
  VObj [("code", VNum (inject_Z code)); ("reason", VStr reason)].

(** ** Invariants of the reachable worlds *)

(** The two constants keep the values the constructor gave them, and the
    counter stays between zero and the maximum. *)
Definition fields_ok (w : World) : Prop :=
  maxReconnectAttempts (this w) = 3
  /\ reconnectDelay (this w) = 2000
  /\ 0 <= reconnectAttempts (this w) <= 3.

(** Sockets and promises are created together, in [connect]: socket [s]
    settles promise [s].  A socket that is still connecting has a pending
    promise, and nothing was ever sent on it. *)
Definition channels_ok (w : World) : Prop :=
  length (promises w) = length (sockets w)
  /\ (forall s sock, sockets w !! s = Some sock -> ws_promise sock = s)
  /\ (forall s sock, sockets w !! s = Some sock -> readyState sock = CONNECTING ->
        exists pr, promises w !! s = Some pr /\ p_state pr = Pending)
  /\ (forall s d, In (Send s d) (effects w) ->
        exists sock, sockets w !! s = Some sock /\ readyState sock <> CONNECTING).

(** Effects other than writes on a socket. *)
Definition not_send (e : Effect) : Prop :=
  match e with Send _ _ => False | _ => True end.

(** A computation that only appends to the log, and writes on open
    sockets only. *)
Definition sends_ok (w : World) (es : list Effect) : Prop :=
  forall s d, In (Send s d) es -> readyState <$> sockets w !! s = Some OPEN.

Definition writes_open {A} (m : M A) : Prop :=
  forall w, exists es, snd (m w) = perform es w /\ sends_ok w es.

(** Sample worlds: a client connected on its first socket, and the same
    client after that socket closed abnormally. *)
Definition demo_connected : World :=
  demo_run [CallConnect; SocketOpen 0%nat] (initial demo_client).

Definition demo_dropped : World :=
  demo_run [SocketClose 0%nat 1006 ""] demo_connected.

Definition demo_url : string := "wss://example.test/ws?key=k".

(** Inputs that are neither a [disconnect()] call nor the opening or the
    end of a socket. *)
Definition quiet {Blob} (i : Input Blob) : bool :=
  match i with
  | CallDisconnect | SocketOpen _ | SocketFail _ _ _ _ | SocketClose _ _ _ => false
  | _ => true
  end.

(** [connect()] would return at one of its two guards. *)
Definition guarded (w : World) : bool := isConnected w || isConnecting (this w).

(** What a guard of [connect()] depends on. *)
Definition same_attempt (w w' : World) : Prop :=
  sockets w' = sockets w
  /\ ws (this w') = ws (this w)
  /\ isConnecting (this w') = isConnecting (this w)
  /\ connectionPromise (this w') = connectionPromise (this w).

(** ** Further notions: registrations, traffic per socket *)

(** A series of [on(eventName, callback)] calls. *)
Definition register (regs : list (string * nat)) (w : World) : World :=
  fold_left (fun w r => on (fst r) (snd r) w) regs w.

(** The callbacks a series of registrations gives an event, in order. *)
Definition registered (eventName : string) (regs : list (string * nat)) : list nat :=
  map snd (List.filter (fun r => String.eqb (fst r) eventName) regs).

(** The listeners of an event. *)
Definition listeners (w : World) (eventName : string) : list nat :=
  default [] (_eventListeners (this w) !! eventName).

(** The messages written on socket [s], oldest first. *)
Definition sent_on (s : nat) (es : list Effect) : list value :=
  omap (fun e => match e with
                 | Send s' d => if Nat.eqb s' s then Some d else None
                 | _ => None
                 end) es.

Definition setup_message (config : value) : value := VObj [("setup", config)].

(** A message without a [setup] key: every envelope of the outbound
    encoder is one. *)
Definition no_setup (d : value) : Prop := get_opt d "setup" = VUndefined.

(** The traffic on every socket is empty or starts with the setup
    message, which is not repeated; the socket [this.ws] refers to has
    had its setup message. *)
Definition setup_first (w : World) : Prop :=
  (forall s, sent_on s (effects w) = []
             \/ exists rest, sent_on s (effects w) = setup_message (config (this w)) :: rest
                             /\ Forall no_setup rest)
  /\ (forall s, ws (this w) = Some s -> sent_on s (effects w) <> []).

(** The delays of the backoff. *)
Definition backoff_delay (delay : Z) : Prop :=
  delay = 2000 \/ delay = 4000 \/ delay = 8000.

(** An input that is the opening of a socket. *)
Definition is_open {Blob} (i : Input Blob) : bool :=
  match i with SocketOpen _ => true | _ => false end.

(** A computation that appends to the log, writing only payload
    envelopes, and only on the open socket [this.ws] refers to. *)
Definition writes_payload {A} (m : M A) : Prop :=
  forall w, exists es,
    snd (m w) = perform es w
    /\ forall s d, In (Send s d) es ->
         ws (this w) = Some s /\ isConnected w = true /\ no_setup d.

(** [w'] differs from [w] by log entries that are not writes, and
    possibly by fields other than the log. *)
Definition logs_no_send (w w' : World) : Prop :=
  exists es, effects w' = effects w ++ es /\ Forall not_send es.

(** * Properties *)

Lemma demo_client_constructed :
  new_GeminiWebsocketClient None "gemini" "wss://example.test/ws?key=k"
    (VObj [("model", VStr "models/gemini-2.0-flash-exp")]) = Normal demo_client.
Proof. reflexivity. Qed.

(** ** Worlds, field by field *)

Lemma world_eq w1 w2 :
  this w1 = this w2 -> sockets w1 = sockets w2 -> promises w1 = promises w2 ->
  timers w1 = timers w2 -> effects w1 = effects w2 -> w1 = w2.
Proof. destruct w1, w2. simpl. by intros -> -> -> -> ->. Qed.

Lemma this_perform es w : this (perform es w) = this w. Proof. done. Qed.
Lemma sockets_perform es w : sockets (perform es w) = sockets w. Proof. done. Qed.
Lemma promises_perform es w : promises (perform es w) = promises w. Proof. done. Qed.
Lemma timers_perform es w : timers (perform es w) = timers w. Proof. done. Qed.
Lemma effects_perform es w : effects (perform es w) = effects w ++ es. Proof. done. Qed.

Lemma this_console l m w : this (console l m w) = this w. Proof. done. Qed.
Lemma sockets_console l m w : sockets (console l m w) = sockets w. Proof. done. Qed.
Lemma promises_console l m w : promises (console l m w) = promises w. Proof. done. Qed.
Lemma timers_console l m w : timers (console l m w) = timers w. Proof. done. Qed.
Lemma effects_console l m w : effects (console l m w) = effects w ++ [Console l m].
Proof. done. Qed.

Lemma this_set_this f w : this (set_this f w) = f (this w). Proof. done. Qed.
Lemma sockets_set_this f w : sockets (set_this f w) = sockets w. Proof. done. Qed.
Lemma promises_set_this f w : promises (set_this f w) = promises w. Proof. done. Qed.
Lemma timers_set_this f w : timers (set_this f w) = timers w. Proof. done. Qed.
Lemma effects_set_this f w : effects (set_this f w) = effects w. Proof. done. Qed.

Lemma this_set_sockets l w : this (set_sockets l w) = this w. Proof. done. Qed.
Lemma sockets_set_sockets l w : sockets (set_sockets l w) = l. Proof. done. Qed.
Lemma promises_set_sockets l w : promises (set_sockets l w) = promises w. Proof. done. Qed.
Lemma timers_set_sockets l w : timers (set_sockets l w) = timers w. Proof. done. Qed.
Lemma effects_set_sockets l w : effects (set_sockets l w) = effects w. Proof. done. Qed.

Lemma this_set_promises l w : this (set_promises l w) = this w. Proof. done. Qed.
Lemma sockets_set_promises l w : sockets (set_promises l w) = sockets w. Proof. done. Qed.
Lemma promises_set_promises l w : promises (set_promises l w) = l. Proof. done. Qed.
Lemma timers_set_promises l w : timers (set_promises l w) = timers w. Proof. done. Qed.
Lemma effects_set_promises l w : effects (set_promises l w) = effects w. Proof. done. Qed.

Lemma this_set_timers l w : this (set_timers l w) = this w. Proof. done. Qed.
Lemma sockets_set_timers l w : sockets (set_timers l w) = sockets w. Proof. done. Qed.
Lemma promises_set_timers l w : promises (set_timers l w) = promises w. Proof. done. Qed.
Lemma timers_set_timers l w : timers (set_timers l w) = l. Proof. done. Qed.
Lemma effects_set_timers l w : effects (set_timers l w) = effects w. Proof. done. Qed.

Lemma emission_this w w' eventName data :
  _eventListeners (this w') = _eventListeners (this w) ->
  emission w' eventName data = emission w eventName data.
Proof. unfold emission. by intros ->. Qed.

Create Rewrite HintDb world.
#[local] Hint Rewrite
  this_perform sockets_perform promises_perform timers_perform effects_perform
  this_console sockets_console promises_console timers_console effects_console
  this_set_this sockets_set_this promises_set_this timers_set_this effects_set_this
  this_set_sockets sockets_set_sockets promises_set_sockets timers_set_sockets
  effects_set_sockets
  this_set_promises sockets_set_promises promises_set_promises timers_set_promises
  effects_set_promises
  this_set_timers sockets_set_timers promises_set_timers timers_set_timers
  effects_set_timers : world.

(** Reassociate appended logs to the right. *)
Ltac app_norm :=
  repeat (rewrite <- app_assoc || rewrite <- app_comm_cons); reflexivity.

(** Compute the fields of a composed world, outermost update first. *)
Ltac fields :=
  cbn [fst snd];
  autorewrite with world;
  cbn [this sockets promises timers effects
       with_isConnecting with_reconnectAttempts with_ws with_connectionPromise
       with_eventListeners
       _eventListeners name url ws config isConnecting connectionPromise
       reconnectAttempts maxReconnectAttempts reconnectDelay].

(** ** The effect log *)

Lemma perform_nil w : perform [] w = w.
Proof. destruct w. unfold perform. simpl. by rewrite app_nil_r. Qed.

Lemma perform_perform es1 es2 w :
  perform es2 (perform es1 w) = perform (es1 ++ es2) w.
Proof. unfold perform. simpl. by rewrite app_assoc. Qed.

Lemma emit_perform eventName data w :
  emit eventName data w = perform (emission w eventName data) w.
Proof.
  unfold emit, emission. by destruct (_eventListeners (this w) !! eventName).
Qed.

Lemma emission_perform es w eventName data :
  emission (perform es w) eventName data = emission w eventName data.
Proof. reflexivity. Qed.

Lemma emission_report w eventName data : Forall is_report (emission w eventName data).
Proof.
  unfold emission. constructor; [exact I|].
  apply Forall_forall. intros e He. apply list_elem_of_In, in_map_iff in He.
  destruct He as (cb & <- & _). exact I.
Qed.

Lemma reports_only_ret {A} (a : A) : reports_only (mret a).
Proof. intros w. exists []. split; [symmetry; apply perform_nil | constructor]. Qed.

Lemma reports_only_lift {A} (c : Completion A) : reports_only (lift c).
Proof. intros w. exists []. split; [symmetry; apply perform_nil | constructor]. Qed.

Lemma reports_only_throw {A} (e : Exn) : reports_only (@throw A e).
Proof. intros w. exists []. split; [symmetry; apply perform_nil | constructor]. Qed.

Lemma reports_only_console l msg : reports_only (act (console l msg)).
Proof. intros w. exists [Console l msg]. split; [reflexivity | by repeat constructor]. Qed.

Lemma reports_only_emit eventName data : reports_only (act (emit eventName data)).
Proof.
  intros w. exists (emission w eventName data). split.
  - apply emit_perform.
  - apply emission_report.
Qed.

Lemma reports_only_bind {A B} (m : M A) (f : A -> M B) :
  reports_only m -> (forall a, reports_only (f a)) -> reports_only (m ≫= f).
Proof.
  intros Hm Hf w. destruct (Hm w) as (es1 & E1 & F1).
  unfold mbind, M_bind. destruct (m w) as [[a|e] w1]; simpl in *.
  - destruct (Hf a w1) as (es2 & E2 & F2). exists (es1 ++ es2).
    rewrite E2, E1, perform_perform. split; [done | by apply Forall_app].
  - by exists es1.
Qed.

(** ** Classifying the parts of a model turn *)

Lemma get_get_opt v k : v <> VNull -> v <> VUndefined -> get v k = Normal (get_opt v k).
Proof. by destruct v. Qed.

Lemma truthy_get_opt v k : truthy (get_opt v k) = true -> exists props, v = VObj props.
Proof. destruct v; simpl; try discriminate. eauto. Qed.

Lemma truthy_get v : truthy v = true -> forall k, get v k = Normal (get_opt v k).
Proof. by destruct v. Qed.

Lemma audio_part_object p : audio_part p = true -> exists props, p = VObj props.
Proof.
  unfold audio_part. intros H. apply andb_true_iff in H as [H _].
  by apply truthy_get_opt in H.
Qed.

Lemma is_audio_part_well_formed p :
  well_formed_part p = true -> is_audio_part p = Normal (audio_part p).
Proof.
  unfold well_formed_part, is_audio_part, audio_part. intros H.
  assert (Hp : p <> VNull /\ p <> VUndefined) by (by destruct p).
  destruct Hp as [Hn Hu]. rewrite (get_get_opt p _ Hn Hu).
  assert (Hwf : (if truthy (get_opt p "inlineData")
                 then match get_opt (get_opt p "inlineData") "mimeType" with
                      | VStr _ => true | _ => false end
                 else true) = true) by (by destruct p).
  clear H. simpl. destruct (truthy (get_opt p "inlineData")) eqn:Ht; [|done].
  rewrite (truthy_get _ Ht). simpl.
  by destruct (get_opt (get_opt p "inlineData") "mimeType").
Qed.

(** A part on which the audio test throws is not well formed. *)
Lemma is_audio_part_throws p :
  well_formed_part p = false -> is_throw (is_audio_part p) = true.
Proof.
  unfold well_formed_part, is_audio_part. intros H.
  destruct p; try done; simpl in *;
    destruct (truthy (own_property props "inlineData")) eqn:Ht; try done;
    rewrite (truthy_get _ Ht); simpl;
    by destruct (get_opt (own_property props "inlineData") "mimeType").
Qed.

Lemma base64_of_audio p : audio_part p = true -> base64_of p = Normal (payload p).
Proof. intros H. apply audio_part_object in H as [props ->]. reflexivity. Qed.

Lemma indexed_from_cons k x l :
  indexed_from k (x :: l) = (k, x) :: indexed_from (S k) l.
Proof. reflexivity. Qed.

Lemma indexed_from_fst k l p : In p (indexed_from k l) -> (k <= fst p)%nat.
Proof.
  revert k. induction l as [|x l IH]; intros k; [done|].
  rewrite indexed_from_cons. intros [<-|H]; [simpl; lia|].
  apply IH in H. lia.
Qed.

Lemma map_snd_filter_indexed (f : value -> bool) k l :
  map snd (List.filter (fun p => f (snd p)) (indexed_from k l)) = List.filter f l.
Proof.
  revert k. induction l as [|x l IH]; intros k; [done|].
  rewrite indexed_from_cons. simpl. destruct (f x); simpl; by rewrite IH.
Qed.

Lemma filterM_audio k l :
  Forall (fun p => well_formed_part p = true) l ->
  filterM (fun p => is_audio_part (snd p)) (indexed_from k l)
  = Normal (List.filter (fun p => audio_part (snd p)) (indexed_from k l)).
Proof.
  intros H. revert k. induction H as [|x l Hx _ IH]; intros k; [done|].
  rewrite indexed_from_cons. simpl. rewrite (is_audio_part_well_formed x Hx). simpl.
  rewrite IH. simpl. by destruct (audio_part x).
Qed.

Lemma mapM_base64 (l : list (nat * value)) :
  Forall (fun p => audio_part (snd p) = true) l ->
  mapM (fun p => base64_of (snd p)) l = Normal (map (fun p => payload (snd p)) l).
Proof.
  induction 1 as [|x l Hx _ IH]; [done|].
  simpl. rewrite (base64_of_audio _ Hx). simpl. by rewrite IH.
Qed.

Lemma filter_audio_Forall (l : list (nat * value)) :
  Forall (fun p => audio_part (snd p) = true)
         (List.filter (fun p => audio_part (snd p)) l).
Proof. apply Forall_forall. intros p Hp. apply list_elem_of_In, filter_In in Hp. tauto. Qed.

(** [audioParts.includes(p)] holds exactly for the audio parts: the
    members of [audioParts] are objects, and an object is equal only to
    itself. *)
Lemma includes_cons a l p :
  includes (a :: l) p = same_value_zero a p || includes l p.
Proof. reflexivity. Qed.

Lemma filter_cons_audio (x : nat * value) l :
  List.filter (fun q => audio_part (snd q)) (x :: l)
  = if audio_part (snd x) then x :: List.filter (fun q => audio_part (snd q)) l
    else List.filter (fun q => audio_part (snd q)) l.
Proof. reflexivity. Qed.

Lemma same_value_zero_object i j props v :
  same_value_zero (i, VObj props) (j, v)
  = match v with VObj _ => Nat.eqb i j | _ => false end.
Proof. by destruct v. Qed.

Lemma includes_audio k l p :
  In p (indexed_from k l) ->
  includes (List.filter (fun q => audio_part (snd q)) (indexed_from k l)) p
  = audio_part (snd p).
Proof.
  revert k. induction l as [|x l IH]; intros k; [done|].
  rewrite indexed_from_cons, filter_cons_audio. intros Hp.
  change (snd (k, x)) with x. destruct (audio_part x) eqn:Hx.
  - rewrite includes_cons. destruct Hp as [<-|Hp].
    + change (snd (k, x)) with x. rewrite Hx.
      destruct (audio_part_object _ Hx) as [props ->].
      by rewrite same_value_zero_object, Nat.eqb_refl.
    + rewrite (IH _ Hp).
      destruct (audio_part_object _ Hx) as [props ->].
      apply indexed_from_fst in Hp. destruct p as [j v].
      rewrite same_value_zero_object. simpl in Hp.
      destruct v; try done. replace (Nat.eqb k j) with false; [done|].
      symmetry. apply Nat.eqb_neq. lia.
  - destruct Hp as [<-|Hp]; [|by apply IH].
    change (snd (k, x)) with x. rewrite Hx. apply not_true_is_false. intros Hin.
    apply existsb_exists in Hin as (q & Hq & Hqe).
    apply filter_In in Hq as [Hq Hqa]. apply indexed_from_fst in Hq.
    destruct q as [j v]. simpl in Hqa, Hq.
    destruct (audio_part_object _ Hqa) as [props ->].
    rewrite same_value_zero_object in Hqe.
    destruct x; try done. apply Nat.eqb_eq in Hqe. lia.
Qed.

Lemma other_parts k l :
  List.filter (fun p => negb (includes (List.filter (fun q => audio_part (snd q))
                                                    (indexed_from k l)) p))
              (indexed_from k l)
  = List.filter (fun p => negb (audio_part (snd p))) (indexed_from k l).
Proof.
  apply filter_ext_in. intros p Hp. by rewrite includes_audio.
Qed.

(** ** The dispatcher *)

Ltac unfold_receive_modelTurn := unfold receive_modelTurn.
Ltac unfold_dispatch := unfold dispatch.
Ltac unfold_receive := unfold receive.

Section DispatcherProperties.

Variable Blob : Type.
Variable blobToJSON : Blob -> Completion value.
Variable base64ToArrayBuffer : value -> Completion (list Byte.byte).

Local Abbreviation emit_audio := (emit_audio base64ToArrayBuffer).
Local Abbreviation receive_modelTurn := (receive_modelTurn base64ToArrayBuffer).
Local Abbreviation dispatch := (dispatch base64ToArrayBuffer).
Local Abbreviation receive := (receive Blob blobToJSON base64ToArrayBuffer).

Lemma bind_lift_normal {A B} (a : A) (f : A -> M B) w :
  (lift (Normal a) ≫= f) w = f a w.
Proof. reflexivity. Qed.

Lemma bind_lift_throw {A B} e (f : A -> M B) w :
  (lift (Throw e) ≫= f) w = (Throw e, w).
Proof. reflexivity. Qed.

Lemma bind_act {B} (g : World -> World) (f : unit -> M B) w :
  (act g ≫= f) w = f tt (g w).
Proof. reflexivity. Qed.

Lemma bind_ret {A B} (a : A) (f : A -> M B) w : (mret a ≫= f) w = f a w.
Proof. reflexivity. Qed.

Lemma emit_audio_reports base64s : reports_only (emit_audio base64s).
Proof.
  induction base64s as [|b rest IH]; [apply reports_only_ret|].
  simpl. apply reports_only_bind; [|by intros].
  destruct (truthy b); [|apply reports_only_ret].
  apply reports_only_bind; [apply reports_only_lift|].
  intros. apply reports_only_emit.
Qed.

Lemma receive_modelTurn_reports modelTurn : reports_only (receive_modelTurn modelTurn).
Proof.
  unfold_receive_modelTurn.
  apply reports_only_bind; [apply reports_only_lift|]. intros parts.
  destruct parts; try apply reports_only_throw.
  apply reports_only_bind; [apply reports_only_lift|]. intros audioParts.
  apply reports_only_bind; [apply reports_only_lift|]. intros base64s.
  apply reports_only_bind; [apply emit_audio_reports|]. intros _.
  destruct (negb _); [|apply reports_only_ret].
  apply reports_only_bind; [apply reports_only_emit|]. intros _.
  apply reports_only_console.
Qed.

Lemma dispatch_reports response : reports_only (dispatch response).
Proof.
  unfold_dispatch.
  apply reports_only_bind; [apply reports_only_lift|]. intros toolCall.
  destruct (truthy toolCall).
  { apply reports_only_bind; [apply reports_only_console|]. intros _.
    apply reports_only_emit. }
  apply reports_only_bind; [apply reports_only_lift|]. intros cancellation.
  destruct (truthy cancellation).
  { apply reports_only_bind; [apply reports_only_console|]. intros _.
    apply reports_only_emit. }
  apply reports_only_bind; [apply reports_only_lift|]. intros serverContent.
  destruct (truthy serverContent); [|apply reports_only_console].
  apply reports_only_bind; [apply reports_only_lift|]. intros interrupted.
  destruct (truthy interrupted).
  { apply reports_only_bind; [apply reports_only_console|]. intros _.
    apply reports_only_emit. }
  apply reports_only_bind; [apply reports_only_lift|]. intros turnComplete.
  apply reports_only_bind.
  { destruct (truthy turnComplete); [|apply reports_only_ret].
    apply reports_only_bind; [apply reports_only_console|]. intros _.
    apply reports_only_emit. }
  intros _. apply reports_only_bind; [apply reports_only_lift|]. intros modelTurn.
  destruct (truthy modelTurn); [apply receive_modelTurn_reports | apply reports_only_ret].
Qed.

Lemma receive_reports blob : reports_only (receive blob).
Proof.
  apply reports_only_bind; [apply reports_only_lift|]. apply dispatch_reports.
Qed.

(** The audio loop on payloads that decode. *)
Lemma emit_audio_decodable (parts : list value) w :
  Forall (decodable base64ToArrayBuffer) parts ->
  emit_audio (map payload (List.filter audio_part parts)) w
  = (Normal tt, perform (audio_events base64ToArrayBuffer w parts) w).
Proof.
  intros H. revert w. induction H as [|p parts Hp _ IH]; intros w.
  { by rewrite perform_nil. }
  unfold audio_events, audible in *. simpl.
  destruct (audio_part p) eqn:Ha; simpl; [|apply IH].
  destruct (truthy (payload p)) eqn:Ht; simpl.
  - unfold decodable, audible in Hp. rewrite Ha, Ht in Hp. specialize (Hp eq_refl).
    unfold mbind, M_bind, lift, act at 1. unfold decoded.
    destruct (base64ToArrayBuffer (payload p)) as [bytes|]; [|done]. simpl.
    rewrite emit_perform, IH, perform_perform. reflexivity.
  - unfold mbind, M_bind at 1. simpl. apply IH.
Qed.

Lemma receive_modelTurn_parts modelTurn parts w :
  truthy modelTurn = true ->
  get_opt modelTurn "parts" = VArr parts ->
  Forall (fun p => well_formed_part p = true) parts ->
  Forall (decodable base64ToArrayBuffer) parts ->
  receive_modelTurn modelTurn w
  = (Normal tt,
     perform (audio_events base64ToArrayBuffer w parts ++ content_events w parts) w).
Proof.
  intros Ht Hparts Hwf Hdec. unfold_receive_modelTurn.
  rewrite (truthy_get _ Ht), bind_lift_normal, Hparts.
  change (indexed parts) with (indexed_from 0 parts).
  rewrite filterM_audio by done. rewrite bind_lift_normal.
  rewrite mapM_base64 by apply filter_audio_Forall. rewrite bind_lift_normal.
  rewrite other_parts.
  rewrite <- (map_map snd payload), (map_snd_filter_indexed audio_part).
  unfold mbind at 1. unfold M_bind. rewrite emit_audio_decodable by done.
  rewrite (map_snd_filter_indexed (fun p => negb (audio_part p))).
  unfold content_events.
  rewrite <- (length_map snd), (map_snd_filter_indexed (fun p => negb (audio_part p))).
  destruct (List.filter (fun p => negb (audio_part p)) parts) as [|o others] eqn:Ho.
  - simpl. by rewrite app_nil_r.
  - change (negb (length (o :: others) =? 0)%nat) with true. cbv iota.
    rewrite bind_act. unfold act.
    rewrite emit_perform, emission_perform. unfold console.
    by rewrite !perform_perform.
Qed.

Lemma reaches_modelTurn_inv response :
  reaches_modelTurn response = true ->
  truthy (get_opt response "toolCall") = false
  /\ truthy (get_opt response "toolCallCancellation") = false
  /\ truthy (get_opt response "serverContent") = true
  /\ truthy (get_opt (get_opt response "serverContent") "interrupted") = false
  /\ truthy (get_opt (get_opt response "serverContent") "modelTurn") = true.
Proof.
  unfold reaches_modelTurn. intros H.
  apply andb_true_iff in H as [H Hm]. apply andb_true_iff in H as [H Hi].
  apply andb_true_iff in H as [Ht Hc].
  apply negb_true_iff in Ht, Hc, Hi. repeat split; try done.
  apply truthy_get_opt in Hm as [props ->]. reflexivity.
Qed.

Lemma turn_complete_step {B} (f : unit -> M B) sc w :
  ((if truthy (get_opt sc "turnComplete")
    then act (console Debug "has completed its turn")
         ≫= (fun _ => act (emit "turn_complete" VUndefined))
    else mret tt) ≫= f) w
  = f tt (perform (turn_complete_events w sc) w).
Proof.
  unfold turn_complete_events. destruct (truthy (get_opt sc "turnComplete")).
  - unfold mbind, M_bind, act. cbv beta iota. unfold console.
    by rewrite emit_perform, perform_perform.
  - rewrite bind_ret. by rewrite perform_nil.
Qed.

(** On the frames it handles, [dispatch] is the rule list of the
    specification. *)
Lemma dispatch_refines response w :
  well_formed_frame base64ToArrayBuffer response ->
  dispatch response w
  = (Normal tt, perform (dispatch_events base64ToArrayBuffer w response) w).
Proof.
  intros (Hn & Hu & Hparts). unfold_dispatch. unfold dispatch_events.
  rewrite !(get_get_opt response _ Hn Hu), bind_lift_normal.
  destruct (truthy (get_opt response "toolCall")) eqn:Ht.
  { rewrite bind_act. unfold act, console. by rewrite emit_perform, perform_perform. }
  rewrite bind_lift_normal.
  destruct (truthy (get_opt response "toolCallCancellation")) eqn:Hc.
  { rewrite bind_act. unfold act, console. by rewrite emit_perform, perform_perform. }
  rewrite bind_lift_normal.
  destruct (truthy (get_opt response "serverContent")) eqn:Hs; [|done].
  rewrite !(truthy_get _ Hs), bind_lift_normal.
  destruct (truthy (get_opt (get_opt response "serverContent") "interrupted")) eqn:Hi.
  { rewrite bind_act. unfold act, console. by rewrite emit_perform, perform_perform. }
  rewrite bind_lift_normal.
  set (sc := get_opt response "serverContent") in *.
  rewrite turn_complete_step, bind_lift_normal.
  destruct (truthy (get_opt sc "modelTurn")) eqn:Hm.
  - destruct Hparts as (parts & Hp & Hwf & Hdec).
    { unfold reaches_modelTurn. fold sc. by rewrite Ht, Hc, Hi, Hm. }
    rewrite Hp. unfold parts_of in Hp. fold sc in Hp.
    rewrite (receive_modelTurn_parts _ parts) by done.
    by rewrite perform_perform.
  - by rewrite app_nil_r.
Qed.

Lemma emission_emit w eventName data n d :
  In (Emit n d) (emission w eventName data) -> n = eventName /\ d = data.
Proof.
  unfold emission. intros [H|H]; [by inversion H|].
  apply in_map_iff in H as (cb & Hcb & _). discriminate.
Qed.

(** Conversely, [dispatch] throws on every other frame. *)
Lemma filterM_normal {A} (f : A -> Completion bool) l r :
  filterM f l = Normal r -> Forall (fun x => is_throw (f x) = false) l.
Proof.
  revert r. induction l as [|x l IH]; intros r; [constructor|].
  simpl. destruct (f x) as [keep|] eqn:Hx; [|done]. simpl.
  destruct (filterM f l) as [kept|]; [|done]. intros _.
  constructor; [by rewrite Hx | by eapply IH].
Qed.

Lemma Forall_indexed_from (P : value -> Prop) k l :
  Forall (fun p => P (snd p)) (indexed_from k l) -> Forall P l.
Proof.
  revert k. induction l as [|x l IH]; intros k; [constructor|].
  rewrite indexed_from_cons. intros H. apply Forall_cons in H as [Hx H].
  constructor; [done | by eapply IH].
Qed.

Lemma emit_audio_normal base64s w :
  is_throw (fst (emit_audio base64s w)) = false ->
  Forall (fun b => truthy b = true -> is_throw (base64ToArrayBuffer b) = false) base64s.
Proof.
  revert w. induction base64s as [|b rest IH]; intros w; [constructor|].
  simpl. destruct (truthy b) eqn:Ht.
  - unfold mbind at 1, M_bind at 1. unfold mbind at 1, M_bind at 1, lift at 1.
    destruct (base64ToArrayBuffer b) as [data|] eqn:Hb; [|done].
    unfold act at 1. intros H. constructor; [by rewrite Hb | by eapply IH].
  - rewrite bind_ret. intros H. constructor; [congruence | by eapply IH].
Qed.

Lemma receive_modelTurn_normal modelTurn w :
  truthy modelTurn = true ->
  is_throw (fst (receive_modelTurn modelTurn w)) = false ->
  exists parts, get_opt modelTurn "parts" = VArr parts
    /\ Forall (fun p => well_formed_part p = true) parts
    /\ Forall (decodable base64ToArrayBuffer) parts.
Proof.
  intros Ht. unfold_receive_modelTurn.
  rewrite (truthy_get _ Ht), bind_lift_normal.
  destruct (get_opt modelTurn "parts") as [| | | | |parts| |]; try done.
  change (indexed parts) with (indexed_from 0 parts).
  destruct (filterM (fun p => is_audio_part (snd p)) (indexed_from 0 parts))
    as [audioParts|] eqn:Hf; [|done].
  assert (Hwf : Forall (fun p => well_formed_part p = true) parts).
  { apply filterM_normal in Hf.
    apply (Forall_indexed_from (fun v => is_throw (is_audio_part v) = false)) in Hf.
    eapply Forall_impl; [exact Hf|]. intros p Hp. simpl in Hp.
    destruct (well_formed_part p) eqn:E; [done|].
    apply is_audio_part_throws in E. congruence. }
  rewrite filterM_audio in Hf by done. injection Hf as <-.
  rewrite bind_lift_normal.
  rewrite mapM_base64 by apply filter_audio_Forall. rewrite bind_lift_normal.
  rewrite <- (map_map snd payload), (map_snd_filter_indexed audio_part).
  unfold mbind at 1, M_bind at 1. intros H.
  exists parts. split; [done|]. split; [done|].
  assert (Hd : is_throw (fst (emit_audio (map payload (List.filter audio_part parts)) w))
               = false).
  { destruct (emit_audio (map payload (List.filter audio_part parts)) w) as [[[]|] w'];
      done. }
  apply emit_audio_normal in Hd. rewrite Forall_forall in Hd.
  apply Forall_forall. intros p Hp Ha. unfold audible in Ha.
  apply andb_true_iff in Ha as [Ha Hpay]. apply Hd; [|done].
  apply list_elem_of_In, in_map, filter_In. split; [by apply list_elem_of_In | done].
Qed.

Lemma dispatch_normal response w :
  is_throw (fst (dispatch response w)) = false ->
  well_formed_frame base64ToArrayBuffer response.
Proof.
  intros H.
  assert (Hn : response <> VNull) by (by intros ->).
  assert (Hu : response <> VUndefined) by (by intros ->).
  split; [done|]. split; [done|]. intros Hr.
  destruct (reaches_modelTurn_inv _ Hr) as (Ht & Hc & Hs & Hi & Hm).
  revert H. unfold_dispatch.
  rewrite !(get_get_opt response _ Hn Hu), bind_lift_normal, Ht, bind_lift_normal, Hc.
  rewrite bind_lift_normal, Hs, !(truthy_get _ Hs), bind_lift_normal, Hi.
  rewrite bind_lift_normal, turn_complete_step, bind_lift_normal, Hm.
  apply receive_modelTurn_normal. done.
Qed.

(** C5: a frame whose [serverContent.interrupted] is set publishes no
    [turn_complete], [content] or [audio] event and does not throw; when
    the frame gets to the server-content rule (it carries no tool call and
    no cancellation) it publishes [interrupted], without payload, and
    nothing else, whatever [turnComplete] and [modelTurn] it carries. *)
Theorem interrupted_short_circuits response w :
  truthy (get_opt (get_opt response "serverContent") "interrupted") = true ->
  (truthy (get_opt response "toolCall") = false ->
   truthy (get_opt response "toolCallCancellation") = false ->
   dispatch response w
   = (Normal tt,
      perform (Console Debug "is interrupted" :: emission w "interrupted" VUndefined) w))
  /\ exists es,
       dispatch response w = (Normal tt, perform es w)
       /\ forall n d, In (Emit n d) es ->
            n <> "turn_complete" /\ n <> "content" /\ n <> "audio".
Proof.
  intros Hi.
  assert (Hs : truthy (get_opt response "serverContent") = true).
  { apply truthy_get_opt in Hi as [props ->]. reflexivity. }
  assert (Hwf : well_formed_frame base64ToArrayBuffer response).
  { destruct (truthy_get_opt _ _ Hs) as [props ->].
    repeat split; try done. unfold reaches_modelTurn. rewrite Hi.
    rewrite andb_false_r. discriminate. }
  rewrite (dispatch_refines _ _ Hwf). unfold dispatch_events. rewrite Hs, Hi.
  split.
  - intros -> ->. reflexivity.
  - eexists. split; [reflexivity|]. intros n d Hin.
    destruct (truthy (get_opt response "toolCall"));
      [|destruct (truthy (get_opt response "toolCallCancellation"))];
      (destruct Hin as [Hin|Hin]; [discriminate|]);
      apply emission_emit in Hin as [-> _]; done.
Qed.

(** C6, as the code has it: a frame that reaches the model-turn branch
    with an array of well-formed parts publishes, after [turn_complete] if
    the frame is flagged complete, one [audio] event per audio part that
    has a non-empty payload, in the order of the parts and with the
    payload decoded, and then, if any part is not an audio part, one
    [content] event with exactly those parts in their order.  An audio
    part without payload is in neither. *)
Theorem model_turn_partition response parts w :
  reaches_modelTurn response = true ->
  parts_of response = VArr parts ->
  Forall (fun p => well_formed_part p = true) parts ->
  Forall (decodable base64ToArrayBuffer) parts ->
  dispatch response w
  = (Normal tt,
     perform (turn_complete_events w (get_opt response "serverContent")
              ++ audio_events base64ToArrayBuffer w parts
              ++ content_events w parts) w).
Proof.
  intros Hr Hp Hwf Hdec.
  destruct (reaches_modelTurn_inv _ Hr) as (Ht & Hc & Hs & Hi & Hm).
  rewrite dispatch_refines.
  - unfold dispatch_events. by rewrite Ht, Hc, Hs, Hi, Hm, Hp.
  - destruct (truthy_get_opt _ _ Hs) as [props ->].
    repeat split; try done. intros _. by exists parts.
Qed.

(** C3, as the code has it: [receive] returns normally exactly on the
    frames that parse to a well-formed frame; on those all it does is
    report (console lines and events), and a frame that matches none of
    the three variants is logged as unmatched and publishes nothing.  On
    every other frame it throws. *)
Theorem receive_well_formed blob response w :
  blobToJSON blob = Normal response ->
  (is_throw (fst (receive blob w)) = false
   <-> well_formed_frame base64ToArrayBuffer response)
  /\ (well_formed_frame base64ToArrayBuffer response ->
      exists es,
        receive blob w = (Normal tt, perform es w)
        /\ Forall is_report es
        /\ (truthy (get_opt response "toolCall") = false ->
            truthy (get_opt response "toolCallCancellation") = false ->
            truthy (get_opt response "serverContent") = false ->
            es = [Console Debug "received unmatched message:"])).
Proof.
  intros Hb. unfold_receive. rewrite Hb, bind_lift_normal. split.
  - split; [apply dispatch_normal|].
    intros Hwf. by rewrite (dispatch_refines _ _ Hwf).
  - intros Hwf. rewrite (dispatch_refines _ _ Hwf).
    eexists. split; [reflexivity|]. split.
    + destruct (dispatch_reports response w) as (es & Hes & Hrep).
      rewrite (dispatch_refines _ _ Hwf) in Hes. simpl in Hes.
      assert (dispatch_events base64ToArrayBuffer w response = es) as ->; [|done].
      apply (f_equal effects) in Hes. simpl in Hes. by apply app_inv_head in Hes.
    + intros Ht Hc Hs. unfold dispatch_events. by rewrite Ht, Hc, Hs.
Qed.

End DispatcherProperties.

(** C3, as stated, fails: both malformed frames the claim names make
    [receive] end in a [TypeError] (the promise it returns is rejected),
    the first at [parts.filter], the second at [mimeType.startsWith]. *)
Lemma receive_throws_on_malformed_turn :
  demo_receive (VObj [("serverContent", VObj [("modelTurn", VObj [])])])
               (initial demo_client)
  = (Throw TypeError, initial demo_client)
  /\ demo_receive
       (model_turn_frame [] [VObj [("inlineData", VObj [("data", VStr "QUJD")])]])
       (initial demo_client)
     = (Throw TypeError, initial demo_client).
Proof. split; reflexivity. Qed.

(** C6, as stated, fails: of two audio parts and one text part, the audio
    part that carries no payload gets no [audio] event (and is not in the
    [content] event either), so one [audio] event is published, not two. *)
Lemma audio_part_without_payload_is_dropped :
  let parts := [audio_inline [("data", VStr "QUJD")]; audio_inline []; text_part "hello"] in
  List.filter audio_part parts = [audio_inline [("data", VStr "QUJD")]; audio_inline []]
  /\ demo_dispatch (model_turn_frame [] parts) (initial demo_client)
     = (Normal tt,
        perform [Emit "audio" (VBuffer (list_byte_of_string "QUJD"));
                 Emit "content" (VObj [("modelTurn", VObj [("parts", VArr [text_part "hello"])])]);
                 Console Debug "sent:"]
                (initial demo_client)).
Proof. split; reflexivity. Qed.

(** ** The guarded send *)

Lemma isConnected_inv w :
  isConnected w = true ->
  exists s, ws (this w) = Some s /\ readyState <$> sockets w !! s = Some OPEN.
Proof.
  unfold isConnected. destruct (ws (this w)) as [s|]; [|done].
  destruct (readyState <$> sockets w !! s) as [[]|] eqn:E; try done. eauto.
Qed.

Lemma safelySendJSON_connected data w s :
  ws (this w) = Some s -> isConnected w = true ->
  safelySendJSON data w = (Normal true, perform [Send s data] w).
Proof.
  intros Hs Hc. unfold safelySendJSON. rewrite Hc.
  destruct (isConnected_inv _ Hc) as (s' & Hs' & Ho).
  rewrite Hs in Hs'. injection Hs' as <-.
  unfold try_catch, mbind, M_bind, this_ws_send, ws_send. by rewrite Hs, Ho.
Qed.

Lemma safelySendJSON_disconnected data w :
  isConnected w = false ->
  safelySendJSON data w
  = (Normal false, console Warn "Cannot send: WebSocket not connected" w).
Proof. intros Hc. unfold safelySendJSON. by rewrite Hc. Qed.

(** The guarded primitive never throws; it answers with a boolean and
    touches nothing but the log. *)
Lemma safelySendJSON_total data w :
  exists ok es, safelySendJSON data w = (Normal ok, perform es w).
Proof.
  destruct (isConnected w) eqn:Hc.
  - destruct (isConnected_inv _ Hc) as (s & Hs & _).
    exists true, [Send s data]. by apply safelySendJSON_connected.
  - exists false, [Console Warn "Cannot send: WebSocket not connected"].
    by apply safelySendJSON_disconnected.
Qed.

(** A send method once its envelope is built. *)
Lemma guarded_send_total data msg w :
  exists es,
    (safelySendJSON data ≫= fun success : bool =>
       if success then act (console Debug msg) else mret tt) w
    = (Normal tt, perform es w).
Proof.
  destruct (safelySendJSON_total data w) as (ok & es & H).
  unfold mbind, M_bind. rewrite H. destruct ok.
  - exists (es ++ [Console Debug msg]). unfold act, console.
    by rewrite perform_perform.
  - by exists es.
Qed.

Lemma sendAudio_total v w : exists es, sendAudio v w = (Normal tt, perform es w).
Proof.
  unfold sendAudio. destruct (truthy v); simpl.
  - apply guarded_send_total.
  - exists []. by rewrite perform_nil.
Qed.

Lemma sendImage_total v w : exists es, sendImage v w = (Normal tt, perform es w).
Proof.
  unfold sendImage. destruct (truthy v); simpl.
  - apply guarded_send_total.
  - exists []. by rewrite perform_nil.
Qed.

Lemma sendText_total text endOfTurn w :
  exists es, sendText text endOfTurn w = (Normal tt, perform es w).
Proof. unfold sendText. apply guarded_send_total. Qed.

Lemma completion_bind_normal {A B} (a : A) (f : A -> Completion B) :
  (Normal a ≫= f) = f a.
Proof. reflexivity. Qed.

Lemma bind_lift_normal' {A B} (a : A) (f : A -> M B) w :
  (lift (Normal a) ≫= f) w = f a w.
Proof. reflexivity. Qed.

(** The three outcomes of [sendToolResponse]. *)
Lemma sendToolResponse_no_id toolResponse w :
  truthy (get_opt toolResponse "id") = false ->
  sendToolResponse toolResponse w
  = (Throw (Error "Tool response must include an id"), w).
Proof.
  intros Hid. unfold sendToolResponse.
  destruct (truthy toolResponse) eqn:Ht; [|reflexivity].
  rewrite !(truthy_get _ Ht). cbv [negb]. rewrite completion_bind_normal, Hid.
  reflexivity.
Qed.

Lemma sendToolResponse_no_output toolResponse w :
  truthy (get_opt toolResponse "id") = true ->
  truthy (get_opt toolResponse "error") = false ->
  get_opt toolResponse "output" = VUndefined ->
  sendToolResponse toolResponse w
  = (Throw (Error "Tool response must include an output when no error is provided"), w).
Proof.
  intros Hid He Ho. unfold sendToolResponse.
  destruct (truthy_get_opt _ _ Hid) as [props ->].
  assert (Ht : truthy (VObj props) = true) by reflexivity.
  rewrite !(truthy_get _ Ht), Ht. cbv [negb].
  rewrite completion_bind_normal, Hid. cbv [negb].
  rewrite !bind_lift_normal', He, Ho. reflexivity.
Qed.

Lemma sendToolResponse_envelope toolResponse w :
  truthy (get_opt toolResponse "id") = true ->
  (truthy (get_opt toolResponse "error") = false ->
   get_opt toolResponse "output" <> VUndefined) ->
  sendToolResponse toolResponse w
  = (safelySendJSON
       (tool_response
          (if truthy (get_opt toolResponse "error")
           then VObj [("error", get_opt toolResponse "error")]
           else VObj [("output", get_opt toolResponse "output")])
          (get_opt toolResponse "id"))
     ≫= fun success : bool =>
          if success then act (console Debug "Tool response sent") else mret tt) w.
Proof.
  intros Hid Ho. unfold sendToolResponse.
  destruct (truthy_get_opt _ _ Hid) as [props ->].
  assert (Ht : truthy (VObj props) = true) by reflexivity.
  rewrite !(truthy_get _ Ht), Ht. cbv [negb].
  rewrite completion_bind_normal, Hid. cbv [negb].
  rewrite !bind_lift_normal'.
  destruct (truthy (get_opt (VObj props) "error")) eqn:He.
  - reflexivity.
  - specialize (Ho eq_refl).
    destruct (get_opt (VObj props) "output"); try done.
Qed.

(** C7, as the code has it.  [sendToolResponse] is [async]: a call
    never throws; it returns a promise.  The promise is rejected, before
    anything is sent and with the world untouched, exactly when the id
    is missing or when there is neither an error nor an output, with
    the [Error] of the first of the two checks that fails.  Otherwise
    it is fulfilled, and on a connected client the envelope written is
    [{ toolResponse: { functionResponses: [{ response, id }] } }] with
    the call id, where [response] is [{ error }] alone when an error is
    given and [{ output }] otherwise; on a client that is not connected
    nothing is written. *)
Theorem tool_response_rules toolResponse w :
  let id := get_opt toolResponse "id" in
  let output := get_opt toolResponse "output" in
  let error := get_opt toolResponse "error" in
  let envelope response :=
    VObj [("toolResponse",
           VObj [("functionResponses",
                  VArr [VObj [("response", response); ("id", id)]])])] in
  let call := async (sendToolResponse toolResponse) w in
  is_throw (fst call) = false
  /\ ((exists e, fst call = Normal (Rejects e))
      <-> truthy id = false \/ (truthy error = false /\ output = VUndefined))
  /\ (forall e, fst call = Normal (Rejects e) ->
        snd call = w
        /\ e = if truthy id
               then Error "Tool response must include an output when no error is provided"
               else Error "Tool response must include an id")
  /\ (forall s, ws (this w) = Some s -> isConnected w = true -> truthy id = true ->
        (truthy error = true ->
         call
         = (Normal (Fulfills tt),
            perform [Send s (envelope (VObj [("error", error)]));
                     Console Debug "Tool response sent"] w))
        /\ (truthy error = false -> output <> VUndefined ->
            call
            = (Normal (Fulfills tt),
               perform [Send s (envelope (VObj [("output", output)]));
                        Console Debug "Tool response sent"] w)))
  /\ (isConnected w = false -> truthy id = true ->
      (truthy error = false -> output <> VUndefined) ->
      call = (Normal (Fulfills tt), console Warn "Cannot send: WebSocket not connected" w)).
Proof.
  intros id output error envelope call.
  assert (Hcases :
    (truthy id = false
     /\ sendToolResponse toolResponse w
        = (Throw (Error "Tool response must include an id"), w))
    \/ (truthy id = true /\ truthy error = false /\ output = VUndefined
        /\ sendToolResponse toolResponse w
           = (Throw (Error "Tool response must include an output when no error is provided"), w))
    \/ (truthy id = true /\ (truthy error = false -> output <> VUndefined)
        /\ fst (sendToolResponse toolResponse w) = Normal tt)).
  { destruct (truthy id) eqn:Hid.
    - right. destruct (truthy error) eqn:He.
      + right. repeat split; [done|].
        rewrite sendToolResponse_envelope by (done || (subst error; congruence)).
        destruct (guarded_send_total
                    (tool_response
                       (if truthy (get_opt toolResponse "error")
                        then VObj [("error", get_opt toolResponse "error")]
                        else VObj [("output", get_opt toolResponse "output")])
                       (get_opt toolResponse "id"))
                    "Tool response sent" w) as (es & ->). reflexivity.
      + destruct output eqn:Ho.
        1: { left. repeat split; try done. by apply sendToolResponse_no_output. }
        all: right; repeat split; try done;
          rewrite sendToolResponse_envelope
            by (done || (intros _; subst output; congruence));
          match goal with
          | |- fst ((safelySendJSON ?d ≫= _) ?w0) = _ =>
              destruct (guarded_send_total d "Tool response sent" w0) as (es & ->)
          end; reflexivity.
    - left. split; [done|]. by apply sendToolResponse_no_id. }
  assert (Hsent : forall s, ws (this w) = Some s -> isConnected w = true ->
                            truthy id = true ->
    (truthy error = true ->
     sendToolResponse toolResponse w
     = (Normal tt,
        perform [Send s (envelope (VObj [("error", error)]));
                 Console Debug "Tool response sent"] w))
    /\ (truthy error = false -> output <> VUndefined ->
        sendToolResponse toolResponse w
        = (Normal tt,
           perform [Send s (envelope (VObj [("output", output)]));
                    Console Debug "Tool response sent"] w))).
  { intros s Hs Hc Hid. split.
    + intros He. rewrite sendToolResponse_envelope by (done || (subst error; congruence)).
      fold error id. rewrite He. unfold mbind, M_bind.
      rewrite (safelySendJSON_connected _ _ s) by done.
      unfold act, console. by rewrite perform_perform.
    + intros He Ho. rewrite sendToolResponse_envelope by done.
      fold error id output. rewrite He. unfold mbind, M_bind.
      rewrite (safelySendJSON_connected _ _ s) by done.
      unfold act, console. by rewrite perform_perform. }
  assert (Hoff : isConnected w = false -> truthy id = true ->
                 (truthy error = false -> output <> VUndefined) ->
                 sendToolResponse toolResponse w
                 = (Normal tt, console Warn "Cannot send: WebSocket not connected" w)).
  { intros Hc Hid Ho. rewrite sendToolResponse_envelope by done.
    unfold mbind, M_bind. by rewrite safelySendJSON_disconnected. }
  subst call. unfold async.
  split; [by destruct (sendToolResponse toolResponse w) as [[] ?]|].
  split; [|split; [|split]].
  - destruct Hcases as [(Hid & ->)|[(Hid & He & Ho & ->)|(Hid & Ho & Hn)]].
    + split; [tauto|]. intros _. by eexists.
    + split; [tauto|]. intros _. by eexists.
    + destruct (sendToolResponse toolResponse w) as [[u|e0] w1]; [|discriminate Hn].
      split; [by intros (e & [=])|].
      intros [H|[He Hu]]; [congruence|]. by apply Ho in He.
  - intros e. destruct Hcases as [(Hid & ->)|[(Hid & He & Ho & ->)|(Hid & Ho & Hn)]].
    + intros [= <-]. by rewrite Hid.
    + intros [= <-]. by rewrite Hid.
    + by destruct (sendToolResponse toolResponse w) as [[u|e0] w1];
        [intros [=]|discriminate Hn].
  - intros s Hs Hc Hid. destruct (Hsent s Hs Hc Hid) as (H1 & H2). split.
    + intros He. by rewrite (H1 He).
    + intros He Ho. by rewrite (H2 He Ho).
  - intros Hc Hid Ho. by rewrite (Hoff Hc Hid Ho).
Qed.

(** C7, as stated, fails: the two calls of the claim, with an id and
    nothing else and with an output and no id, do not throw; each
    returns, with nothing sent, a promise that is rejected. *)
Lemma sendToolResponse_rejects_its_promise :
  async (sendToolResponse (VObj [("id", VStr "x")])) demo_connected
  = (Normal (Rejects (Error "Tool response must include an output when no error is provided")),
     demo_connected)
  /\ async (sendToolResponse (VObj [("output", VStr "o")])) demo_connected
     = (Normal (Rejects (Error "Tool response must include an id")), demo_connected)
  /\ is_throw (fst (async (sendToolResponse (VObj [("id", VStr "x")])) demo_connected))
     = false.
Proof. repeat match goal with |- _ /\ _ => split end; vm_compute; reflexivity. Qed.

(** C9: with a non-empty payload [sendAudio] writes exactly one
    envelope, [{ realtimeInput: { mediaChunks: [{ mimeType: "audio/pcm",
    data }] } }] with the payload given, when connected; when
    not connected it writes nothing, the guarded send answers [false] and
    warns, and nothing is thrown; an empty or absent payload changes
    nothing at all.  The guarded send never throws, so audio, image and
    text sends never do, and the promise of a tool response is rejected
    only with one of its two argument errors. *)
Theorem guarded_sends base64audio w :
  let envelope :=
    VObj [("realtimeInput",
           VObj [("mediaChunks",
                  VArr [VObj [("mimeType", VStr "audio/pcm");
                              ("data", base64audio)]])])] in
  (truthy base64audio = true ->
   forall s, ws (this w) = Some s -> isConnected w = true ->
     sendAudio base64audio w
     = (Normal tt,
        perform [Send s envelope; Console Debug "Sending audio chunk"] w))
  /\ (truthy base64audio = true -> isConnected w = false ->
      safelySendJSON envelope w
      = (Normal false, console Warn "Cannot send: WebSocket not connected" w)
      /\ sendAudio base64audio w
         = (Normal tt, console Warn "Cannot send: WebSocket not connected" w))
  /\ (truthy base64audio = false -> sendAudio base64audio w = (Normal tt, w))
  /\ (forall data, exists ok es, safelySendJSON data w = (Normal ok, perform es w))
  /\ (forall v, exists es, sendImage v w = (Normal tt, perform es w))
  /\ (forall text endOfTurn, exists es, sendText text endOfTurn w = (Normal tt, perform es w))
  /\ (forall toolResponse e,
        fst (async (sendToolResponse toolResponse) w) = Normal (Rejects e) ->
        e = Error "Tool response must include an id"
        \/ e = Error "Tool response must include an output when no error is provided").
Proof.
  intros envelope. subst envelope. repeat split.
  - intros Ht s Hs Hc. unfold sendAudio. rewrite Ht.
    change (negb true) with false. cbv iota.
    unfold mbind, M_bind. rewrite (safelySendJSON_connected _ _ s) by done.
    unfold act, console. by rewrite perform_perform.
  - by apply safelySendJSON_disconnected.
  - unfold sendAudio. rewrite H. change (negb true) with false. cbv iota.
    unfold mbind, M_bind. by rewrite safelySendJSON_disconnected.
  - intros Ht. unfold sendAudio. by rewrite Ht.
  - intros. apply safelySendJSON_total.
  - intros. apply sendImage_total.
  - intros. apply sendText_total.
  - intros toolResponse e Hcall.
    assert (H : fst (sendToolResponse toolResponse w) = Throw e).
    { unfold async in Hcall.
      destruct (sendToolResponse toolResponse w) as [[u|e0] w1]; simpl in *; congruence. }
    clear Hcall.
    destruct (truthy (get_opt toolResponse "id")) eqn:Hid.
    + destruct (truthy (get_opt toolResponse "error")) eqn:He.
      * rewrite sendToolResponse_envelope in H by (done || congruence).
        match type of H with
        | fst ((safelySendJSON ?d ≫= _) ?w0) = _ =>
            destruct (guarded_send_total d "Tool response sent" w0) as (es & Hes)
        end. rewrite Hes in H. discriminate.
      * destruct (get_opt toolResponse "output") eqn:Ho.
        1: { rewrite sendToolResponse_no_output in H by done. injection H as <-. auto. }
        all: rewrite sendToolResponse_envelope in H by (done || congruence);
          match type of H with
          | fst ((safelySendJSON ?d ≫= _) ?w0) = _ =>
              destruct (guarded_send_total d "Tool response sent" w0) as (es & Hes)
          end; rewrite Hes in H; discriminate.
    + rewrite sendToolResponse_no_id in H by done. injection H as <-. auto.
Qed.

(** ** The listeners, in closed form *)

Lemma ws_onclose_spec s code reason w :
  ws_onclose s code reason w
  = let c := with_isConnecting false (this w) in
    let es := Console Warn "WebSocket connection closed."
                :: emission w "disconnected" (close_info code reason) in
    if negb (code =? 1000)
       && (reconnectAttempts (this w) <? maxReconnectAttempts (this w)) then
      let n := reconnectAttempts (this w) + 1 in
      let delay := reconnectDelay (this w) * 2 ^ (n - 1) in
      mkWorld (with_reconnectAttempts n c) (sockets w) (promises w)
              (timers w ++ [mkTimer delay false])
              (effects w ++ es ++ [Console Info "Attempting to reconnect";
                                   SetTimeout (length (timers w)) delay])
    else mkWorld c (sockets w) (promises w) (timers w) (effects w ++ es).
Proof.
  unfold ws_onclose, close_info, setTimeout. cbv zeta. rewrite !emit_perform.
  rewrite (emission_this w) by done. fields.
  destruct (negb (code =? 1000) && _).
  - apply world_eq; fields; try reflexivity.
    by rewrite <- !app_assoc.
  - apply world_eq; fields; try reflexivity.
    by rewrite <- !app_assoc.
Qed.

Lemma ws_onerror_spec s error w sock :
  error <> VNull -> error <> VUndefined ->
  sockets w !! s = Some sock ->
  ws_onerror s error w
  = reject (ws_promise sock) error
      (mkWorld (with_isConnecting false (this w)) (sockets w) (promises w) (timers w)
               (effects w ++ Console Err "Could not connect"
                          :: emission w "connection_error" (VObj [("error", error)]))).
Proof.
  intros Hn Hu Hs. unfold ws_onerror. cbv zeta.
  rewrite (get_get_opt _ _ Hn Hu). rewrite !emit_perform.
  rewrite (emission_this w) by done. fields. rewrite Hs. f_equal.
  apply world_eq; fields; try reflexivity. by rewrite <- !app_assoc.
Qed.

Lemma connect_guarded w :
  isConnected w || isConnecting (this w) = true ->
  connect w = (Normal (connectionPromise (this w)), w).
Proof.
  unfold connect. destruct (isConnected w); [done|]. simpl. by intros ->.
Qed.

Lemma connect_idle w :
  isConnected w || isConnecting (this w) = false ->
  connect w
  = (Normal (Some (length (promises w))),
     mkWorld (with_connectionPromise (Some (length (promises w)))
                (with_isConnecting true (this w)))
             (sockets w ++ [mkWebSocket (url (this w)) CONNECTING (length (promises w))])
             (promises w ++ [mkPromise Pending 0])
             (timers w)
             (effects w ++ [Console Info "Establishing WebSocket connection...";
                            NewWebSocket (length (sockets w)) (url (this w))])).
Proof.
  intros H. apply orb_false_iff in H as [Hc Hi]. unfold connect. rewrite Hc, Hi.
  cbv zeta. f_equal. apply world_eq; fields; try reflexivity.
  by rewrite <- !app_assoc.
Qed.

Lemma disconnect_none w : ws (this w) = None -> disconnect w = w.
Proof. unfold disconnect. by intros ->. Qed.

(** ** Preservation of the invariants by the building blocks *)

Lemma fields_ok_same w w' :
  maxReconnectAttempts (this w') = maxReconnectAttempts (this w) ->
  reconnectDelay (this w') = reconnectDelay (this w) ->
  reconnectAttempts (this w') = reconnectAttempts (this w) ->
  fields_ok w -> fields_ok w'.
Proof. unfold fields_ok. by intros -> -> ->. Qed.

Lemma channels_ok_this f w : channels_ok w -> channels_ok (set_this f w).
Proof. done. Qed.

Lemma channels_ok_timers l w : channels_ok w -> channels_ok (set_timers l w).
Proof. done. Qed.

Lemma channels_ok_perform es w :
  (forall s d, In (Send s d) es -> readyState <$> sockets w !! s = Some OPEN) ->
  channels_ok w -> channels_ok (perform es w).
Proof.
  intros Hes (Hlen & Hp & Hc & Hs). repeat split; try done.
  intros s d Hin. simpl in Hin. apply in_app_or in Hin as [Hin|Hin]; [exact (Hs _ _ Hin)|].
  apply Hes in Hin. simpl. destruct (sockets w !! s) as [sock|]; [|done].
  exists sock. split; [done|]. simpl in Hin. congruence.
Qed.

Lemma channels_ok_report es w :
  Forall not_send es -> channels_ok w -> channels_ok (perform es w).
Proof.
  intros Hes. apply channels_ok_perform. intros s d Hin.
  rewrite Forall_forall in Hes. apply list_elem_of_In in Hin.
  by apply Hes in Hin.
Qed.

Lemma is_report_not_send es : Forall is_report es -> Forall not_send es.
Proof. intros H. eapply Forall_impl; [exact H|]. by intros []. Qed.

Lemma emission_not_send w eventName data : Forall not_send (emission w eventName data).
Proof. apply is_report_not_send, emission_report. Qed.

Lemma reconnect_failed_not_send n : Forall not_send (reconnect_failed n).
Proof. unfold reconnect_failed. induction n; simpl; by constructor. Qed.

Lemma channels_ok_readyState s r w :
  r <> CONNECTING -> channels_ok w -> channels_ok (set_readyState s r w).
Proof.
  intros Hr Hok. unfold set_readyState.
  destruct (sockets w !! s) as [sock|] eqn:Hsock; [|done].
  assert (Hlt : (s < length (sockets w))%nat) by (by eapply lookup_lt_Some).
  destruct Hok as (Hlen & Hp & Hc & Hs). repeat split; simpl.
  - by rewrite length_insert.
  - intros s' sock' H. destruct (decide (s = s')) as [<-|Hne].
    + rewrite list_lookup_insert_eq in H by done. injection H as <-. simpl. eauto.
    + rewrite list_lookup_insert_ne in H by done. eauto.
  - intros s' sock' H Hst. destruct (decide (s = s')) as [<-|Hne].
    + rewrite list_lookup_insert_eq in H by done. injection H as <-. done.
    + rewrite list_lookup_insert_ne in H by done. eauto.
  - intros s' d Hin. destruct (Hs _ _ Hin) as (sock' & Hsk & Hst).
    destruct (decide (s = s')) as [<-|Hne].
    + rewrite list_lookup_insert_eq by done. eauto.
    + rewrite list_lookup_insert_ne by done. eauto.
Qed.

(** Settling promise [p] is harmless once socket [p] has left the
    connecting state. *)
Lemma channels_ok_promise p pr w :
  (forall sock, sockets w !! p = Some sock -> readyState sock = CONNECTING ->
                p_state pr = Pending) ->
  channels_ok w -> channels_ok (set_promises (<[p := pr]> (promises w)) w).
Proof.
  intros Hp' (Hlen & Hp & Hc & Hs). repeat split; simpl; try done.
  - by rewrite length_insert.
  - intros s sock H Hst. destruct (decide (p = s)) as [<-|Hne].
    + exists pr. split; [|by eapply Hp'].
      apply list_lookup_insert_eq. rewrite Hlen. by eapply lookup_lt_Some.
    + rewrite list_lookup_insert_ne by done. eauto.
Qed.

Lemma channels_ok_settle p st w :
  (forall sock, sockets w !! p = Some sock -> readyState sock <> CONNECTING) ->
  channels_ok w -> channels_ok (settle p st w).
Proof.
  intros Hp Hok. unfold settle. destruct (promises w !! p) as [pr|]; [|done].
  destruct (p_state pr); try done. apply channels_ok_promise; [|done].
  intros sock H Hst. by apply Hp in H.
Qed.

Lemma writes_open_reports {A} (m : M A) : reports_only m -> writes_open m.
Proof.
  intros H w. destruct (H w) as (es & E & F). exists es. split; [done|].
  intros s d Hin. rewrite Forall_forall in F. apply list_elem_of_In in Hin.
  by apply F in Hin.
Qed.

Lemma writes_open_bind {A B} (m : M A) (f : A -> M B) :
  writes_open m -> (forall a, writes_open (f a)) -> writes_open (m ≫= f).
Proof.
  intros Hm Hf w. destruct (Hm w) as (es1 & E1 & F1).
  unfold mbind, M_bind. destruct (m w) as [[a|e] w1]; simpl in *.
  - destruct (Hf a w1) as (es2 & E2 & F2). exists (es1 ++ es2).
    rewrite E2, E1, perform_perform. split; [done|].
    intros s d Hin. apply in_app_or in Hin as [Hin|Hin]; [by eapply F1|].
    apply F2 in Hin. by rewrite E1 in Hin.
  - by exists es1.
Qed.

Lemma writes_open_safelySendJSON data : writes_open (safelySendJSON data).
Proof.
  intros w. destruct (isConnected w) eqn:Hc.
  - destruct (isConnected_inv _ Hc) as (s & Hs & Ho).
    exists [Send s data]. rewrite (safelySendJSON_connected _ _ s) by done.
    split; [done|]. intros s' d [H|[]]. by injection H as <- <-.
  - exists [Console Warn "Cannot send: WebSocket not connected"].
    rewrite safelySendJSON_disconnected by done. split; [done|].
    intros s d [H|[]]. discriminate.
Qed.

Lemma writes_open_guarded data msg :
  writes_open (safelySendJSON data ≫= fun success : bool =>
                 if success then act (console Debug msg) else mret tt).
Proof.
  apply writes_open_bind; [apply writes_open_safelySendJSON|].
  intros []; apply writes_open_reports;
    [apply reports_only_console | apply reports_only_ret].
Qed.

Lemma writes_open_sendAudio v : writes_open (sendAudio v).
Proof.
  unfold sendAudio. destruct (negb (truthy v)).
  - apply writes_open_reports, reports_only_ret.
  - apply writes_open_guarded.
Qed.

Lemma writes_open_sendImage v : writes_open (sendImage v).
Proof.
  unfold sendImage. destruct (negb (truthy v)).
  - apply writes_open_reports, reports_only_ret.
  - apply writes_open_guarded.
Qed.

Lemma writes_open_sendText text endOfTurn : writes_open (sendText text endOfTurn).
Proof. apply writes_open_guarded. Qed.

Lemma writes_open_sendToolResponse toolResponse :
  writes_open (sendToolResponse toolResponse).
Proof.
  unfold sendToolResponse.
  apply writes_open_bind; [apply writes_open_reports, reports_only_lift|].
  intros []; [apply writes_open_reports, reports_only_throw|].
  apply writes_open_bind; [apply writes_open_reports, reports_only_lift|]. intros output.
  apply writes_open_bind; [apply writes_open_reports, reports_only_lift|]. intros id.
  apply writes_open_bind; [apply writes_open_reports, reports_only_lift|]. intros error.
  apply writes_open_bind; [|intros; apply writes_open_guarded].
  apply writes_open_reports.
  destruct (truthy error); [apply reports_only_ret|].
  destruct (is_undefined output); [apply reports_only_throw | apply reports_only_ret].
Qed.

Lemma writes_open_fields {A} (m : M A) w :
  writes_open m -> fields_ok w -> fields_ok (snd (m w)).
Proof. intros H Hok. destruct (H w) as (es & -> & _). done. Qed.

Lemma writes_open_channels {A} (m : M A) w :
  writes_open m -> channels_ok w -> channels_ok (snd (m w)).
Proof.
  intros H Hok. destruct (H w) as (es & -> & Hs). by apply channels_ok_perform.
Qed.

(** ** What the listeners and methods do to the fields of [this] *)

Lemma this_set_readyState s r w : this (set_readyState s r w) = this w.
Proof. unfold set_readyState. by destruct (sockets w !! s). Qed.

Lemma this_settle p st w : this (settle p st w) = this w.
Proof.
  unfold settle. destruct (promises w !! p) as [pr|]; [|done]. by destruct (p_state pr).
Qed.

Lemma this_resolve p w : this (resolve p w) = this w.
Proof. unfold resolve. by rewrite this_settle. Qed.

Lemma this_reject p reason w : this (reject p reason w) = this w.
Proof.
  unfold reject. cbv zeta. destruct (promises _ !! p) as [pr|]; [|done].
  destruct (p_state pr); try done. simpl. by rewrite this_settle.
Qed.

Lemma this_ws_close s code reason w : this (ws_close s code reason w) = this w.
Proof.
  unfold ws_close. cbv zeta.
  destruct (readyState <$> sockets _ !! s) as [[]|]; try done;
    by rewrite this_set_readyState.
Qed.

Lemma this_emit eventName data w : this (emit eventName data w) = this w.
Proof. by rewrite emit_perform. Qed.

Lemma sendJSON_performs json w : exists es, snd (sendJSON json w) = perform es w.
Proof.
  unfold sendJSON, try_catch. destruct (negb (isConnected w)).
  - exists []. by rewrite perform_nil.
  - unfold this_ws_send, ws_send. destruct (ws (this w)) as [s|].
    + destruct (readyState <$> sockets w !! s) as [[]|]; simpl;
        try (exists []; by rewrite perform_nil).
      by exists [Send s json].
    + exists []. by rewrite perform_nil.
Qed.

Lemma this_ws_onopen s w :
  this (ws_onopen s w)
  = with_reconnectAttempts 0 (with_isConnecting false (with_ws (Some s) (this w))).
Proof.
  unfold ws_onopen. cbv zeta.
  match goal with
  | |- context [sendJSON ?j ?w0] => destruct (sendJSON_performs j w0) as (es & ->)
  end.
  rewrite emit_perform.
  destruct (sockets _ !! s); by rewrite ?this_resolve.
Qed.

Lemma this_ws_onerror s error w :
  this (ws_onerror s error w) = with_isConnecting false (this w).
Proof.
  unfold ws_onerror. cbv zeta. destruct (get error "reason"); [|done].
  rewrite emit_perform. destruct (sockets _ !! s); by rewrite ?this_reject.
Qed.

Lemma this_ws_onclose s code reason w :
  this (ws_onclose s code reason w)
  = if negb (code =? 1000)
       && (reconnectAttempts (this w) <? maxReconnectAttempts (this w))
    then with_reconnectAttempts (reconnectAttempts (this w) + 1)
                                (with_isConnecting false (this w))
    else with_isConnecting false (this w).
Proof. rewrite ws_onclose_spec. cbv zeta. by destruct (negb _ && _). Qed.

Lemma this_connect w :
  this (snd (connect w))
  = if isConnected w || isConnecting (this w) then this w
    else with_connectionPromise (Some (length (promises w)))
                                (with_isConnecting true (this w)).
Proof.
  destruct (isConnected w || isConnecting (this w)) eqn:H.
  - by rewrite connect_guarded.
  - by rewrite connect_idle.
Qed.

Lemma this_disconnect w :
  this (disconnect w)
  = match ws (this w) with
    | Some _ =>
        with_connectionPromise None
          (with_isConnecting false
             (with_ws None
                (with_reconnectAttempts (maxReconnectAttempts (this w)) (this w))))
    | None => this w
    end.
Proof.
  unfold disconnect. destruct (ws (this w)) as [s|]; [|done]. cbv zeta.
  unfold console, perform, set_this at 1 2 3. simpl.
  by rewrite this_ws_close.
Qed.

Lemma this_reconnect_callback w : this (reconnect_callback w) = this (snd (connect w)).
Proof.
  unfold reconnect_callback. destruct (connect w) as [[[p|]|] w']; try done.
  simpl. destruct (promises w' !! p) as [pr|]; [|done]. by destruct (p_state pr).
Qed.

Lemma this_on eventName callback w :
  exists m, this (on eventName callback w) = with_eventListeners m (this w).
Proof. unfold on. cbv zeta. eexists. reflexivity. Qed.

(** ** The listeners and methods keep sockets and promises in step *)

Lemma channels_ok_emit eventName data w :
  channels_ok w -> channels_ok (emit eventName data w).
Proof. rewrite emit_perform. apply channels_ok_report, emission_not_send. Qed.

Lemma channels_ok_console l msg w : channels_ok w -> channels_ok (console l msg w).
Proof. apply channels_ok_report. by repeat constructor. Qed.

Lemma sockets_emit eventName data w : sockets (emit eventName data w) = sockets w.
Proof. by rewrite emit_perform. Qed.

Lemma writes_open_sendJSON json : writes_open (sendJSON json).
Proof.
  intros w. unfold sendJSON, try_catch. destruct (negb (isConnected w)).
  { exists []. split; [by rewrite perform_nil | by intros ? ? []]. }
  unfold this_ws_send, ws_send. destruct (ws (this w)) as [s|].
  - destruct (readyState <$> sockets w !! s) as [[]|] eqn:Hr; simpl;
      try (exists []; split; [by rewrite perform_nil | by intros ? ? []]).
    exists [Send s json]. split; [done|].
    intros s' d [H|[]]. by injection H as <- <-.
  - exists []. split; [by rewrite perform_nil | by intros ? ? []].
Qed.

Lemma writes_open_sockets {A} (m : M A) w :
  writes_open m -> sockets (snd (m w)) = sockets w.
Proof. intros H. by destruct (H w) as (es & -> & _). Qed.

Lemma channels_ok_resolve p w :
  (forall sock, sockets w !! p = Some sock -> readyState sock <> CONNECTING) ->
  channels_ok w -> channels_ok (resolve p w).
Proof.
  intros Hp Hok. unfold resolve. apply channels_ok_settle; [done|].
  apply channels_ok_report; [by repeat constructor | done].
Qed.

Lemma channels_ok_reject p reason w :
  (forall sock, sockets w !! p = Some sock -> readyState sock <> CONNECTING) ->
  channels_ok w -> channels_ok (reject p reason w).
Proof.
  intros Hp Hok. unfold reject. cbv zeta.
  assert (Hok' : channels_ok (perform [Reject p reason] w)).
  { apply channels_ok_report; [by repeat constructor | done]. }
  destruct (promises _ !! p) as [pr|]; [|done].
  destruct (p_state pr); try done.
  apply channels_ok_report; [apply reconnect_failed_not_send|].
  by apply channels_ok_settle.
Qed.

Lemma ws_onopen_channels_ok s w :
  (forall sock, sockets w !! s = Some sock -> readyState sock <> CONNECTING) ->
  channels_ok w -> channels_ok (ws_onopen s w).
Proof.
  intros Hs Hok. unfold ws_onopen. cbv zeta.
  match goal with
  | |- context [sendJSON ?j ?w0] =>
      assert (Hsend : channels_ok (snd (sendJSON j w0)))
        by (apply writes_open_channels;
            [apply writes_open_sendJSON
            | by repeat first [apply channels_ok_this | apply channels_ok_console]]);
      assert (Hsock : sockets (snd (sendJSON j w0)) = sockets w)
        by (by rewrite (writes_open_sockets _ _ (writes_open_sendJSON j)));
      generalize dependent (snd (sendJSON j w0))
  end.
  intros w1 Hok1 Hsock.
  assert (Hok2 : channels_ok (emit "connected" (VObj [])
                   (console Debug "Setup message with the following configuration was sent:" w1))).
  { by apply channels_ok_emit, channels_ok_console. }
  rewrite sockets_emit. cbn [console perform sockets]. rewrite Hsock.
  destruct (sockets w !! s) as [sock|] eqn:Hsk; [|done].
  apply channels_ok_resolve; [|done].
  rewrite sockets_emit. cbn [console perform sockets]. rewrite Hsock.
  destruct Hok as (_ & Hp & _). rewrite (Hp _ _ Hsk), Hsk. exact Hs.
Qed.

Lemma ws_onerror_channels_ok s error w :
  (forall sock, sockets w !! s = Some sock -> readyState sock <> CONNECTING) ->
  channels_ok w -> channels_ok (ws_onerror s error w).
Proof.
  intros Hs Hok. unfold ws_onerror. cbv zeta.
  destruct (get error "reason"); [|by apply channels_ok_this].
  assert (Hok1 : channels_ok (emit "connection_error" (VObj [("error", error)])
                   (console Err "Could not connect"
                            (set_this (with_isConnecting false) w)))).
  { by apply channels_ok_emit, channels_ok_console, channels_ok_this. }
  rewrite sockets_emit. cbn [console perform set_this sockets].
  destruct (sockets w !! s) as [sock|] eqn:Hsk; [|done].
  apply channels_ok_reject; [|done].
  rewrite sockets_emit. cbn [console perform set_this sockets].
  destruct Hok as (_ & Hp & _). rewrite (Hp _ _ Hsk), Hsk. exact Hs.
Qed.

Lemma ws_onclose_channels_ok s code reason w :
  channels_ok w -> channels_ok (ws_onclose s code reason w).
Proof.
  intros Hok. unfold ws_onclose. cbv zeta.
  assert (Hok1 : channels_ok (emit "disconnected"
                   (VObj [("code", VNum (inject_Z code)); ("reason", VStr reason)])
                   (console Warn "WebSocket connection closed."
                            (set_this (with_isConnecting false) w)))).
  { by apply channels_ok_emit, channels_ok_console, channels_ok_this. }
  destruct (negb _ && _); [|done].
  unfold setTimeout. apply channels_ok_report; [by repeat constructor|].
  by apply channels_ok_timers, channels_ok_console, channels_ok_this.
Qed.

Lemma connect_channels_ok w : channels_ok w -> channels_ok (snd (connect w)).
Proof.
  intros Hok. destruct (isConnected w || isConnecting (this w)) eqn:H.
  { by rewrite connect_guarded. }
  rewrite connect_idle by done. destruct Hok as (Hlen & Hp & Hc & Hs).
  repeat split; simpl.
  - rewrite !length_app. simpl. lia.
  - intros s sock H'. apply lookup_app_Some in H' as [H'|[Hge H']]; [eauto|].
    destruct (s - length (sockets w))%nat eqn:E; [|done].
    injection H' as <-. simpl. lia.
  - intros s sock H' Hst. apply lookup_app_Some in H' as [H'|[Hge H']].
    + destruct (Hc _ _ H' Hst) as (pr & Hpr & Hst'). exists pr. split; [|done].
      by apply lookup_app_l_Some.
    + destruct (s - length (sockets w))%nat eqn:E; [|done].
      exists (mkPromise Pending 0). split; [|done].
      assert (s = length (promises w)) as -> by lia.
      by rewrite list_lookup_middle.
  - intros s d Hin. apply in_app_or in Hin as [Hin|Hin].
    + destruct (Hs _ _ Hin) as (sock & Hsk & Hst). exists sock. split; [|done].
      by apply lookup_app_l_Some.
    + simpl in Hin. destruct Hin as [H'|[H'|[]]]; discriminate.
Qed.

Lemma disconnect_channels_ok w : channels_ok w -> channels_ok (disconnect w).
Proof.
  intros Hok. unfold disconnect. destruct (ws (this w)) as [s|]; [|done]. cbv zeta.
  apply channels_ok_console. do 3 apply channels_ok_this.
  unfold ws_close. cbv zeta.
  assert (Hok1 : channels_ok
                   (perform [Close s 1000 "User initiated disconnect"]
                      (set_this (with_reconnectAttempts (maxReconnectAttempts (this w))) w))).
  { apply channels_ok_report; [by repeat constructor|]. by apply channels_ok_this. }
  destruct (readyState <$> sockets _ !! s) as [[]|]; try done;
    by apply channels_ok_readyState.
Qed.

Lemma reconnect_callback_channels_ok w :
  channels_ok w -> channels_ok (reconnect_callback w).
Proof.
  intros Hok. apply connect_channels_ok in Hok. unfold reconnect_callback.
  destruct (connect w) as [[[p|]|] w']; try done. simpl in Hok.
  destruct (promises w' !! p) as [pr|]; [|done].
  destruct (p_state pr); try done.
  - by apply channels_ok_promise.
  - apply channels_ok_report; [apply reconnect_failed_not_send | done].
Qed.

Lemma on_channels_ok eventName callback w :
  channels_ok w -> channels_ok (on eventName callback w).
Proof. done. Qed.

Lemma set_readyState_lookup s r w sock :
  sockets (set_readyState s r w) !! s = Some sock -> readyState sock = r.
Proof.
  unfold set_readyState. destruct (sockets w !! s) as [sock0|] eqn:Hs.
  - simpl. rewrite list_lookup_insert_eq by (by eapply lookup_lt_Some).
    by intros [= <-].
  - by rewrite Hs.
Qed.

Lemma settle_frame p st w :
  sockets (settle p st w) = sockets w /\ timers (settle p st w) = timers w
  /\ effects (settle p st w) = effects w.
Proof.
  unfold settle. destruct (promises w !! p) as [pr|]; [|done]. by destruct (p_state pr).
Qed.

Lemma reject_frame p reason w :
  sockets (reject p reason w) = sockets w /\ timers (reject p reason w) = timers w.
Proof.
  unfold reject. cbv zeta. destruct (promises _ !! p) as [pr|]; [|done].
  destruct (p_state pr); try done. fields.
  destruct (settle_frame p (Rejected reason) (perform [Reject p reason] w)) as (-> & -> & _).
  done.
Qed.

Lemma ws_onerror_frame s error w :
  sockets (ws_onerror s error w) = sockets w /\ timers (ws_onerror s error w) = timers w.
Proof.
  unfold ws_onerror. cbv zeta. destruct (get error "reason"); [|done].
  rewrite !emit_perform. fields.
  destruct (sockets w !! s) as [sock|]; [|done].
  match goal with
  | |- context [reject ?p ?r ?w0] => destruct (reject_frame p r w0) as (-> & ->)
  end. done.
Qed.

Lemma connect_frame w :
  timers (snd (connect w)) = timers w
  /\ ws (this (snd (connect w))) = ws (this w)
  /\ reconnectAttempts (this (snd (connect w))) = reconnectAttempts (this w)
  /\ logs_no_send w (snd (connect w)).
Proof.
  destruct (isConnected w || isConnecting (this w)) eqn:H.
  - rewrite connect_guarded by done. repeat split. exists [].
    by rewrite app_nil_r.
  - rewrite connect_idle by done. repeat split. eexists. split; [reflexivity|].
    by repeat constructor.
Qed.

Lemma reconnect_callback_frame w :
  timers (reconnect_callback w) = timers w
  /\ logs_no_send w (reconnect_callback w).
Proof.
  destruct (connect_frame w) as (Ht & _ & _ & es & He & Hes).
  unfold reconnect_callback. destruct (connect w) as [[[p|]|e] w']; simpl in *.
  - destruct (promises w' !! p) as [pr|]; [|by split; [|exists es]].
    destruct (p_state pr).
    + split; [done|]. by exists es.
    + split; [done|]. by exists es.
    + split; [done|]. exists (es ++ reconnect_failed 1).
      rewrite effects_perform, He, app_assoc. split; [done|].
      apply Forall_app. split; [done|]. apply reconnect_failed_not_send.
  - split; [done|]. by exists es.
  - split; [done|]. by exists es.
Qed.

Lemma reconnect_callback_idle w :
  guarded w = false ->
  reconnect_callback w
  = mkWorld (with_connectionPromise (Some (length (promises w)))
               (with_isConnecting true (this w)))
            (sockets w ++ [mkWebSocket (url (this w)) CONNECTING (length (promises w))])
            (promises w ++ [mkPromise Pending 1])
            (timers w)
            (effects w ++ [Console Info "Establishing WebSocket connection...";
                           NewWebSocket (length (sockets w)) (url (this w))]).
Proof.
  intros Hidle. unfold reconnect_callback. rewrite (connect_idle _ Hidle).
  cbn [promises]. rewrite list_lookup_middle by done. cbn [p_state p_catch].
  unfold set_promises. cbn [this sockets promises timers effects].
  f_equal. rewrite insert_app_r_alt by done. by rewrite Nat.sub_diag.
Qed.

Lemma connect_set_timers l w :
  connect (set_timers l w) = (fst (connect w), set_timers l (snd (connect w))).
Proof.
  destruct (isConnected w || isConnecting (this w)) eqn:H.
  - rewrite (connect_guarded w H). by rewrite connect_guarded.
  - rewrite (connect_idle w H). by rewrite connect_idle.
Qed.

Lemma reconnect_callback_sockets w :
  sockets (reconnect_callback w) = sockets (snd (connect w)).
Proof.
  unfold reconnect_callback. destruct (connect w) as [[[p|]|e] w']; try done.
  simpl. destruct (promises w' !! p) as [pr|]; [|done]. by destruct (p_state pr).
Qed.

(** ** Invariants of the event loop *)

Ltac unfold_step := unfold step.

Section MachineProperties.

Variable Blob : Type.
Variable blobToJSON : Blob -> Completion value.
Variable base64ToArrayBuffer : value -> Completion (list Byte.byte).

Local Abbreviation step := (step Blob blobToJSON base64ToArrayBuffer).
Local Abbreviation run := (run Blob blobToJSON base64ToArrayBuffer).
Local Abbreviation reachable := (reachable Blob blobToJSON base64ToArrayBuffer).

Lemma ws_onmessage_reports data w :
  exists es,
    ws_onmessage Blob blobToJSON base64ToArrayBuffer data w = perform es w
    /\ Forall is_report es.
Proof.
  destruct data as [blob|v]; simpl.
  - apply receive_reports.
  - exists [Console Err "Non-blob message received"]. split; [done|].
    by repeat constructor.
Qed.

Lemma fields_ok_this w w' : this w' = this w -> fields_ok w -> fields_ok w'.
Proof. unfold fields_ok. by intros ->. Qed.

Lemma ws_onclose_fields_ok s code reason w :
  fields_ok w -> fields_ok (ws_onclose s code reason w).
Proof.
  intros (Hm & Hd & Hb). unfold fields_ok. rewrite this_ws_onclose.
  destruct (negb (code =? 1000)); simpl; [|done].
  destruct (reconnectAttempts (this w) <? maxReconnectAttempts (this w)) eqn:Hlt;
    simpl; [|done].
  apply Z.ltb_lt in Hlt. repeat split; try done; lia.
Qed.

Lemma step_fields_ok i w : fields_ok w -> fields_ok (step i w).
Proof.
  intros Hok. destruct i; unfold_step.
  - destruct (this_on eventName callback w) as (m & Hm).
    unfold fields_ok. by rewrite Hm.
  - unfold fields_ok. rewrite this_connect. by destruct (_ || _).
  - unfold fields_ok. rewrite this_disconnect.
    destruct (ws (this w)); [|done]. destruct Hok as (Hm & Hd & Hb).
    simpl. rewrite Hm. repeat split; try done; lia.
  - by apply writes_open_fields; [apply writes_open_sendAudio|].
  - by apply writes_open_fields; [apply writes_open_sendImage|].
  - by apply writes_open_fields; [apply writes_open_sendText|].
  - by apply writes_open_fields; [apply writes_open_sendToolResponse|].
  - destruct (readyState <$> sockets w !! s) as [[]|]; try done.
    unfold fields_ok. rewrite this_ws_onopen, this_set_readyState.
    destruct Hok as (Hm & Hd & Hb). simpl. repeat split; try done; lia.
  - destruct (readyState <$> sockets w !! s) as [[]|]; try done;
      apply ws_onclose_fields_ok;
      (apply (fields_ok_same w); [..|exact Hok]);
      by rewrite this_ws_onerror, this_set_readyState.
  - destruct (readyState <$> sockets w !! s) as [[]|]; try done;
      apply ws_onclose_fields_ok;
      (eapply fields_ok_this; [|exact Hok]);
      by rewrite this_set_readyState.
  - destruct (readyState <$> sockets w !! s) as [[]|]; try done;
      destruct (ws_onmessage_reports data w) as (es & -> & _); done.
  - destruct (timers w !! t) as [tm|]; [|done]. destruct (t_fired tm); [done|].
    unfold fields_ok. rewrite this_reconnect_callback, this_connect.
    by destruct (_ || _).
Qed.

Lemma reachable_fields w : reachable w -> fields_ok w.
Proof.
  induction 1 as [apiKey name0 url0 config0 c Hc|i w _ IH].
  - unfold new_GeminiWebsocketClient in Hc.
    destruct (if String.eqb url0 "" then _ else _); [|done].
    injection Hc as <-. unfold fields_ok. simpl. lia.
  - by apply step_fields_ok.
Qed.

Lemma run_reachable inputs w : reachable w -> reachable (run inputs w).
Proof.
  revert w. induction inputs as [|i inputs IH]; intros w Hw; [done|].
  simpl. apply IH. by constructor.
Qed.

Lemma step_close_live w s sock code reason :
  sockets w !! s = Some sock -> readyState sock <> CLOSED ->
  step (SocketClose s code reason) w
  = ws_onclose s code reason (set_readyState s CLOSED w).
Proof.
  intros Hs Hr. unfold_step. rewrite Hs. simpl. by destruct (readyState sock).
Qed.

Lemma step_fail_live w s sock error code reason :
  sockets w !! s = Some sock -> readyState sock <> CLOSED ->
  step (SocketFail s error code reason) w
  = ws_onclose s code reason (ws_onerror s error (set_readyState s CLOSED w)).
Proof.
  intros Hs Hr. unfold_step. rewrite Hs. simpl. by destruct (readyState sock).
Qed.

Lemma set_readyState_spec w s sock r :
  sockets w !! s = Some sock ->
  set_readyState s r w
  = set_sockets (<[s := mkWebSocket (ws_url sock) r (ws_promise sock)]> (sockets w)) w.
Proof. intros Hs. unfold set_readyState. by rewrite Hs. Qed.

(** The expiry of a timer is a call of [connect()] whose rejection is
    caught. *)
Lemma timer_expiry w t tm :
  timers w !! t = Some tm -> t_fired tm = false ->
  let fired := step (TimerFires t) w in
  timers fired = <[t := mkTimer (t_delay tm) true]> (timers w)
  /\ sockets fired = sockets (snd (connect w))
  /\ this fired = this (snd (connect w))
  /\ (guarded w = false ->
      sockets fired
      = sockets w ++ [mkWebSocket (url (this w)) CONNECTING (length (promises w))]
      /\ promises fired = promises w ++ [mkPromise Pending 1]
      /\ effects fired
         = effects w ++ [Console Info "Establishing WebSocket connection...";
                         NewWebSocket (length (sockets w)) (url (this w))]).
Proof.
  intros Ht Hf fired. subst fired. unfold_step. rewrite Ht, Hf.
  set (w0 := set_timers _ w).
  destruct (reconnect_callback_frame w0) as (Htm & _).
  split; [by rewrite Htm|].
  split; [by rewrite reconnect_callback_sockets; subst w0; rewrite connect_set_timers|].
  split; [by rewrite this_reconnect_callback; subst w0; rewrite connect_set_timers|].
  intros Hidle. by rewrite (reconnect_callback_idle w0) by exact Hidle.
Qed.

(** C1: when socket [s] of a reachable client closes with a code other
    than 1000, whether after a failure ([error] fired first) or not, the
    close listener publishes [disconnected] with the code and the reason
    first; while the counter [n] is below 3 it then raises the counter
    to [n + 1] and schedules a reconnect timer with delay
    [2000 * 2 ^ (n + 1 - 1)] (2000, 4000, 8000 ms for [n] = 0, 1, 2), and
    opens no channel itself; when the counter is 3 it schedules nothing.
    The reconnect is what the timer defers: when the timer expires its
    callback calls [connect()]; if the client is not connected by then
    (as when the channel that closed was the current one and nothing
    else happened) that call opens a new channel on the client's URL,
    with a new promise whose rejection the callback catches; if it is
    connected, the call opens nothing. *)
Theorem abnormal_close_backoff w s sock code reason (failure : option value) :
  reachable w ->
  sockets w !! s = Some sock -> readyState sock <> CLOSED ->
  code <> 1000 ->
  let n := reconnectAttempts (this w) in
  let delay := 2000 * 2 ^ (n + 1 - 1) in
  let closing :=
    match failure with
    | None => set_readyState s CLOSED w
    | Some error => ws_onerror s error (set_readyState s CLOSED w)
    end in
  let w' :=
    step (match failure with
          | None => SocketClose s code reason
          | Some error => SocketFail s error code reason
          end) w in
  let published :=
    Console Warn "WebSocket connection closed."
      :: emission w "disconnected" (close_info code reason) in
  w' = ws_onclose s code reason closing
  /\ length (sockets w') = length (sockets w)
  /\ (n < 3 ->
      reconnectAttempts (this w') = n + 1
      /\ timers w' = timers w ++ [mkTimer delay false]
      /\ effects w'
         = effects closing ++ published
           ++ [Console Info "Attempting to reconnect";
               SetTimeout (length (timers w)) delay]
      /\ delay = match n with 0 => 2000 | 1 => 4000 | _ => 8000 end
      /\ (let fired := step (TimerFires (length (timers w))) w' in
          timers fired = timers w ++ [mkTimer delay true]
          /\ sockets fired = sockets (snd (connect w'))
          /\ this fired = this (snd (connect w'))
          /\ isConnecting (this w') = false
          /\ (ws (this w) = Some s -> isConnected w' = false)
          /\ (isConnected w' = false ->
              sockets fired
              = sockets w'
                ++ [mkWebSocket (url (this w)) CONNECTING (length (promises w'))]
              /\ promises fired = promises w' ++ [mkPromise Pending 1]
              /\ effects fired
                 = effects w'
                   ++ [Console Info "Establishing WebSocket connection...";
                       NewWebSocket (length (sockets w)) (url (this w))]
              /\ isConnecting (this fired) = true
              /\ connectionPromise (this fired) = Some (length (promises w')))
          /\ (isConnected w' = true -> sockets fired = sockets w')))
  /\ (n = 3 ->
      reconnectAttempts (this w') = 3
      /\ timers w' = timers w
      /\ effects w' = effects closing ++ published).
Proof.
  intros Hreach Hs Hr Hcode n delay closing w' published.
  destruct (reachable_fields _ Hreach) as (Hm & Hd & Hb). fold n in Hb.
  assert (Hw' : w' = ws_onclose s code reason closing).
  { subst w' closing. destruct failure as [error|].
    - by apply (step_fail_live _ _ sock).
    - by apply (step_close_live _ _ sock). }
  assert (Hthis : reconnectAttempts (this closing) = n
                  /\ maxReconnectAttempts (this closing) = 3
                  /\ reconnectDelay (this closing) = 2000
                  /\ _eventListeners (this closing) = _eventListeners (this w)).
  { subst closing. destruct failure as [error|];
      rewrite ?this_ws_onerror, this_set_readyState; done. }
  assert (Hrest : timers closing = timers w
                  /\ length (sockets closing) = length (sockets w)).
  { subst closing. destruct failure as [error|].
    - destruct (ws_onerror_frame s error (set_readyState s CLOSED w)) as (-> & ->).
      rewrite (set_readyState_spec _ _ sock) by done. fields.
      by rewrite length_insert.
    - rewrite (set_readyState_spec _ _ sock) by done. fields.
      by rewrite length_insert. }
  assert (Hcur : ws (this closing) = ws (this w)
                 /\ url (this closing) = url (this w)
                 /\ sockets closing
                    = <[s := mkWebSocket (ws_url sock) CLOSED (ws_promise sock)]> (sockets w)).
  { subst closing. destruct failure as [error|].
    - destruct (ws_onerror_frame s error (set_readyState s CLOSED w)) as (-> & _).
      rewrite this_ws_onerror, this_set_readyState.
      by rewrite (set_readyState_spec _ _ sock).
    - rewrite this_set_readyState. by rewrite (set_readyState_spec _ _ sock). }
  destruct Hthis as (Hn' & Hm' & Hd' & Hl'). destruct Hrest as (Ht' & Hk').
  destruct Hcur as (Hws' & Hurl' & Hsk').
  assert (Hlistener :
    length (sockets w') = length (sockets w)
    /\ (n < 3 ->
        reconnectAttempts (this w') = n + 1
        /\ timers w' = timers w ++ [mkTimer delay false]
        /\ effects w'
           = effects closing ++ published
             ++ [Console Info "Attempting to reconnect";
                 SetTimeout (length (timers w)) delay]
        /\ delay = match n with 0 => 2000 | 1 => 4000 | _ => 8000 end)
    /\ (n = 3 ->
        reconnectAttempts (this w') = 3
        /\ timers w' = timers w
        /\ effects w' = effects closing ++ published)).
  { rewrite Hw', ws_onclose_spec. cbv zeta.
    rewrite Hn', Hm', Hd', Ht', (emission_this w) by done.
    assert (Hne : negb (code =? 1000) = true).
    { apply negb_true_iff, Z.eqb_neq. done. }
    rewrite Hne. cbn [andb].
    split; [|split].
    - by destruct (n <? 3).
    - intros Hlt. assert (Hltb : (n <? 3) = true) by (by apply Z.ltb_lt).
      rewrite Hltb. cbn [this sockets promises timers effects with_reconnectAttempts
                         reconnectAttempts].
      repeat split; try done.
      assert (Hn : n = 0 \/ n = 1 \/ n = 2) by lia.
      subst delay. by destruct Hn as [->|[->| ->]].
    - intros Hn. rewrite Hn. cbn [Z.ltb Z.compare Pos.compare Pos.compare_cont].
      repeat split; try done. cbn [this with_isConnecting reconnectAttempts].
      by rewrite Hn'. }
  destruct Hlistener as (Hlen & Hbelow & Hfull).
  split; [done|]. split; [done|]. split; [|done].
  intros Hlt. destruct (Hbelow Hlt) as (H1 & H2 & H3 & H4).
  split; [done|]. split; [done|]. split; [done|]. split; [done|].
  assert (Hfields : ws (this w') = ws (this w) /\ url (this w') = url (this w)
                    /\ isConnecting (this w') = false).
  { rewrite Hw', this_ws_onclose. by destruct (negb _ && _). }
  destruct Hfields as (Hws & Hurl & Hic).
  assert (Hsk : sockets w' = sockets closing).
  { rewrite Hw', ws_onclose_spec. cbv zeta. by destruct (negb _ && _). }
  destruct (timer_expiry w' (length (timers w)) (mkTimer delay false))
    as (T1 & T2 & T3 & T4).
  { rewrite H2. by apply list_lookup_middle. }
  { reflexivity. }
  cbv zeta. split.
  { rewrite T1, H2. cbn [t_delay]. rewrite insert_app_r_alt by done.
    by rewrite Nat.sub_diag. }
  split; [done|]. split; [done|]. split; [done|]. split.
  { intros Hcurrent. unfold isConnected. rewrite Hws, Hcurrent, Hsk, Hsk'.
    by rewrite list_lookup_insert_eq by (by eapply lookup_lt_Some). }
  split.
  - intros Hoff.
    assert (Hidle : guarded w' = false) by (unfold guarded; by rewrite Hoff, Hic).
    destruct (T4 Hidle) as (-> & -> & ->). rewrite Hurl, Hlen.
    split; [done|]. split; [done|]. split; [done|].
    rewrite T3, this_connect. fold (guarded w'). by rewrite Hidle.
  - intros Hon. rewrite T2. rewrite connect_guarded; [done|]. by rewrite Hon.
Qed.

Lemma set_readyState_not_connecting s r w :
  r <> CONNECTING ->
  forall sock, sockets (set_readyState s r w) !! s = Some sock ->
               readyState sock <> CONNECTING.
Proof. intros Hr sock H. by rewrite (set_readyState_lookup _ _ _ _ H). Qed.

Lemma step_channels_ok i w : channels_ok w -> channels_ok (step i w).
Proof.
  intros Hok. destruct i; unfold_step.
  - by apply on_channels_ok.
  - by apply connect_channels_ok.
  - by apply disconnect_channels_ok.
  - by apply writes_open_channels; [apply writes_open_sendAudio|].
  - by apply writes_open_channels; [apply writes_open_sendImage|].
  - by apply writes_open_channels; [apply writes_open_sendText|].
  - by apply writes_open_channels; [apply writes_open_sendToolResponse|].
  - destruct (readyState <$> sockets w !! s) as [[]|]; try done.
    apply ws_onopen_channels_ok; [by apply set_readyState_not_connecting|].
    by apply channels_ok_readyState.
  - destruct (readyState <$> sockets w !! s) as [[]|]; try done;
      apply ws_onclose_channels_ok, ws_onerror_channels_ok;
      try (by apply set_readyState_not_connecting);
      by apply channels_ok_readyState.
  - destruct (readyState <$> sockets w !! s) as [[]|]; try done;
      apply ws_onclose_channels_ok; by apply channels_ok_readyState.
  - destruct (readyState <$> sockets w !! s) as [[]|]; try done;
      destruct (ws_onmessage_reports data w) as (es & -> & Hes);
      by apply channels_ok_report; [apply is_report_not_send|].
  - destruct (timers w !! t) as [tm|]; [|done]. destruct (t_fired tm); [done|].
    by apply reconnect_callback_channels_ok, channels_ok_timers.
Qed.

Lemma reachable_channels w : reachable w -> channels_ok w.
Proof.
  induction 1 as [apiKey name0 url0 config0 c Hc|i w _ IH].
  - repeat split; simpl; try done.
  - by apply step_channels_ok.
Qed.

Lemma sendJSON_connected json w s :
  ws (this w) = Some s -> isConnected w = true ->
  sendJSON json w = (Normal tt, perform [Send s json] w).
Proof.
  intros Hs Hc. unfold sendJSON, try_catch. rewrite Hc. simpl.
  destruct (isConnected_inv _ Hc) as (s' & Hs' & Ho).
  rewrite Hs in Hs'. injection Hs' as <-.
  unfold this_ws_send, ws_send. by rewrite Hs, Ho.
Qed.

Lemma settle_pending p st w pr :
  promises w !! p = Some pr -> p_state pr = Pending ->
  settle p st w = set_promises (<[p := mkPromise st (p_catch pr)]> (promises w)) w.
Proof. intros Hp Hs. unfold settle. by rewrite Hp, Hs. Qed.

Lemma reject_pending p reason w pr :
  promises w !! p = Some pr -> p_state pr = Pending ->
  reject p reason w
  = perform (reconnect_failed (p_catch pr))
      (set_promises (<[p := mkPromise (Rejected reason) (p_catch pr)]> (promises w))
         (perform [Reject p reason] w)).
Proof.
  intros Hp Hs. unfold reject. cbv zeta. cbn [perform promises]. rewrite Hp, Hs.
  by rewrite (settle_pending _ _ _ pr).
Qed.

Lemma ws_onopen_open w s sock :
  sockets w !! s = Some sock -> readyState sock = OPEN ->
  ws_onopen s w
  = resolve (ws_promise sock)
      (perform ([Console Info "Successfully connected to websocket";
                 Send s (VObj [("setup", config (this w))]);
                 Console Debug "Setup message with the following configuration was sent:"]
                ++ emission w "connected" (VObj []))
         (set_this (fun c => with_reconnectAttempts 0
                               (with_isConnecting false (with_ws (Some s) c))) w)).
Proof.
  intros Hs Hr. unfold ws_onopen. cbv zeta.
  rewrite (sendJSON_connected _ _ s).
  - rewrite emit_perform. rewrite (emission_this w) by done. fields.
    rewrite Hs. f_equal. apply world_eq; fields; try reflexivity.
    by rewrite <- !app_assoc.
  - reflexivity.
  - unfold isConnected. fields. rewrite Hs. cbn [fmap option_fmap option_map]. by rewrite Hr.
Qed.

Lemma step_open_spec w s sock :
  sockets w !! s = Some sock -> readyState sock = CONNECTING ->
  step (SocketOpen s) w
  = resolve (ws_promise sock)
      (perform ([Console Info "Successfully connected to websocket";
                 Send s (VObj [("setup", config (this w))]);
                 Console Debug "Setup message with the following configuration was sent:"]
                ++ emission w "connected" (VObj []))
         (set_this (fun c => with_reconnectAttempts 0
                               (with_isConnecting false (with_ws (Some s) c)))
            (set_readyState s OPEN w))).
Proof.
  intros Hs Hr. unfold_step. rewrite Hs. simpl. rewrite Hr.
  assert (Hlt : (s < length (sockets w))%nat) by (by eapply lookup_lt_Some).
  rewrite (ws_onopen_open _ _ (mkWebSocket (ws_url sock) OPEN (ws_promise sock))).
  - rewrite (emission_this w) by (by rewrite this_set_readyState).
    by rewrite this_set_readyState.
  - rewrite (set_readyState_spec _ _ sock) by done.
    unfold set_sockets. cbn [sockets]. by apply list_lookup_insert_eq.
  - reflexivity.
Qed.

Lemma connecting_socket w s sock :
  reachable w -> sockets w !! s = Some sock -> readyState sock = CONNECTING ->
  ws_promise sock = s
  /\ (exists pr, promises w !! s = Some pr /\ p_state pr = Pending)
  /\ (forall d, ~ In (Send s d) (effects w)).
Proof.
  intros Hreach Hs Hr. destruct (reachable_channels _ Hreach) as (_ & Hp & Hc & Hsend).
  repeat split; eauto.
  intros d Hin. destruct (Hsend _ _ Hin) as (sock' & Hs' & Hne). congruence.
Qed.

(** C4, as the code has it.  When a connecting socket [s] of a reachable
    client opens, the client is connected on [s], the counter is zero,
    the setup message is the first message ever written on [s], the
    [connected] event follows it and the promise of [connect()] is
    fulfilled.  When the connection fails instead, the error listener
    publishes [connection_error] with the error and rejects the promise,
    and schedules nothing itself (were the event [null] or [undefined],
    which no platform delivers, the listener would stop at its first
    read and publish and settle nothing); but the close event that the
    failure also fires is an abnormal closure like any other: with a
    code other than 1000 and the counter below 3, a reconnect timer is
    set. *)
Theorem open_handshake w s sock :
  reachable w -> sockets w !! s = Some sock -> readyState sock = CONNECTING ->
  exists pr,
    promises w !! s = Some pr /\ p_state pr = Pending
    /\ (forall d, ~ In (Send s d) (effects w))
    /\ (let w' := step (SocketOpen s) w in
        isConnected w' = true
        /\ ws (this w') = Some s
        /\ isConnecting (this w') = false
        /\ reconnectAttempts (this w') = 0
        /\ effects w'
           = effects w
             ++ [Console Info "Successfully connected to websocket";
                 Send s (VObj [("setup", config (this w))]);
                 Console Debug "Setup message with the following configuration was sent:"]
             ++ emission w "connected" (VObj [])
             ++ [Resolve s]
        /\ promises w' = <[s := mkPromise Fulfilled (p_catch pr)]> (promises w)
        /\ timers w' = timers w)
    /\ (forall error,
        let w' := ws_onerror s error (set_readyState s CLOSED w) in
        isConnecting (this w') = false
        /\ timers w' = timers w
        /\ length (sockets w') = length (sockets w)
        /\ (error <> VNull -> error <> VUndefined ->
            effects w'
            = effects w
              ++ Console Err "Could not connect"
                 :: emission w "connection_error" (VObj [("error", error)])
              ++ Reject s error :: reconnect_failed (p_catch pr)
            /\ promises w' = <[s := mkPromise (Rejected error) (p_catch pr)]> (promises w))
        /\ (error = VNull \/ error = VUndefined ->
            effects w' = effects w /\ promises w' = promises w))
    /\ (forall error code reason,
        code <> 1000 -> reconnectAttempts (this w) < 3 ->
        timers (step (SocketFail s error code reason) w)
        = timers w ++ [mkTimer (2000 * 2 ^ reconnectAttempts (this w)) false]).
Proof.
  intros Hreach Hs Hr.
  destruct (connecting_socket _ _ _ Hreach Hs Hr) as (Hp & (pr & Hpr & Hst) & Hsend).
  assert (Hlt : (s < length (sockets w))%nat) by (by eapply lookup_lt_Some).
  assert (Herr : forall error,
    error <> VNull -> error <> VUndefined ->
    ws_onerror s error (set_readyState s CLOSED w)
    = perform (reconnect_failed (p_catch pr))
        (set_promises (<[s := mkPromise (Rejected error) (p_catch pr)]> (promises w))
           (perform (Console Err "Could not connect"
                       :: emission w "connection_error" (VObj [("error", error)])
                       ++ [Reject s error])
              (set_this (with_isConnecting false) (set_readyState s CLOSED w))))).
  { intros error Hn Hu. rewrite (set_readyState_spec _ _ sock) by done.
    rewrite (ws_onerror_spec _ _ _ (mkWebSocket (ws_url sock) CLOSED (ws_promise sock)))
      by (done || (unfold set_sockets; cbn [sockets]; by apply list_lookup_insert_eq)).
    cbn [ws_promise]. rewrite Hp. rewrite (reject_pending _ _ _ pr) by done.
    rewrite (emission_this w) by done.
    f_equal. apply world_eq; fields; try reflexivity. by rewrite <- !app_assoc. }
  exists pr. split; [done|]. split; [done|]. split; [done|]. split; [|split].
  - cbv zeta. rewrite (step_open_spec _ _ sock) by done. rewrite Hp.
    rewrite (set_readyState_spec _ _ sock) by done.
    unfold resolve. rewrite (settle_pending _ _ _ pr) by done.
    repeat split; fields; try reflexivity.
    + unfold isConnected. fields. by rewrite list_lookup_insert_eq.
    + app_norm.
  - intros error. cbv zeta.
    destruct (ws_onerror_frame s error (set_readyState s CLOSED w)) as (Fs & Ft).
    rewrite this_ws_onerror, Fs, Ft.
    rewrite (set_readyState_spec _ _ sock) by done.
    split; [done|]. split; [done|]. split; [fields; by rewrite length_insert|]. split.
    + intros Hn Hu. rewrite <- (set_readyState_spec _ _ sock) by done.
      rewrite Herr by done. rewrite (set_readyState_spec _ _ sock) by done.
      split; fields; [app_norm|reflexivity].
    + intros Hnull. unfold ws_onerror. cbv zeta.
      by destruct Hnull as [-> | ->].
  - intros error code reason Hcode Hn.
    destruct (reachable_fields _ Hreach) as (Hm & Hd & Hb).
    rewrite (step_fail_live _ _ sock) by (done || congruence).
    rewrite ws_onclose_spec. cbv zeta.
    rewrite this_ws_onerror, this_set_readyState.
    cbn [with_isConnecting reconnectAttempts maxReconnectAttempts reconnectDelay].
    rewrite Hm, Hd.
    assert (Hc1 : negb (code =? 1000) = true) by (by apply negb_true_iff, Z.eqb_neq).
    assert (Hc2 : (reconnectAttempts (this w) <? 3) = true) by (by apply Z.ltb_lt).
    rewrite Hc1, Hc2. cbn [andb timers].
    destruct (ws_onerror_frame s error (set_readyState s CLOSED w)) as (_ & ->).
    rewrite (set_readyState_spec _ _ sock) by done. fields.
    by replace (reconnectAttempts (this w) + 1 - 1) with (reconnectAttempts (this w)) by lia.
Qed.

(** ** Single flight *)

Lemma connect_times_guarded n w :
  isConnected w || isConnecting (this w) = true ->
  connect_times n w = (repeat (Normal (connectionPromise (this w))) n, w).
Proof.
  intros H. induction n as [|n IH]; [done|].
  simpl. by rewrite (connect_guarded _ H), IH.
Qed.

Lemma connect_sets_guard w : guarded (snd (connect w)) = true.
Proof.
  unfold guarded. destruct (isConnected w || isConnecting (this w)) eqn:H.
  - by rewrite connect_guarded.
  - rewrite connect_idle by done. simpl. apply orb_true_r.
Qed.

Lemma connect_result w :
  fst (connect w) = Normal (connectionPromise (this (snd (connect w)))).
Proof.
  destruct (isConnected w || isConnecting (this w)) eqn:H.
  - by rewrite connect_guarded.
  - by rewrite connect_idle.
Qed.

Lemma same_attempt_guarded w w' : same_attempt w w' -> guarded w' = guarded w.
Proof.
  intros (Hs & Hw & Hi & _). unfold guarded, isConnected. by rewrite Hs, Hw, Hi.
Qed.

Lemma same_attempt_perform es w : same_attempt w (perform es w).
Proof. done. Qed.

Lemma quiet_step i w :
  quiet i = true -> guarded w = true -> same_attempt w (step i w).
Proof.
  intros Hq Hg. destruct i; try discriminate Hq; unfold_step.
  - done.
  - unfold guarded in Hg. by rewrite connect_guarded.
  - destruct (writes_open_sendAudio base64audio w) as (es & -> & _). done.
  - destruct (writes_open_sendImage base64image w) as (es & -> & _). done.
  - destruct (writes_open_sendText text endOfTurn w) as (es & -> & _). done.
  - destruct (writes_open_sendToolResponse toolResponse w) as (es & -> & _). done.
  - destruct (readyState <$> sockets w !! s) as [[]|]; try done;
      by destruct (ws_onmessage_reports data w) as (es & -> & _).
  - destruct (timers w !! t) as [tm|]; [|done]. destruct (t_fired tm); [done|].
    unfold reconnect_callback. rewrite connect_guarded by exact Hg.
    rewrite this_set_timers.
    destruct (connectionPromise (this w)) as [p|]; [|done].
    rewrite promises_set_timers. destruct (promises w !! p) as [pr|]; [|done].
    by destruct (p_state pr).
Qed.

Lemma quiet_run inputs w :
  Forall (fun i => quiet i = true) inputs -> guarded w = true ->
  same_attempt w (run inputs w).
Proof.
  intros H. revert w. induction H as [|i inputs Hi _ IH]; intros w Hg; [done|].
  simpl. pose proof (quiet_step i w Hi Hg) as Hstep.
  assert (Hg' : guarded (step i w) = true) by (by rewrite (same_attempt_guarded w)).
  destruct (IH _ Hg') as (H1 & H2 & H3 & H4).
  destruct Hstep as (S1 & S2 & S3 & S4).
  repeat split; congruence.
Qed.

(** X19: the guard of [connect()] at work.  Any number of [connect()] calls
    in a row give all callers the same promise and open at most one
    channel: none when [isConnecting] is set or the channel is open (the
    world is left as it is), exactly one otherwise, made by the first
    call, whose promise the socket's listeners settle.  After the first
    call, and until a socket opens or ends or [disconnect()] is called,
    whatever else happens (further [connect()] calls, reconnect timers,
    sends, incoming messages) opens no other channel and leaves the
    promise in place. *)
Lemma connect_single_flight w n :
  let r := fst (connect w) in
  let w1 := snd (connect w) in
  connect_times (S n) w = (repeat r (S n), w1)
  /\ (isConnected w || isConnecting (this w) = true ->
      w1 = w /\ r = Normal (connectionPromise (this w)))
  /\ (isConnected w || isConnecting (this w) = false ->
      r = Normal (Some (length (promises w)))
      /\ sockets w1
         = sockets w ++ [mkWebSocket (url (this w)) CONNECTING (length (promises w))]
      /\ promises w1 = promises w ++ [mkPromise Pending 0]
      /\ effects w1
         = effects w ++ [Console Info "Establishing WebSocket connection...";
                         NewWebSocket (length (sockets w)) (url (this w))])
  /\ (forall inputs,
        Forall (fun i => quiet i = true) inputs ->
        sockets (run inputs w1) = sockets w1
        /\ connectionPromise (this (run inputs w1)) = connectionPromise (this w1)).
Proof.
  intros r w1. split; [|split; [|split]].
  - change (connect_times (S n) w)
      with (let (r, w) := connect w in
            let (rs, w) := connect_times n w in (r :: rs, w)).
    subst r w1. pose proof (connect_sets_guard w) as Hg.
    pose proof (connect_result w) as Hr.
    destruct (connect w) as [r w1]. simpl in *.
    by rewrite (connect_times_guarded _ _ Hg), Hr.
  - intros H. subst r w1. by rewrite connect_guarded.
  - intros H. subst r w1. by rewrite connect_idle.
  - intros inputs Hq.
    destruct (quiet_run inputs w1 Hq (connect_sets_guard w)) as (H1 & _ & _ & H4).
    done.
Qed.

End MachineProperties.

(** ** Disconnecting *)

(** C10: while [this.ws] is [null], [disconnect()] changes nothing; and
    [connect()] leaves [this.ws] alone, so a [disconnect()] issued while
    an attempt started from such a world is in flight changes nothing
    either: the socket stays as it is and the counter is not raised. *)
Theorem disconnect_without_channel w :
  ws (this w) = None ->
  disconnect w = w
  /\ disconnect (snd (connect w)) = snd (connect w)
  /\ reconnectAttempts (this (disconnect (snd (connect w)))) = reconnectAttempts (this w)
  /\ sockets (disconnect (snd (connect w))) = sockets (snd (connect w)).
Proof.
  intros Hws.
  assert (Hws' : ws (this (snd (connect w))) = None).
  { rewrite this_connect. by destruct (_ || _). }
  rewrite (disconnect_none _ Hws), (disconnect_none _ Hws').
  repeat split. rewrite this_connect. by destruct (_ || _).
Qed.

(** A timer that is pending when [disconnect()] tears the channel down
    still calls [connect()] when it expires, and that call opens a
    channel. *)
Lemma timer_after_disconnect_reconnects w s :
  ws (this w) = Some s ->
  let w1 := disconnect w in
  reconnect_callback w1
  = mkWorld (with_connectionPromise (Some (length (promises w1)))
               (with_isConnecting true (this w1)))
            (sockets w1 ++ [mkWebSocket (url (this w1)) CONNECTING (length (promises w1))])
            (promises w1 ++ [mkPromise Pending 1])
            (timers w1)
            (effects w1 ++ [Console Info "Establishing WebSocket connection...";
                            NewWebSocket (length (sockets w1)) (url (this w1))]).
Proof.
  intros Hs w1.
  assert (Hidle : isConnected w1 || isConnecting (this w1) = false).
  { subst w1. unfold isConnected. rewrite this_disconnect, Hs. reflexivity. }
  unfold reconnect_callback. rewrite (connect_idle _ Hidle).
  cbn [promises]. rewrite list_lookup_middle by done. cbn [p_state p_catch].
  unfold set_promises. cbn [this sockets promises timers effects].
  f_equal. rewrite insert_app_r_alt by done. by rewrite Nat.sub_diag.
Qed.

(** C2 fails on the code.  A client connects, its channel drops with
    code 1006 (a reconnect timer is set), and the application calls
    [disconnect()]: the client is disconnected, its counter is at the
    maximum, and the timer is still pending.  When the timer expires its
    callback opens a second channel, and once that channel opens the
    client is connected again. *)
Theorem stale_reconnect_timer_reopens :
  let before := demo_run [CallDisconnect] demo_dropped in
  let after := demo_run [TimerFires 0%nat] before in
  timers demo_dropped = [mkTimer 2000 false]
  /\ timers before = [mkTimer 2000 false]
  /\ ws (this before) = None
  /\ reconnectAttempts (this before) = 3
  /\ sockets before = [mkWebSocket demo_url CLOSED 0]
  /\ sockets after = [mkWebSocket demo_url CLOSED 0; mkWebSocket demo_url CONNECTING 1]
  /\ effects after
     = effects before ++ [Console Info "Establishing WebSocket connection...";
                          NewWebSocket 1 demo_url]
  /\ isConnected (demo_run [SocketOpen 1%nat] after) = true.
Proof. intros; repeat match goal with |- _ /\ _ => split end; vm_compute; reflexivity. Qed.

(** C8 fails on the code.  A client that was connected calls
    [disconnect()] and then [connect()]: a second socket is connecting
    and [isConnecting] is set.  The first socket now finishes closing
    (code 1000); its close listener clears [isConnecting], although the
    attempt on the second socket is still in flight.  The next
    [connect()] passes both guards: it returns a new promise and opens a
    third socket, so two attempts are in flight, each with its own
    promise. *)
Theorem stale_close_defeats_single_flight :
  let restarted :=
    demo_run [CallConnect; SocketOpen 0%nat; CallDisconnect; CallConnect]
             (initial demo_client) in
  let closed := demo_run [SocketClose 0%nat 1000 "User initiated disconnect"] restarted in
  sockets restarted
  = [mkWebSocket demo_url CLOSING 0; mkWebSocket demo_url CONNECTING 1]
  /\ isConnecting (this restarted) = true
  /\ connectionPromise (this restarted) = Some 1%nat
  /\ fst (connect restarted) = Normal (Some 1%nat)
  /\ isConnecting (this closed) = false
  /\ sockets closed
     = [mkWebSocket demo_url CLOSED 0; mkWebSocket demo_url CONNECTING 1]
  /\ fst (connect closed) = Normal (Some 2%nat)
  /\ sockets (snd (connect closed))
     = [mkWebSocket demo_url CLOSED 0; mkWebSocket demo_url CONNECTING 1;
        mkWebSocket demo_url CONNECTING 2]
  /\ promises (snd (connect closed))
     = [mkPromise Fulfilled 0; mkPromise Pending 0; mkPromise Pending 0].
Proof. intros; repeat match goal with |- _ /\ _ => split end; vm_compute; reflexivity. Qed.

(** C4, as stated, fails: a first connection attempt that fails fires
    [error] and then [close] with code 1006; the close listener sets a
    reconnect timer of 2000 ms, and when it expires a second channel is
    opened without any call by the application. *)
Lemma failed_first_connect_is_retried :
  let failed := demo_run [CallConnect; SocketFail 0%nat (VObj []) 1006 ""]
                         (initial demo_client) in
  effects failed
  = [Console Info "Establishing WebSocket connection...";
     NewWebSocket 0 demo_url;
     Console Err "Could not connect";
     Emit "connection_error" (VObj [("error", VObj [])]);
     Reject 0 (VObj []);
     Console Warn "WebSocket connection closed.";
     Emit "disconnected" (close_info 1006 "");
     Console Info "Attempting to reconnect";
     SetTimeout 0 2000]
  /\ timers failed = [mkTimer 2000 false]
  /\ sockets (demo_run [TimerFires 0%nat] failed)
     = [mkWebSocket demo_url CLOSED 0; mkWebSocket demo_url CONNECTING 1].
Proof. intros; repeat match goal with |- _ /\ _ => split end; vm_compute; reflexivity. Qed.

(** ** The properties at work on sample worlds *)

Lemma demo_reachable inputs :
  reachable value demo_blobToJSON demo_base64ToArrayBuffer
            (demo_run inputs (initial demo_client)).
Proof.
  apply run_reachable. eapply reachable_new. apply demo_client_constructed.
Qed.

(** A channel that drops for the first time: one timer, of 2000 ms,
    whose expiry opens a second channel. *)
Lemma abnormal_close_backoff_witness :
  let w' := demo_step (SocketClose 0%nat 1006 "") demo_connected in
  reconnectAttempts (this w') = 1
  /\ timers w' = [mkTimer 2000 false]
  /\ effects w'
     = effects demo_connected
       ++ [Console Warn "WebSocket connection closed.";
           Emit "disconnected" (close_info 1006 "");
           Console Info "Attempting to reconnect";
           SetTimeout 0 2000]
  /\ sockets (demo_step (TimerFires 0%nat) w')
     = [mkWebSocket demo_url CLOSED 0; mkWebSocket demo_url CONNECTING 1]
  /\ effects (demo_step (TimerFires 0%nat) w')
     = effects w'
       ++ [Console Info "Establishing WebSocket connection...";
           NewWebSocket 1 demo_url].
Proof.
  destruct (abnormal_close_backoff value demo_blobToJSON demo_base64ToArrayBuffer
              demo_connected 0%nat (mkWebSocket demo_url OPEN 0) 1006 "" None
              (demo_reachable [CallConnect; SocketOpen 0%nat])
              eq_refl ltac:(discriminate) ltac:(discriminate))
    as (_ & _ & H & _).
  destruct (H eq_refl) as (H1 & H2 & H3 & _ & _ & _ & _ & _ & Hcur & Hfired & _).
  destruct (Hfired (Hcur eq_refl)) as (H4 & _ & H5 & _).
  split; [exact H1|]. split; [exact H2|]. split; [exact H3|].
  split; [exact H4 | exact H5].
Defined.

(** A text frame is dispatched without an exception. *)
Lemma receive_well_formed_witness :
  exists es,
    demo_receive (model_turn_frame [] [text_part "hello"]) (initial demo_client)
    = (Normal tt, perform es (initial demo_client))
    /\ Forall is_report es.
Proof.
  assert (Hwf : well_formed_frame demo_base64ToArrayBuffer
                  (model_turn_frame [] [text_part "hello"])).
  { split; [discriminate|]. split; [discriminate|]. intros _.
    exists [text_part "hello"]. split; [reflexivity|].
    split; repeat constructor. intros H. discriminate H. }
  destruct (proj2 (receive_well_formed value demo_blobToJSON demo_base64ToArrayBuffer
                     (model_turn_frame [] [text_part "hello"])
                     (model_turn_frame [] [text_part "hello"])
                     (initial demo_client) eq_refl) Hwf) as (es & H1 & H2 & _).
  exists es. split; [exact H1 | exact H2].
Defined.

(** The frame of the specification: interrupted, complete, with a model
    turn. *)
Lemma interrupted_short_circuits_witness :
  demo_dispatch
    (model_turn_frame [("interrupted", VBool true); ("turnComplete", VBool true)]
                      [audio_inline [("data", VStr "QUJD")]; text_part "late"])
    (initial demo_client)
  = (Normal tt,
     perform [Console Debug "is interrupted"; Emit "interrupted" VUndefined]
             (initial demo_client)).
Proof.
  exact (proj1 (interrupted_short_circuits demo_base64ToArrayBuffer
                  (model_turn_frame [("interrupted", VBool true); ("turnComplete", VBool true)]
                                    [audio_inline [("data", VStr "QUJD")]; text_part "late"])
                  (initial demo_client) eq_refl) eq_refl eq_refl).
Defined.

(** Two audio parts with a payload and one text part: two [audio] events
    in the order of the parts, then one [content] event with the text
    part alone. *)
Lemma model_turn_partition_witness :
  demo_dispatch
    (model_turn_frame [] [audio_inline [("data", VStr "QUJD")]; text_part "hello";
                          audio_inline [("data", VStr "REVG")]])
    (initial demo_client)
  = (Normal tt,
     perform [Emit "audio" (VBuffer (list_byte_of_string "QUJD"));
              Emit "audio" (VBuffer (list_byte_of_string "REVG"));
              Emit "content" (VObj [("modelTurn", VObj [("parts", VArr [text_part "hello"])])]);
              Console Debug "sent:"]
             (initial demo_client)).
Proof.
  apply (model_turn_partition demo_base64ToArrayBuffer
           (model_turn_frame [] [audio_inline [("data", VStr "QUJD")]; text_part "hello";
                                 audio_inline [("data", VStr "REVG")]])
           [audio_inline [("data", VStr "QUJD")]; text_part "hello";
            audio_inline [("data", VStr "REVG")]]
           (initial demo_client)).
  - reflexivity.
  - reflexivity.
  - repeat constructor.
  - repeat constructor; intros H; first [discriminate H | reflexivity].
Defined.

(** An error response on a connected client, and a response with
    nothing but an id. *)
Lemma tool_response_rules_witness :
  async (sendToolResponse (VObj [("id", VStr "x"); ("error", VStr "e")])) demo_connected
  = (Normal (Fulfills tt),
     perform [Send 0 (VObj [("toolResponse",
                             VObj [("functionResponses",
                                    VArr [VObj [("response", VObj [("error", VStr "e")]);
                                                ("id", VStr "x")]])])]);
              Console Debug "Tool response sent"] demo_connected)
  /\ exists e,
       fst (async (sendToolResponse (VObj [("id", VStr "x")])) demo_connected)
       = Normal (Rejects e).
Proof.
  split.
  - exact (proj1 (proj1 (proj2 (proj2 (proj2
             (tool_response_rules (VObj [("id", VStr "x"); ("error", VStr "e")])
                                  demo_connected))))
                    0%nat eq_refl eq_refl eq_refl) eq_refl).
  - apply (proj2 (proj1 (proj2
             (tool_response_rules (VObj [("id", VStr "x")]) demo_connected)))).
    right. split; reflexivity.
Defined.

(** Three calls of [connect()] on a fresh client: one promise, one
    socket. *)
Lemma connect_three_times :
  connect_times 3 (initial demo_client)
  = (repeat (Normal (Some 0%nat)) 3, snd (connect (initial demo_client)))
  /\ sockets (snd (connect (initial demo_client)))
     = [mkWebSocket demo_url CONNECTING 0].
Proof.
  split.
  - exact (proj1 (connect_single_flight value demo_blobToJSON demo_base64ToArrayBuffer
                    (initial demo_client) 2)).
  - exact (proj1 (proj2 (proj1 (proj2 (proj2
             (connect_single_flight value demo_blobToJSON demo_base64ToArrayBuffer
                (initial demo_client) 2))) eq_refl))).
Defined.

(** An audio chunk on a connected client and on a fresh one. *)
Lemma guarded_sends_witness :
  sendAudio (VStr "QUJD") demo_connected
  = (Normal tt,
     perform [Send 0 (VObj [("realtimeInput",
                             VObj [("mediaChunks",
                                    VArr [VObj [("mimeType", VStr "audio/pcm");
                                                ("data", VStr "QUJD")]])])]);
              Console Debug "Sending audio chunk"] demo_connected)
  /\ sendAudio (VStr "QUJD") (initial demo_client)
     = (Normal tt,
        console Warn "Cannot send: WebSocket not connected" (initial demo_client))
  /\ sendAudio (VStr "") demo_connected = (Normal tt, demo_connected).
Proof.
  split; [|split].
  - exact (proj1 (guarded_sends (VStr "QUJD") demo_connected) eq_refl 0%nat eq_refl eq_refl).
  - exact (proj2 (proj1 (proj2 (guarded_sends (VStr "QUJD") (initial demo_client)))
                    eq_refl eq_refl)).
  - exact (proj1 (proj2 (proj2 (guarded_sends (VStr "") demo_connected))) eq_refl).
Defined.

(** [disconnect()] on a fresh client and during its first attempt. *)
Lemma disconnect_without_channel_witness :
  ws (this (initial demo_client)) = None
  /\ disconnect (initial demo_client) = initial demo_client
  /\ disconnect (snd (connect (initial demo_client))) = snd (connect (initial demo_client)).
Proof.
  split; [reflexivity|].
  destruct (disconnect_without_channel (initial demo_client) eq_refl) as (H1 & H2 & _).
  split; [exact H1 | exact H2].
Defined.

(** The first socket of a client opens. *)
Lemma open_handshake_witness :
  let w := demo_run [CallConnect] (initial demo_client) in
  let w' := demo_step (SocketOpen 0%nat) w in
  isConnected w' = true
  /\ reconnectAttempts (this w') = 0
  /\ effects w'
     = effects w
       ++ [Console Info "Successfully connected to websocket";
           Send 0 (VObj [("setup", config demo_client)]);
           Console Debug "Setup message with the following configuration was sent:";
           Emit "connected" (VObj []);
           Resolve 0].
Proof.
  destruct (open_handshake value demo_blobToJSON demo_base64ToArrayBuffer
              (demo_run [CallConnect] (initial demo_client)) 0%nat
              (mkWebSocket demo_url CONNECTING 0)
              (demo_reachable [CallConnect]) eq_refl eq_refl)
    as (pr & _ & _ & _ & (H1 & _ & _ & H4 & H5 & _) & _).
  split; [exact H1|]. split; [exact H4 | exact H5].
Defined.

(** * Further properties of the class *)

(** ** The event bus *)

Lemma on_listeners eventName callback w e :
  listeners (on eventName callback w) e
  = if String.eqb eventName e then listeners w eventName ++ [callback]
    else listeners w e.
Proof.
  unfold listeners, on. cbv zeta. rewrite this_set_this.
  cbn [with_eventListeners _eventListeners].
  destruct (String.eqb_spec eventName e) as [<-|Hne].
  - rewrite lookup_insert_eq. simpl.
    destruct (_eventListeners (this w) !! eventName) as [l|] eqn:Hl.
    + by rewrite Hl.
    + by rewrite lookup_insert_eq.
  - rewrite lookup_insert_ne by done.
    destruct (_eventListeners (this w) !! eventName) as [l|]; [done|].
    by rewrite lookup_insert_ne.
Qed.

Lemma on_frame eventName callback w :
  sockets (on eventName callback w) = sockets w
  /\ promises (on eventName callback w) = promises w
  /\ timers (on eventName callback w) = timers w
  /\ effects (on eventName callback w) = effects w
  /\ ws (this (on eventName callback w)) = ws (this w)
  /\ isConnecting (this (on eventName callback w)) = isConnecting (this w)
  /\ connectionPromise (this (on eventName callback w)) = connectionPromise (this w)
  /\ reconnectAttempts (this (on eventName callback w)) = reconnectAttempts (this w)
  /\ config (this (on eventName callback w)) = config (this w)
  /\ url (this (on eventName callback w)) = url (this w).
Proof. unfold on. cbv zeta. repeat split. Qed.

Lemma register_listeners regs w e :
  listeners (register regs w) e = listeners w e ++ registered e regs.
Proof.
  revert w. induction regs as [|[e0 cb] regs IH]; intros w.
  - unfold registered. simpl. by rewrite app_nil_r.
  - unfold register in *. simpl. rewrite IH, on_listeners. unfold registered. simpl.
    destruct (String.eqb_spec e0 e) as [->|Hne].
    + simpl. by rewrite <- app_assoc.
    + done.
Qed.

Lemma register_frame regs w :
  sockets (register regs w) = sockets w
  /\ promises (register regs w) = promises w
  /\ timers (register regs w) = timers w
  /\ effects (register regs w) = effects w
  /\ ws (this (register regs w)) = ws (this w)
  /\ isConnecting (this (register regs w)) = isConnecting (this w)
  /\ reconnectAttempts (this (register regs w)) = reconnectAttempts (this w).
Proof.
  revert w. induction regs as [|[e0 cb] regs IH]; intros w; [done|].
  unfold register in *. simpl.
  destruct (IH (on e0 cb w)) as (H1 & H2 & H3 & H4 & H5 & H6 & H7).
  destruct (on_frame e0 cb w) as (F1 & F2 & F3 & F4 & F5 & F6 & _ & F7 & _).
  repeat split; congruence.
Qed.

(** X1: listeners are kept per event, in registration order and with
    repetitions: after a series of [on] calls, [emit] calls the
    listeners the event had before and then those the series gave it,
    each with the data emitted, and none of another event; registering
    touches nothing but the listener table. *)
Theorem listeners_in_registration_order regs w eventName data :
  emit eventName data (register regs w)
  = perform (Emit eventName data
             :: map (fun cb => Invoke cb data)
                    (listeners w eventName ++ registered eventName regs))
            (register regs w)
  /\ sockets (register regs w) = sockets w
  /\ promises (register regs w) = promises w
  /\ timers (register regs w) = timers w
  /\ effects (register regs w) = effects w
  /\ ws (this (register regs w)) = ws (this w)
  /\ isConnecting (this (register regs w)) = isConnecting (this w)
  /\ reconnectAttempts (this (register regs w)) = reconnectAttempts (this w).
Proof.
  split; [|apply register_frame].
  rewrite emit_perform. unfold emission.
  change (default [] (_eventListeners (this (register regs w)) !! eventName))
    with (listeners (register regs w) eventName).
  by rewrite register_listeners.
Qed.

(** ** The other send methods *)

(** X2: [sendImage] with a non-empty payload writes exactly one
    envelope, [{ realtimeInput: { mediaChunks: [{ mimeType:
    "image/jpeg", data }] } }] with the payload given, when connected;
    when not connected it writes nothing, warns and does not throw; with
    an empty or absent payload it does nothing at all. *)
Theorem sendImage_rules base64image w :
  let envelope :=
    VObj [("realtimeInput",
           VObj [("mediaChunks",
                  VArr [VObj [("mimeType", VStr "image/jpeg");
                              ("data", base64image)]])])] in
  (truthy base64image = true ->
   forall s, ws (this w) = Some s -> isConnected w = true ->
     sendImage base64image w
     = (Normal tt,
        perform [Send s envelope; Console Debug "Image was sent"] w))
  /\ (truthy base64image = true -> isConnected w = false ->
      sendImage base64image w
      = (Normal tt, console Warn "Cannot send: WebSocket not connected" w))
  /\ (truthy base64image = false -> sendImage base64image w = (Normal tt, w)).
Proof.
  intros envelope. subst envelope.
  split; [|split].
  - intros Ht s Hs Hc. unfold sendImage. rewrite Ht.
    change (negb true) with false. cbv iota.
    unfold mbind, M_bind. rewrite (safelySendJSON_connected _ _ s) by done.
    unfold act, console. by rewrite perform_perform.
  - intros Ht Hc. unfold sendImage. rewrite Ht. change (negb true) with false.
    cbv iota. unfold mbind, M_bind. by rewrite safelySendJSON_disconnected.
  - intros Ht. unfold sendImage. by rewrite Ht.
Qed.

(** X3: [sendText] has no guard on its text: when connected it writes
    one client-content envelope, with the single turn of role [user]
    and its [parts] the object [{ text }], for any text, the empty one
    and [undefined] included.  The turn-complete flag is [true] when
    the second argument is [undefined] and is the argument itself
    otherwise ([false], [null], ...).  When not connected it writes
    nothing, warns and does not throw. *)
Theorem sendText_rules text endOfTurn w :
  let flag := match endOfTurn with VUndefined => VBool true | v => v end in
  (forall s, ws (this w) = Some s -> isConnected w = true ->
     sendText text endOfTurn w
     = (Normal tt,
        perform [Send s (text_turn text flag); Console Debug "Text sent"] w))
  /\ (isConnected w = false ->
      sendText text endOfTurn w
      = (Normal tt, console Warn "Cannot send: WebSocket not connected" w))
  /\ (endOfTurn <> VUndefined -> flag = endOfTurn)
  /\ get_opt (get_opt (text_turn text flag) "clientContent") "turnComplete" = flag
  /\ get_opt (get_opt (text_turn text flag) "clientContent") "turns"
     = VArr [VObj [("role", VStr "user"); ("parts", VObj [("text", text)])]].
Proof.
  intros flag. split; [|split; [|split; [|split]]].
  - intros s Hs Hc. unfold sendText. fold flag.
    unfold mbind, M_bind. rewrite (safelySendJSON_connected _ _ s) by done.
    unfold act, console. by rewrite perform_perform.
  - intros Hc. unfold sendText. fold flag.
    unfold mbind, M_bind. by rewrite safelySendJSON_disconnected.
  - intros H. subst flag. by destruct endOfTurn.
  - reflexivity.
  - reflexivity.
Qed.

(** X4: [sendJSON], the unguarded primitive the setup message goes
    through, writes its message when the client is connected and
    otherwise throws its own [Error] (whatever the cause) without
    writing; it never returns normally without having written. *)
Theorem sendJSON_rules json w :
  (isConnected w = true ->
   exists s, ws (this w) = Some s
             /\ sendJSON json w = (Normal tt, perform [Send s json] w))
  /\ (isConnected w = false ->
      sendJSON json w = (Throw (Error "Failed to send"), w))
  /\ (is_throw (fst (sendJSON json w)) = negb (isConnected w)).
Proof.
  assert (Hoff : isConnected w = false ->
                 sendJSON json w = (Throw (Error "Failed to send"), w)).
  { intros Hc. unfold sendJSON, try_catch. by rewrite Hc. }
  assert (Hon : isConnected w = true ->
                exists s, ws (this w) = Some s
                          /\ sendJSON json w = (Normal tt, perform [Send s json] w)).
  { intros Hc. destruct (isConnected_inv _ Hc) as (s & Hs & Ho). exists s.
    split; [done|]. unfold sendJSON, try_catch. rewrite Hc. simpl.
    unfold this_ws_send, ws_send. by rewrite Hs, Ho. }
  split; [done|]. split; [done|].
  destruct (isConnected w) eqn:Hc.
  - destruct (Hon eq_refl) as (s & _ & ->). reflexivity.
  - by rewrite Hoff.
Qed.

(** ** The other rules of the dispatcher *)

Section DispatcherRules.

Variable Blob : Type.
Variable blobToJSON : Blob -> Completion value.
Variable base64ToArrayBuffer : value -> Completion (list Byte.byte).

Local Abbreviation dispatch := (dispatch base64ToArrayBuffer).
Local Abbreviation receive := (receive Blob blobToJSON base64ToArrayBuffer).

Lemma early_rule_well_formed response :
  truthy (get_opt response "toolCall") = true
  \/ truthy (get_opt response "toolCallCancellation") = true
  \/ (truthy (get_opt response "serverContent") = true
      /\ truthy (get_opt (get_opt response "serverContent") "modelTurn") = false) ->
  well_formed_frame base64ToArrayBuffer response.
Proof.
  intros H.
  assert (Hobj : exists props, response = VObj props).
  { destruct H as [H|[H|[H _]]]; by apply truthy_get_opt in H. }
  destruct Hobj as [props ->]. split; [done|]. split; [done|].
  intros Hr. apply reaches_modelTurn_inv in Hr as (Ht & Hc & Hs & Hi & Hm).
  destruct H as [H|[H|[_ H]]]; congruence.
Qed.

(** X5: the tool rules come first.  A frame with a [toolCall]
    publishes [tool_call] with that payload and nothing else, and a
    frame without one but with a [toolCallCancellation] publishes
    [tool_call_cancellation] with that payload and nothing else; in both
    cases whatever [serverContent] the frame also carries, well formed
    or not, is not looked at, and nothing is thrown. *)
Theorem tool_rules_first response w :
  (truthy (get_opt response "toolCall") = true ->
   dispatch response w
   = (Normal tt,
      perform (Console Debug "received tool call"
               :: emission w "tool_call" (get_opt response "toolCall")) w))
  /\ (truthy (get_opt response "toolCall") = false ->
      truthy (get_opt response "toolCallCancellation") = true ->
      dispatch response w
      = (Normal tt,
         perform (Console Debug "received tool call cancellation"
                  :: emission w "tool_call_cancellation"
                       (get_opt response "toolCallCancellation")) w)).
Proof.
  split.
  - intros Ht. rewrite dispatch_refines by (apply early_rule_well_formed; auto).
    unfold dispatch_events. by rewrite Ht.
  - intros Ht Hc. rewrite dispatch_refines by (apply early_rule_well_formed; auto).
    unfold dispatch_events. by rewrite Ht, Hc.
Qed.

(** X6: a server-content frame that is not interrupted and has no
    model turn publishes [turn_complete] (without payload) if it is
    flagged complete, and otherwise nothing at all: it is not logged
    as unmatched either. *)
Theorem turn_without_model_turn response w :
  truthy (get_opt response "toolCall") = false ->
  truthy (get_opt response "toolCallCancellation") = false ->
  truthy (get_opt response "serverContent") = true ->
  truthy (get_opt (get_opt response "serverContent") "interrupted") = false ->
  truthy (get_opt (get_opt response "serverContent") "modelTurn") = false ->
  dispatch response w
  = (Normal tt,
     perform (if truthy (get_opt (get_opt response "serverContent") "turnComplete")
              then Console Debug "has completed its turn"
                   :: emission w "turn_complete" VUndefined
              else []) w).
Proof.
  intros Ht Hc Hs Hi Hm.
  rewrite dispatch_refines by (apply early_rule_well_formed; auto).
  unfold dispatch_events, turn_complete_events. rewrite Ht, Hc, Hs, Hi, Hm.
  by rewrite app_nil_r.
Qed.

(** X7: whatever arrives on a socket, a blob or not, parseable or not,
    well formed or not, the message listener only reports: it appends
    console lines and publications to the log and leaves the fields of
    the client, the sockets, the promises and the timers as they are; in
    particular it never writes on a socket.  A blob that does not parse
    makes [receive] fail with the parse error before anything is
    published; data that is not a blob is logged as an error and
    publishes nothing. *)
Theorem message_only_reports (data : MessageData Blob) w :
  (exists es,
     ws_onmessage Blob blobToJSON base64ToArrayBuffer data w = perform es w
     /\ Forall is_report es
     /\ (forall s d, ~ In (Send s d) es))
  /\ (forall blob e, blobToJSON blob = Throw e -> receive blob w = (Throw e, w))
  /\ (forall v,
        ws_onmessage Blob blobToJSON base64ToArrayBuffer (OtherData v) w
        = perform [Console Err "Non-blob message received"] w).
Proof.
  split; [|split].
  - destruct (ws_onmessage_reports Blob blobToJSON base64ToArrayBuffer data w)
      as (es & Hes & Hrep).
    exists es. split; [done|]. split; [done|].
    intros s d Hin. rewrite Forall_forall in Hrep.
    apply list_elem_of_In in Hin. by apply Hrep in Hin.
  - intros blob e Hb. unfold_receive. by rewrite Hb.
  - reflexivity.
Qed.

Lemma emit_audio_fails (good : list value) bad rest e w :
  Forall (decodable base64ToArrayBuffer) good ->
  audible bad = true -> base64ToArrayBuffer (payload bad) = Throw e ->
  emit_audio base64ToArrayBuffer
             (map payload (List.filter audio_part (good ++ bad :: rest))) w
  = (Throw e, perform (audio_events base64ToArrayBuffer w good) w).
Proof.
  intros Hgood Hbad He. apply andb_true_iff in Hbad as [Ha Hp].
  revert w. induction Hgood as [|p good Hdec _ IH]; intros w.
  - simpl. rewrite Ha. simpl. rewrite Hp.
    unfold mbind, M_bind, lift. rewrite He. by rewrite perform_nil.
  - unfold audio_events, audible in *. simpl.
    destruct (audio_part p) eqn:Hap; simpl; [|apply IH].
    destruct (truthy (payload p)) eqn:Ht; simpl.
    + unfold decodable, audible in Hdec. rewrite Hap, Ht in Hdec.
      specialize (Hdec eq_refl).
      unfold mbind, M_bind, lift, act at 1. unfold decoded.
      destruct (base64ToArrayBuffer (payload p)) as [bytes|]; [|done]. simpl.
      rewrite emit_perform, IH, perform_perform. reflexivity.
    + unfold mbind, M_bind at 1. simpl. apply IH.
Qed.

(** X8: a payload that does not decode aborts the frame where it
    stands.  In a frame that reaches the model-turn rule with
    well-formed parts, when the payload of an audio part fails to
    decode, [dispatch] throws the decoder's error; the audio parts
    before it have been published (after [turn_complete], if flagged),
    and nothing after: neither the later audio parts nor the [content]
    event, although the other parts were already set apart, whether
    they stand before or after the failing part. *)
Theorem decode_failure_aborts_frame response good bad rest e w :
  reaches_modelTurn response = true ->
  parts_of response = VArr (good ++ bad :: rest) ->
  Forall (fun p => well_formed_part p = true) (good ++ bad :: rest) ->
  Forall (decodable base64ToArrayBuffer) good ->
  audible bad = true -> base64ToArrayBuffer (payload bad) = Throw e ->
  dispatch response w
  = (Throw e,
     perform (turn_complete_events w (get_opt response "serverContent")
              ++ audio_events base64ToArrayBuffer w good) w).
Proof.
  intros Hr Hparts Hwf Hgood Hbad He.
  apply reaches_modelTurn_inv in Hr as (Ht & Hc & Hs & Hi & Hm).
  destruct (truthy_get_opt _ _ Hs) as [props ->].
  unfold_dispatch. rewrite !(get_get_opt (VObj props)) by done.
  rewrite bind_lift_normal, Ht, bind_lift_normal, Hc, bind_lift_normal, Hs.
  rewrite !(truthy_get _ Hs), bind_lift_normal, Hi, bind_lift_normal.
  set (sc := get_opt (VObj props) "serverContent") in *.
  rewrite turn_complete_step, bind_lift_normal, Hm.
  unfold parts_of in Hparts. fold sc in Hparts.
  unfold_receive_modelTurn.
  rewrite (truthy_get _ Hm), bind_lift_normal, Hparts.
  change (indexed (good ++ bad :: rest)) with (indexed_from 0 (good ++ bad :: rest)).
  rewrite filterM_audio by done. rewrite bind_lift_normal.
  rewrite mapM_base64 by apply filter_audio_Forall. rewrite bind_lift_normal.
  rewrite <- (map_map snd payload), (map_snd_filter_indexed audio_part).
  unfold mbind at 1. unfold M_bind.
  rewrite (emit_audio_fails good bad rest e) by done.
  by rewrite perform_perform.
Qed.

End DispatcherRules.

(** ** The life cycle of a channel *)

Lemma isConnected_no_channel w : ws (this w) = None -> isConnected w = false.
Proof. unfold isConnected. by intros ->. Qed.


Lemma ws_onclose_exhausted s code reason w :
  reconnectAttempts (this w) = maxReconnectAttempts (this w) ->
  ws_onclose s code reason w
  = mkWorld (with_isConnecting false (this w)) (sockets w) (promises w) (timers w)
            (effects w ++ Console Warn "WebSocket connection closed."
                       :: emission w "disconnected" (close_info code reason)).
Proof.
  intros Hn. rewrite ws_onclose_spec. cbv zeta. rewrite Hn, Z.ltb_irrefl.
  by rewrite andb_false_r.
Qed.

Lemma ws_onclose_normal s reason w :
  ws_onclose s 1000 reason w
  = mkWorld (with_isConnecting false (this w)) (sockets w) (promises w) (timers w)
            (effects w ++ Console Warn "WebSocket connection closed."
                       :: emission w "disconnected" (close_info 1000 reason)).
Proof. rewrite ws_onclose_spec. reflexivity. Qed.


Lemma set_readyState_frame s r w :
  this (set_readyState s r w) = this w
  /\ promises (set_readyState s r w) = promises w
  /\ timers (set_readyState s r w) = timers w
  /\ effects (set_readyState s r w) = effects w.
Proof. unfold set_readyState. by destruct (sockets w !! s). Qed.

Lemma ws_close_frame s code reason w :
  promises (ws_close s code reason w) = promises w
  /\ timers (ws_close s code reason w) = timers w
  /\ effects (ws_close s code reason w) = effects w ++ [Close s code reason]
  /\ length (sockets (ws_close s code reason w)) = length (sockets w).
Proof.
  unfold ws_close. cbv zeta. fields.
  destruct (sockets w !! s) as [sock|] eqn:Hs; simpl; [|done].
  destruct (readyState sock); try done;
    rewrite (set_readyState_spec _ _ sock) by done; fields;
    by rewrite length_insert.
Qed.

Lemma disconnect_frame w s :
  ws (this w) = Some s ->
  promises (disconnect w) = promises w
  /\ timers (disconnect w) = timers w
  /\ effects (disconnect w)
     = effects w ++ [Close s 1000 "User initiated disconnect";
                     Console Info "successfully disconnected from websocket"].
Proof.
  intros Hs. unfold disconnect. rewrite Hs. cbv zeta. fields.
  match goal with
  | |- context [ws_close ?s0 ?c ?r ?w0] =>
      destruct (ws_close_frame s0 c r w0) as (-> & -> & -> & _)
  end.
  fields. by rewrite <- app_assoc.
Qed.

Section LifeCycle.

Variable Blob : Type.
Variable blobToJSON : Blob -> Completion value.
Variable base64ToArrayBuffer : value -> Completion (list Byte.byte).

Local Abbreviation step := (step Blob blobToJSON base64ToArrayBuffer).
Local Abbreviation run := (run Blob blobToJSON base64ToArrayBuffer).
Local Abbreviation reachable := (reachable Blob blobToJSON base64ToArrayBuffer).

(** X9: a closure with code 1000 is final.  When a socket that is not
    yet closed closes with code 1000, the close listener clears
    [isConnecting] and publishes [disconnected] with the code and the
    reason, and that is all: whatever the counter, it is not raised and
    no reconnect timer is set; [this.ws] and the promises are left as
    they are. *)
Theorem normal_close_is_final w s sock reason :
  sockets w !! s = Some sock -> readyState sock <> CLOSED ->
  let w' := step (SocketClose s 1000 reason) w in
  timers w' = timers w
  /\ reconnectAttempts (this w') = reconnectAttempts (this w)
  /\ isConnecting (this w') = false
  /\ ws (this w') = ws (this w)
  /\ connectionPromise (this w') = connectionPromise (this w)
  /\ sockets w' = <[s := mkWebSocket (ws_url sock) CLOSED (ws_promise sock)]> (sockets w)
  /\ promises w' = promises w
  /\ effects w'
     = effects w ++ Console Warn "WebSocket connection closed."
                 :: emission w "disconnected" (close_info 1000 reason).
Proof.
  intros Hs Hr w'. subst w'.
  rewrite (step_close_live _ _ _ _ _ sock) by done. rewrite ws_onclose_normal.
  rewrite (emission_this w) by (by rewrite this_set_readyState).
  rewrite (set_readyState_spec _ _ sock) by done.
  repeat split.
Qed.

(** X10: [disconnect()] on a client whose [this.ws] is set closes that
    socket with code 1000 and the reason "User initiated disconnect",
    clears [this.ws], [isConnecting] and [connectionPromise], and puts
    the counter at the maximum.  It settles no promise and cancels no
    timer.  From then on the client is not connected: a guarded send
    writes nothing and warns, a second [disconnect()] changes nothing,
    and the end of any socket, with any code, after a failure or not,
    sets no reconnect timer. *)
Theorem disconnect_teardown w s :
  ws (this w) = Some s ->
  let w' := disconnect w in
  ws (this w') = None
  /\ isConnecting (this w') = false
  /\ connectionPromise (this w') = None
  /\ reconnectAttempts (this w') = maxReconnectAttempts (this w)
  /\ effects w'
     = effects w ++ [Close s 1000 "User initiated disconnect";
                     Console Info "successfully disconnected from websocket"]
  /\ promises w' = promises w
  /\ timers w' = timers w
  /\ isConnected w' = false
  /\ (forall data,
        safelySendJSON data w'
        = (Normal false, console Warn "Cannot send: WebSocket not connected" w'))
  /\ disconnect w' = w'
  /\ (forall s' code reason, timers (step (SocketClose s' code reason) w') = timers w')
  /\ (forall s' error code reason,
        timers (step (SocketFail s' error code reason) w') = timers w').
Proof.
  intros Hs w'.
  assert (Hthis : this w'
                  = with_connectionPromise None
                      (with_isConnecting false
                         (with_ws None
                            (with_reconnectAttempts (maxReconnectAttempts (this w))
                                                    (this w))))).
  { subst w'. by rewrite this_disconnect, Hs. }
  assert (Hws : ws (this w') = None) by (by rewrite Hthis).
  assert (Hmax : reconnectAttempts (this w') = maxReconnectAttempts (this w'))
    by (by rewrite Hthis).
  destruct (disconnect_frame w s Hs) as (Hp & Ht & He).
  split; [done|]. split; [by rewrite Hthis|]. split; [by rewrite Hthis|].
  split; [by rewrite Hthis|]. split; [done|]. split; [done|]. split; [done|].
  split; [by apply isConnected_no_channel|].
  split; [intros data; by apply safelySendJSON_disconnected, isConnected_no_channel|].
  split; [by apply disconnect_none|].
  split.
  - intros s' code reason. unfold_step.
    destruct (readyState <$> sockets w' !! s') as [[]|]; try done;
      (rewrite ws_onclose_exhausted by (by rewrite this_set_readyState));
      cbn [timers]; apply set_readyState_frame.
  - intros s' error code reason. unfold_step.
    destruct (readyState <$> sockets w' !! s') as [[]|]; try done;
      (rewrite ws_onclose_exhausted
         by (by rewrite this_ws_onerror, this_set_readyState));
      cbn [timers];
      match goal with
      | |- context [ws_onerror ?s0 ?e ?w0] =>
          destruct (ws_onerror_frame s0 e w0) as (_ & ->)
      end; apply set_readyState_frame.
Qed.



End LifeCycle.

(** X13: the constructor fails, with a [ReferenceError], exactly when
    no URL is given and no global [apiKey] exists; a URL that is given
    is kept as it is and an empty name becomes [WebSocketClient].
    Constructing opens nothing: the new client is not connected, a
    guarded send answers [false], [disconnect()] changes nothing, and
    the first [connect()] creates socket 0 on the client's URL with
    promise 0. *)
Theorem constructor_rules apiKey name0 url0 config0 :
  (new_GeminiWebsocketClient apiKey name0 url0 config0 = Throw ReferenceError
   <-> url0 = "" /\ apiKey = None)
  /\ (is_throw (new_GeminiWebsocketClient apiKey name0 url0 config0) = true
      -> new_GeminiWebsocketClient apiKey name0 url0 config0 = Throw ReferenceError)
  /\ (forall c,
        new_GeminiWebsocketClient apiKey name0 url0 config0 = Normal c ->
        (url0 <> "" -> url c = url0)
        /\ name c = (if String.eqb name0 "" then "WebSocketClient" else name0)
        /\ config c = config0
        /\ isConnected (initial c) = false
        /\ (forall data, fst (safelySendJSON data (initial c)) = Normal false)
        /\ disconnect (initial c) = initial c
        /\ connect (initial c)
           = (Normal (Some 0%nat),
              mkWorld (with_connectionPromise (Some 0%nat) (with_isConnecting true c))
                      [mkWebSocket (url c) CONNECTING 0] [mkPromise Pending 0] []
                      [Console Info "Establishing WebSocket connection...";
                       NewWebSocket 0 (url c)])).
Proof.
  unfold new_GeminiWebsocketClient.
  destruct (String.eqb_spec url0 "") as [->|Hne].
  - destruct apiKey as [key|].
    + split; [split; [done|by intros [_ ?]]|]. split; [done|].
      intros c [= <-]. repeat split; done.
    + split; [done|]. split; [done|]. done.
  - split; [split; [done|by intros [? _]]|]. split; [done|].
    intros c [= <-]. repeat split; done.
Qed.

(** ** What a step does to the timers, the constants and the log *)

Lemma reject_logs p reason w : logs_no_send w (reject p reason w).
Proof.
  unfold reject. cbv zeta. cbn [perform promises].
  destruct (promises w !! p) as [pr|]; [|by exists [Reject p reason]; repeat constructor].
  destruct (p_state pr); try (by exists [Reject p reason]; repeat constructor).
  exists (Reject p reason :: reconnect_failed (p_catch pr)).
  rewrite effects_perform.
  match goal with
  | |- context [settle ?p0 ?st ?w0] => destruct (settle_frame p0 st w0) as (_ & _ & ->)
  end.
  rewrite effects_perform. split; [by rewrite <- app_assoc|].
  constructor; [done|]. apply reconnect_failed_not_send.
Qed.

Lemma ws_onerror_logs s error w : logs_no_send w (ws_onerror s error w).
Proof.
  unfold ws_onerror. cbv zeta.
  destruct (get error "reason"); [|by exists []; rewrite app_nil_r].
  rewrite emit_perform.
  set (w1 := perform _ _).
  assert (H1 : logs_no_send w w1).
  { subst w1. eexists. rewrite effects_perform, effects_console, effects_set_this.
    rewrite <- app_assoc. split; [reflexivity|].
    constructor; [done|]. apply emission_not_send. }
  destruct (sockets w1 !! s) as [sock|]; [|done].
  destruct H1 as (es1 & E1 & F1).
  destruct (reject_logs (ws_promise sock) error w1) as (es2 & E2 & F2).
  exists (es1 ++ es2). rewrite E2, E1, app_assoc. split; [done|].
  by apply Forall_app.
Qed.

Lemma ws_onclose_timers s code reason w :
  timers (ws_onclose s code reason w)
  = if negb (code =? 1000)
       && (reconnectAttempts (this w) <? maxReconnectAttempts (this w))
    then timers w
         ++ [mkTimer (reconnectDelay (this w) * 2 ^ (reconnectAttempts (this w) + 1 - 1))
                     false]
    else timers w.
Proof. rewrite ws_onclose_spec. cbv zeta. by destruct (negb _ && _). Qed.

Lemma ws_onclose_logs s code reason w : logs_no_send w (ws_onclose s code reason w).
Proof.
  rewrite ws_onclose_spec. cbv zeta. destruct (negb _ && _); eexists; cbn [effects];
    (split; [reflexivity|]).
  - constructor; [done|]. apply Forall_app. split; [apply emission_not_send|].
    by repeat constructor.
  - constructor; [done|]. apply emission_not_send.
Qed.

Lemma ws_onopen_timers s w : timers (ws_onopen s w) = timers w.
Proof.
  unfold ws_onopen. cbv zeta.
  match goal with
  | |- context [sendJSON ?j ?w0] => destruct (sendJSON_performs j w0) as (es & ->)
  end.
  rewrite emit_perform. destruct (sockets _ !! s) as [sock|]; [|done].
  unfold resolve.
  match goal with
  | |- context [settle ?p ?st ?w0] => destruct (settle_frame p st w0) as (_ & -> & _)
  end.
  done.
Qed.

Lemma logs_no_send_refl w : logs_no_send w w.
Proof. exists []. by rewrite app_nil_r. Qed.

Lemma logs_no_send_trans w1 w2 w3 :
  logs_no_send w1 w2 -> logs_no_send w2 w3 -> logs_no_send w1 w3.
Proof.
  intros (es1 & E1 & F1) (es2 & E2 & F2). exists (es1 ++ es2).
  rewrite E2, E1, app_assoc. split; [done|]. by apply Forall_app.
Qed.

Lemma logs_no_send_effects w w' :
  effects w' = effects w -> logs_no_send w w'.
Proof. intros H. exists []. by rewrite app_nil_r. Qed.

Lemma map_delay_fired (l : list Timer) t tm :
  l !! t = Some tm ->
  map t_delay (<[t := mkTimer (t_delay tm) true]> l) = map t_delay l.
Proof.
  intros H. change (map t_delay) with (fmap (M := list) t_delay).
  rewrite list_fmap_insert. apply list_insert_id.
  by rewrite list_lookup_fmap, H.
Qed.

Lemma sent_on_app s es1 es2 : sent_on s (es1 ++ es2) = sent_on s es1 ++ sent_on s es2.
Proof. apply omap_app. Qed.

Lemma sent_on_In s es d : d ∈ sent_on s es -> In (Send s d) es.
Proof.
  unfold sent_on. rewrite list_elem_of_omap. intros (e & He & Hd).
  apply list_elem_of_In in He.
  destruct e as [| | | |s' d'| | | |]; try discriminate Hd.
  destruct (Nat.eqb_spec s' s) as [->|]; [|discriminate Hd]. by injection Hd as ->.
Qed.

Lemma sent_on_fresh s es : (forall d, ~ In (Send s d) es) -> sent_on s es = [].
Proof.
  intros H. destruct (sent_on s es) as [|d l] eqn:E; [done|].
  exfalso. apply (H d), sent_on_In. rewrite E. by left.
Qed.

Lemma sent_on_not_send s es : Forall not_send es -> sent_on s es = [].
Proof.
  intros H. apply sent_on_fresh. intros d Hin. rewrite Forall_forall in H.
  apply list_elem_of_In in Hin. by apply H in Hin.
Qed.

(** ** The send methods write payload envelopes on the current socket *)

Lemma writes_payload_reports {A} (m : M A) : reports_only m -> writes_payload m.
Proof.
  intros H w. destruct (H w) as (es & E & F). exists es. split; [done|].
  intros s d Hin. rewrite Forall_forall in F. apply list_elem_of_In in Hin.
  by apply F in Hin.
Qed.

Lemma writes_payload_bind {A B} (m : M A) (f : A -> M B) :
  writes_payload m -> (forall a, writes_payload (f a)) -> writes_payload (m ≫= f).
Proof.
  intros Hm Hf w. destruct (Hm w) as (es1 & E1 & F1).
  unfold mbind, M_bind. destruct (m w) as [[a|e] w1]; simpl in *.
  - destruct (Hf a w1) as (es2 & E2 & F2). exists (es1 ++ es2).
    rewrite E2, E1, perform_perform. split; [done|].
    intros s d Hin. apply in_app_or in Hin as [Hin|Hin]; [by eapply F1|].
    apply F2 in Hin. by rewrite E1 in Hin.
  - by exists es1.
Qed.

Lemma writes_payload_guarded data msg :
  no_setup data ->
  writes_payload (safelySendJSON data ≫= fun success : bool =>
                    if success then act (console Debug msg) else mret tt).
Proof.
  intros Hd. apply writes_payload_bind.
  - intros w. destruct (isConnected w) eqn:Hc.
    + destruct (isConnected_inv _ Hc) as (s & Hs & Ho).
      exists [Send s data]. rewrite (safelySendJSON_connected _ _ s) by done.
      split; [done|]. intros s' d [H|[]]. by injection H as <- <-.
    + exists [Console Warn "Cannot send: WebSocket not connected"].
      rewrite safelySendJSON_disconnected by done. split; [done|].
      intros s d [H|[]]. discriminate.
  - intros []; apply writes_payload_reports;
      [apply reports_only_console | apply reports_only_ret].
Qed.

Lemma writes_payload_sendAudio v : writes_payload (sendAudio v).
Proof.
  unfold sendAudio. destruct (negb (truthy v)).
  - apply writes_payload_reports, reports_only_ret.
  - by apply writes_payload_guarded.
Qed.

Lemma writes_payload_sendImage v : writes_payload (sendImage v).
Proof.
  unfold sendImage. destruct (negb (truthy v)).
  - apply writes_payload_reports, reports_only_ret.
  - by apply writes_payload_guarded.
Qed.

Lemma writes_payload_sendText text endOfTurn : writes_payload (sendText text endOfTurn).
Proof. by apply writes_payload_guarded. Qed.

Lemma writes_payload_sendToolResponse toolResponse :
  writes_payload (sendToolResponse toolResponse).
Proof.
  unfold sendToolResponse.
  apply writes_payload_bind; [apply writes_payload_reports, reports_only_lift|].
  intros []; [apply writes_payload_reports, reports_only_throw|].
  apply writes_payload_bind; [apply writes_payload_reports, reports_only_lift|].
  intros output.
  apply writes_payload_bind; [apply writes_payload_reports, reports_only_lift|].
  intros id.
  apply writes_payload_bind; [apply writes_payload_reports, reports_only_lift|].
  intros error.
  apply writes_payload_bind; [|intros; by apply writes_payload_guarded].
  apply writes_payload_reports.
  destruct (truthy error); [apply reports_only_ret|].
  destruct (is_undefined output); [apply reports_only_throw | apply reports_only_ret].
Qed.

Section Steps.

Variable Blob : Type.
Variable blobToJSON : Blob -> Completion value.
Variable base64ToArrayBuffer : value -> Completion (list Byte.byte).

Local Abbreviation step := (step Blob blobToJSON base64ToArrayBuffer).
Local Abbreviation run := (run Blob blobToJSON base64ToArrayBuffer).
Local Abbreviation reachable := (reachable Blob blobToJSON base64ToArrayBuffer).

Lemma step_constants i w :
  maxReconnectAttempts (this (step i w)) = maxReconnectAttempts (this w)
  /\ reconnectDelay (this (step i w)) = reconnectDelay (this w)
  /\ config (this (step i w)) = config (this w)
  /\ url (this (step i w)) = url (this w).
Proof.
  destruct i; unfold_step.
  - destruct (this_on eventName callback w) as (m & ->). done.
  - rewrite this_connect. by destruct (_ || _).
  - rewrite this_disconnect. by destruct (ws (this w)).
  - by destruct (writes_open_sendAudio base64audio w) as (es & -> & _).
  - by destruct (writes_open_sendImage base64image w) as (es & -> & _).
  - by destruct (writes_open_sendText text endOfTurn w) as (es & -> & _).
  - by destruct (writes_open_sendToolResponse toolResponse w) as (es & -> & _).
  - destruct (readyState <$> sockets w !! s) as [[]|]; try done.
    by rewrite this_ws_onopen, this_set_readyState.
  - destruct (readyState <$> sockets w !! s) as [[]|]; try done;
      rewrite this_ws_onclose, this_ws_onerror, this_set_readyState;
      by destruct (negb _ && _).
  - destruct (readyState <$> sockets w !! s) as [[]|]; try done;
      rewrite this_ws_onclose, this_set_readyState;
      by destruct (negb _ && _).
  - destruct (readyState <$> sockets w !! s) as [[]|]; try done;
      by destruct (ws_onmessage_reports Blob blobToJSON base64ToArrayBuffer data w)
        as (es & -> & _).
  - destruct (timers w !! t) as [tm|]; [|done]. destruct (t_fired tm); [done|].
    rewrite this_reconnect_callback, this_connect. by destruct (_ || _).
Qed.

(** A step leaves the delays of the timers as they are, or adds the
    timer of the backoff while the counter is below the maximum. *)
Lemma step_timers i w :
  map t_delay (timers (step i w)) = map t_delay (timers w)
  \/ (reconnectAttempts (this w) < maxReconnectAttempts (this w)
      /\ map t_delay (timers (step i w))
         = map t_delay (timers w)
           ++ [reconnectDelay (this w) * 2 ^ (reconnectAttempts (this w) + 1 - 1)]).
Proof.
  assert (Hclose : forall s code reason w0,
            this w0 = with_isConnecting false (this w) \/ this w0 = this w ->
            timers w0 = timers w ->
            map t_delay (timers (ws_onclose s code reason w0)) = map t_delay (timers w)
            \/ (reconnectAttempts (this w) < maxReconnectAttempts (this w)
                /\ map t_delay (timers (ws_onclose s code reason w0))
                   = map t_delay (timers w)
                     ++ [reconnectDelay (this w)
                         * 2 ^ (reconnectAttempts (this w) + 1 - 1)])).
  { intros s code reason w0 Hthis Ht. rewrite ws_onclose_timers, Ht.
    assert (Hn : reconnectAttempts (this w0) = reconnectAttempts (this w)
                 /\ maxReconnectAttempts (this w0) = maxReconnectAttempts (this w)
                 /\ reconnectDelay (this w0) = reconnectDelay (this w))
      by (by destruct Hthis as [-> | ->]).
    destruct Hn as (-> & -> & ->).
    destruct (negb (code =? 1000)); [|by left]. cbn [andb].
    destruct (reconnectAttempts (this w) <? maxReconnectAttempts (this w)) eqn:Hlt;
      [|by left].
    right. apply Z.ltb_lt in Hlt. split; [done|]. by rewrite map_app. }
  destruct i; unfold_step.
  - left. by destruct (on_frame eventName callback w) as (_ & _ & -> & _).
  - left. by destruct (connect_frame w) as (-> & _).
  - left. destruct (ws (this w)) as [s|] eqn:Hs.
    + by destruct (disconnect_frame w s Hs) as (_ & -> & _).
    + by rewrite disconnect_none.
  - left. by destruct (writes_open_sendAudio base64audio w) as (es & -> & _).
  - left. by destruct (writes_open_sendImage base64image w) as (es & -> & _).
  - left. by destruct (writes_open_sendText text endOfTurn w) as (es & -> & _).
  - left. by destruct (writes_open_sendToolResponse toolResponse w) as (es & -> & _).
  - left. destruct (readyState <$> sockets w !! s) as [[]|]; try done.
    rewrite ws_onopen_timers. by destruct (set_readyState_frame s OPEN w) as (_ & _ & -> & _).
  - destruct (readyState <$> sockets w !! s) as [[]|]; try (by left);
      (apply Hclose;
       [left; by rewrite this_ws_onerror, this_set_readyState
       |destruct (ws_onerror_frame s error (set_readyState s CLOSED w)) as (_ & ->);
        apply set_readyState_frame]).
  - destruct (readyState <$> sockets w !! s) as [[]|]; try (by left);
      (apply Hclose; [right; by rewrite this_set_readyState|apply set_readyState_frame]).
  - left. destruct (readyState <$> sockets w !! s) as [[]|]; try done;
      by destruct (ws_onmessage_reports Blob blobToJSON base64ToArrayBuffer data w)
        as (es & -> & _).
  - left. destruct (timers w !! t) as [tm|] eqn:Ht; [|done].
    destruct (t_fired tm); [done|].
    destruct (reconnect_callback_frame
                (set_timers (<[t := mkTimer (t_delay tm) true]> (timers w)) w))
      as (-> & _).
    rewrite timers_set_timers. by apply map_delay_fired.
Qed.

(** Short of the opening of a socket, the counter does not go down,
    and it goes up by one for each timer that is set. *)
Lemma step_backoff i w :
  is_open i = false -> fields_ok w ->
  reconnectAttempts (this w) <= reconnectAttempts (this (step i w))
  /\ Z.of_nat (length (timers (step i w))) - reconnectAttempts (this (step i w))
     <= Z.of_nat (length (timers w)) - reconnectAttempts (this w).
Proof.
  intros Hi (Hmax & _ & Hn).
  assert (Hclose : forall s code reason w0,
            reconnectAttempts (this w0) = reconnectAttempts (this w) ->
            timers w0 = timers w ->
            reconnectAttempts (this w)
            <= reconnectAttempts (this (ws_onclose s code reason w0))
            /\ Z.of_nat (length (timers (ws_onclose s code reason w0)))
               - reconnectAttempts (this (ws_onclose s code reason w0))
               <= Z.of_nat (length (timers w)) - reconnectAttempts (this w)).
  { intros s code reason w0 Hc Ht. rewrite ws_onclose_timers, this_ws_onclose, Ht, Hc.
    destruct (negb (code =? 1000) && _); cbn [reconnectAttempts with_reconnectAttempts
                                               with_isConnecting];
      rewrite ?length_app, ?Hc; simpl; lia. }
  destruct i; try discriminate Hi; unfold_step.
  - destruct (on_frame eventName callback w) as (_ & _ & -> & _ & _ & _ & _ & -> & _). lia.
  - destruct (connect_frame w) as (-> & _ & -> & _). lia.
  - destruct (ws (this w)) as [s|] eqn:Hs.
    + destruct (disconnect_frame w s Hs) as (_ & -> & _).
      rewrite this_disconnect, Hs.
      cbn [reconnectAttempts with_reconnectAttempts with_isConnecting with_ws
           with_connectionPromise]. lia.
    + rewrite disconnect_none by done. lia.
  - destruct (writes_open_sendAudio base64audio w) as (es & -> & _).
    rewrite this_perform, timers_perform. lia.
  - destruct (writes_open_sendImage base64image w) as (es & -> & _).
    rewrite this_perform, timers_perform. lia.
  - destruct (writes_open_sendText text endOfTurn w) as (es & -> & _).
    rewrite this_perform, timers_perform. lia.
  - destruct (writes_open_sendToolResponse toolResponse w) as (es & -> & _).
    rewrite this_perform, timers_perform. lia.
  - destruct (readyState <$> sockets w !! s) as [[]|]; try lia;
      (apply Hclose;
       [by rewrite this_ws_onerror, this_set_readyState
       |destruct (ws_onerror_frame s error (set_readyState s CLOSED w)) as (_ & ->);
        apply set_readyState_frame]).
  - destruct (readyState <$> sockets w !! s) as [[]|]; try lia;
      (apply Hclose; [by rewrite this_set_readyState|apply set_readyState_frame]).
  - destruct (ws_onmessage_reports Blob blobToJSON base64ToArrayBuffer data w)
      as (es & Hes & _).
    destruct (readyState <$> sockets w !! s) as [[]|]; try lia;
      rewrite Hes, this_perform, timers_perform; lia.
  - destruct (timers w !! t) as [tm|] eqn:Ht; [|lia].
    destruct (t_fired tm); [lia|].
    set (w0 := set_timers _ w).
    destruct (reconnect_callback_frame w0) as (-> & _).
    rewrite this_reconnect_callback.
    destruct (connect_frame w0) as (_ & _ & -> & _).
    subst w0. rewrite timers_set_timers, this_set_timers, length_insert. lia.
Qed.

(** X14: the retry budget.  As long as no socket opens, whatever else
    happens (calls, closures and failures of sockets, messages, timer
    expiries), the counter of a client does not go down and stays at
    most 3, and the client sets at most as many reconnect timers as the
    counter rises: at most three between two openings, and none once the
    counter is at 3, be it after three closures or after
    [disconnect()]. *)
Theorem retry_budget inputs w :
  reachable w ->
  Forall (fun i => is_open i = false) inputs ->
  let w' := run inputs w in
  reconnectAttempts (this w) <= reconnectAttempts (this w') <= 3
  /\ (length (timers w) <= length (timers w'))%nat
  /\ Z.of_nat (length (timers w')) - Z.of_nat (length (timers w))
     <= reconnectAttempts (this w') - reconnectAttempts (this w)
  /\ (reconnectAttempts (this w) = 3 ->
      map t_delay (timers w') = map t_delay (timers w)).
Proof.
  intros Hreach Hin. apply reachable_fields in Hreach. revert w Hreach.
  induction Hin as [|i inputs Hi _ IH]; intros w Hok w'.
  - subst w'. destruct Hok as (_ & _ & Hn). simpl.
    split; [lia|]. split; [lia|]. split; [lia|done].
  - subst w'. change (run (i :: inputs) w) with (run inputs (step i w)).
    pose proof (step_fields_ok _ blobToJSON base64ToArrayBuffer i w Hok) as Hok'.
    destruct (IH _ Hok') as (Hc & Hlen & Hb & Hfull).
    destruct (step_backoff i w Hi Hok) as (Hc1 & Hb1).
    assert (Hlen1 : (length (timers w) <= length (timers (step i w)))%nat).
    { destruct (step_timers i w) as [Ht|[_ Ht]];
        apply (f_equal (@length Z)) in Ht; rewrite ?length_app, !length_map in Ht;
        lia. }
    split; [lia|]. split; [lia|]. split; [lia|].
    intros H3. destruct Hok as (Hmax & _ & _).
    destruct (step_timers i w) as [Ht|[Hlt _]]; [|lia].
    rewrite Hfull by lia. exact Ht.
Qed.

(** X15: the backoff stays within its bounds.  In every state a
    client can reach, the counter is between 0 and 3, the maximum is 3
    and the base delay 2000 ms, as the constructor set them, and every
    reconnect timer that was ever set waits 2000, 4000 or 8000 ms. *)
Theorem backoff_stays_bounded w :
  reachable w ->
  0 <= reconnectAttempts (this w) <= 3
  /\ maxReconnectAttempts (this w) = 3
  /\ reconnectDelay (this w) = 2000
  /\ Forall backoff_delay (map t_delay (timers w)).
Proof.
  intros Hreach.
  destruct (reachable_fields _ _ _ _ Hreach) as (Hmax & Hdelay & Hn).
  split; [done|]. split; [done|]. split; [done|]. clear Hmax Hdelay Hn.
  induction Hreach as [apiKey name0 url0 config0 c Hc|i w Hreach IH].
  - constructor.
  - destruct (reachable_fields _ _ _ _ Hreach) as (Hmax & Hdelay & Hn).
    destruct (step_timers i w) as [-> | [Hlt ->]]; [done|].
    apply Forall_app. split; [done|]. constructor; [|done].
    rewrite Hdelay. rewrite Hmax in Hlt. unfold backoff_delay.
    assert (Hcases : reconnectAttempts (this w) = 0 \/ reconnectAttempts (this w) = 1
                     \/ reconnectAttempts (this w) = 2) by lia.
    destruct Hcases as [-> | [-> | ->]]; simpl; lia.
Qed.

(** What a step adds to the log: writes of payload envelopes on the
    open socket [this.ws] refers to, or, when a socket opens, the one
    setup message, on a socket nothing was written on before. *)
Lemma step_log i w :
  channels_ok w ->
  exists es,
    effects (step i w) = effects w ++ es
    /\ (((forall s d, In (Send s d) es -> ws (this w) = Some s /\ no_setup d)
         /\ (ws (this (step i w)) = ws (this w) \/ ws (this (step i w)) = None))
        \/ (exists s es1 es2,
              es = es1 ++ Send s (setup_message (config (this w))) :: es2
              /\ Forall not_send es1 /\ Forall not_send es2
              /\ (forall d, ~ In (Send s d) (effects w))
              /\ ws (this (step i w)) = Some s)).
Proof.
  intros Hok.
  assert (Hquiet : forall w',
            logs_no_send w w' ->
            ws (this w') = ws (this w) \/ ws (this w') = None ->
            exists es,
              effects w' = effects w ++ es
              /\ (((forall s d, In (Send s d) es -> ws (this w) = Some s /\ no_setup d)
                   /\ (ws (this w') = ws (this w) \/ ws (this w') = None))
                  \/ (exists s es1 es2,
                        es = es1 ++ Send s (setup_message (config (this w))) :: es2
                        /\ Forall not_send es1 /\ Forall not_send es2
                        /\ (forall d, ~ In (Send s d) (effects w))
                        /\ ws (this w') = Some s))).
  { intros w' (es & He & Hes) Hws. exists es. split; [done|]. left. split; [|done].
    intros s d Hin. rewrite Forall_forall in Hes. apply list_elem_of_In in Hin.
    by apply Hes in Hin. }
  assert (Hsend : forall (m : M unit),
            writes_payload m ->
            exists es,
              effects (snd (m w)) = effects w ++ es
              /\ (((forall s d, In (Send s d) es -> ws (this w) = Some s /\ no_setup d)
                   /\ (ws (this (snd (m w))) = ws (this w)
                       \/ ws (this (snd (m w))) = None))
                  \/ (exists s es1 es2,
                        es = es1 ++ Send s (setup_message (config (this w))) :: es2
                        /\ Forall not_send es1 /\ Forall not_send es2
                        /\ (forall d, ~ In (Send s d) (effects w))
                        /\ ws (this (snd (m w))) = Some s))).
  { intros m Hm. destruct (Hm w) as (es & -> & Hes). exists es. split; [done|].
    left. split; [|by left]. intros s d Hin. by destruct (Hes _ _ Hin) as (? & _ & ?). }
  assert (Hclose : forall s code reason w0,
            logs_no_send w w0 -> ws (this w0) = ws (this w) ->
            logs_no_send w (ws_onclose s code reason w0)
            /\ ws (this (ws_onclose s code reason w0)) = ws (this w)).
  { intros s code reason w0 Hl Hw. split.
    - eapply logs_no_send_trans; [exact Hl|apply ws_onclose_logs].
    - rewrite this_ws_onclose. by destruct (negb _ && _). }
  destruct i; unfold_step.
  - destruct (on_frame eventName callback w) as (_ & _ & _ & He & Hw & _).
    apply Hquiet; [by apply logs_no_send_effects|by left].
  - destruct (connect_frame w) as (_ & Hw & _ & Hl). apply Hquiet; [done|by left].
  - destruct (ws (this w)) as [s|] eqn:Hs.
    + apply Hquiet.
      * destruct (disconnect_frame w s Hs) as (_ & _ & He). eexists. split; [exact He|].
        by repeat constructor.
      * right. by rewrite this_disconnect, Hs.
    + rewrite disconnect_none by done. apply Hquiet; [apply logs_no_send_refl|by left].
  - apply Hsend, writes_payload_sendAudio.
  - apply Hsend, writes_payload_sendImage.
  - apply Hsend, writes_payload_sendText.
  - apply Hsend, writes_payload_sendToolResponse.
  - destruct (sockets w !! s) as [sock|] eqn:Hs;
      [|apply Hquiet; [apply logs_no_send_refl|by left]].
    cbn [fmap option_fmap option_map].
    destruct (readyState sock) eqn:Hr;
      try (apply Hquiet; [apply logs_no_send_refl|by left]).
    match goal with
    | |- context [ws_onopen s ?w0] =>
        assert (Hopen : ws_onopen s w0 = step (SocketOpen s) w)
          by (unfold_step; rewrite Hs; cbn [fmap option_fmap option_map]; by rewrite Hr)
    end.
    rewrite Hopen, (step_open_spec Blob blobToJSON base64ToArrayBuffer w s sock Hs Hr).
    eexists. split.
    + unfold resolve.
      match goal with
      | |- context [settle ?p ?st ?w0] => destruct (settle_frame p st w0) as (_ & _ & ->)
      end.
      rewrite !effects_perform, effects_set_this.
      destruct (set_readyState_frame s OPEN w) as (_ & _ & _ & ->).
      rewrite <- !app_assoc. reflexivity.
    + right. exists s, [Console Info "Successfully connected to websocket"]. eexists.
      split; [reflexivity|]. split; [by repeat constructor|]. split.
      { constructor; [done|]. apply Forall_app. split; [apply emission_not_send|].
        by repeat constructor. }
      split.
      { intros d Hin. destruct Hok as (_ & _ & _ & Hsent).
        destruct (Hsent _ _ Hin) as (sock' & Hs' & Hne). congruence. }
      by rewrite this_resolve.
  - destruct (readyState <$> sockets w !! s) as [[]|];
      try (apply Hquiet; [apply logs_no_send_refl|by left]);
      (destruct (Hclose s code reason (ws_onerror s error (set_readyState s CLOSED w)))
         as (Hl & Hw);
       [eapply logs_no_send_trans; [|apply ws_onerror_logs];
        apply logs_no_send_effects, set_readyState_frame
       |by rewrite this_ws_onerror, this_set_readyState
       |apply Hquiet; [done|by left]]).
  - destruct (readyState <$> sockets w !! s) as [[]|];
      try (apply Hquiet; [apply logs_no_send_refl|by left]);
      (destruct (Hclose s code reason (set_readyState s CLOSED w)) as (Hl & Hw);
       [apply logs_no_send_effects, set_readyState_frame
       |by rewrite this_set_readyState
       |apply Hquiet; [done|by left]]).
  - destruct (ws_onmessage_reports Blob blobToJSON base64ToArrayBuffer data w)
      as (es & Hes & Hrep).
    destruct (readyState <$> sockets w !! s) as [[]|];
      try (apply Hquiet; [apply logs_no_send_refl|by left]);
      (rewrite Hes; apply Hquiet; [|by left]; exists es; split; [done|];
       by apply is_report_not_send).
  - destruct (timers w !! t) as [tm|];
      [|apply Hquiet; [apply logs_no_send_refl|by left]].
    destruct (t_fired tm); [apply Hquiet; [apply logs_no_send_refl|by left]|].
    set (w0 := set_timers _ w).
    destruct (reconnect_callback_frame w0) as (_ & Hl).
    apply Hquiet; [exact Hl|]. left. rewrite this_reconnect_callback.
    by destruct (connect_frame w0) as (_ & -> & _).
Qed.

Lemma reachable_setup_first w : reachable w -> setup_first w.
Proof.
  induction 1 as [apiKey name0 url0 config0 c Hc|i w Hreach IH].
  - split; [by left|]. intros s. unfold new_GeminiWebsocketClient in Hc.
    destruct (if String.eqb url0 "" then _ else _); [|done].
    by injection Hc as <-.
  - destruct IH as (Htraffic & Hcur).
    destruct (step_constants i w) as (_ & _ & Hconfig & _).
    destruct (step_log i w (reachable_channels _ _ _ _ Hreach))
      as (es & He & [(Hpay & Hws) | (s & es1 & es2 & -> & F1 & F2 & Hfresh & Hws)]).
    + assert (Hnew : forall s0, Forall no_setup (sent_on s0 es)
                                /\ (sent_on s0 es <> [] -> ws (this w) = Some s0)).
      { intros s0. split.
        - apply Forall_forall. intros d Hd. apply sent_on_In in Hd. by destruct (Hpay _ _ Hd).
        - intros Hne. destruct (sent_on s0 es) as [|d l] eqn:E; [done|].
          assert (Hd : d ∈ sent_on s0 es) by (rewrite E; by left).
          apply sent_on_In in Hd. by destruct (Hpay _ _ Hd). }
      split.
      * intros s0. rewrite He, sent_on_app, Hconfig.
        destruct (Hnew s0) as (Hns & Hcurrent).
        destruct (Htraffic s0) as [Hnil|(rest & Hrest & Hfr)].
        -- destruct (sent_on s0 es) as [|d l] eqn:E.
           ++ left. by rewrite Hnil.
           ++ exfalso. by apply (Hcur s0); [apply Hcurrent|].
        -- right. exists (rest ++ sent_on s0 es). rewrite Hrest. split; [done|].
           by apply Forall_app.
      * intros s0 Hs0. rewrite He, sent_on_app.
        assert (Hw0 : ws (this w) = Some s0) by (destruct Hws as [Hws|Hws]; congruence).
        intros Happ. apply app_eq_nil in Happ as [Hnil _]. by apply (Hcur s0).
    + assert (Hother : forall s0, s0 <> s ->
                sent_on s0 (es1 ++ Send s (setup_message (config (this w))) :: es2) = []).
      { intros s0 Hne. rewrite sent_on_app, (sent_on_not_send _ _ F1).
        cbn [app sent_on omap list_omap]. fold (sent_on s0 es2).
        rewrite (sent_on_not_send _ _ F2).
        destruct (Nat.eqb_spec s s0) as [->|_]; done. }
      assert (Hthis : sent_on s (effects (step i w))
                      = [setup_message (config (this (step i w)))]).
      { rewrite He, !sent_on_app, (sent_on_fresh _ _ Hfresh), (sent_on_not_send _ _ F1).
        cbn [app sent_on omap list_omap]. fold (sent_on s es2).
        rewrite (sent_on_not_send _ _ F2), Nat.eqb_refl. by rewrite Hconfig. }
      split.
      * intros s0. destruct (decide (s0 = s)) as [->|Hne].
        -- right. exists []. by rewrite Hthis.
        -- rewrite He, sent_on_app, (Hother _ Hne), app_nil_r, Hconfig. apply Htraffic.
      * intros s0 Hs0. rewrite Hws in Hs0. injection Hs0 as <-. by rewrite Hthis.
Qed.

(** X16: on every socket the setup message comes first and only once.
    For a client driven through [on], [connect], [disconnect] and the
    four send methods, whatever its sockets and timers do, the traffic
    written on each socket is empty or is the setup message, with the
    configuration given to the constructor, followed by payload
    envelopes only; and the socket [this.ws] refers to has had its setup
    message written. *)
Theorem setup_comes_first w : reachable w -> setup_first w.
Proof. apply reachable_setup_first. Qed.

(** X17: sockets and promises stay in step, and nothing is written on
    a socket that has not opened.  In every state a client can reach,
    socket [s] settles promise [s]; a socket that is still connecting
    has a pending promise; every message in the log was written on a
    socket that had opened; and [this.ws], when set, refers to a socket
    that has opened, so that a send never meets a connecting socket. *)
Theorem nothing_written_before_open w :
  reachable w ->
  length (promises w) = length (sockets w)
  /\ (forall s sock,
        sockets w !! s = Some sock ->
        ws_promise sock = s
        /\ (readyState sock = CONNECTING ->
            exists pr, promises w !! s = Some pr /\ p_state pr = Pending))
  /\ (forall s d,
        In (Send s d) (effects w) ->
        exists sock, sockets w !! s = Some sock /\ readyState sock <> CONNECTING)
  /\ (forall s,
        ws (this w) = Some s ->
        exists sock, sockets w !! s = Some sock /\ readyState sock <> CONNECTING).
Proof.
  intros Hreach.
  destruct (reachable_channels _ _ _ _ Hreach) as (Hlen & Hp & Hc & Hsend).
  destruct (reachable_setup_first _ Hreach) as (_ & Hcur).
  split; [done|]. split; [by eauto|]. split; [done|].
  intros s Hs. specialize (Hcur s Hs).
  destruct (sent_on s (effects w)) as [|d l] eqn:E; [done|].
  apply (Hsend s d), sent_on_In. rewrite E. by left.
Qed.

End Steps.

(** ** A reconnect attempt that fails *)

Lemma failed_attempt w0 w error n :
  error <> VNull -> error <> VUndefined ->
  sockets w0 = sockets w ++ [mkWebSocket (url (this w)) CONNECTING (length (promises w))] ->
  promises w0 = promises w ++ [mkPromise Pending n] ->
  _eventListeners (this w0) = _eventListeners (this w) ->
  let w' := ws_onerror (length (sockets w)) error
                       (set_readyState (length (sockets w)) CLOSED w0) in
  effects w'
  = effects w0
    ++ Console Err "Could not connect"
       :: emission w "connection_error" (VObj [("error", error)])
    ++ Reject (length (promises w)) error :: reconnect_failed n
  /\ promises w' = promises w ++ [mkPromise (Rejected error) n].
Proof.
  intros Hn Hu Hs Hp Hl w'. subst w'.
  assert (Hsock : sockets w0 !! length (sockets w)
                  = Some (mkWebSocket (url (this w)) CONNECTING (length (promises w)))).
  { rewrite Hs. by apply list_lookup_middle. }
  rewrite (set_readyState_spec _ _ _ _ Hsock). cbn [ws_url ws_promise].
  set (sock' := mkWebSocket (url (this w)) CLOSED (length (promises w))).
  rewrite (ws_onerror_spec _ _ _ sock' Hn Hu).
  2:{ rewrite sockets_set_sockets. apply list_lookup_insert_eq. by eapply lookup_lt_Some. }
  cbn [ws_promise sock']. rewrite (reject_pending _ _ _ (mkPromise Pending n)).
  2:{ cbn [promises]. rewrite promises_set_sockets, Hp. by apply list_lookup_middle. }
  2:{ reflexivity. }
  cbn [p_catch]. fields.
  rewrite (emission_this w0 (set_sockets _ w0)) by done.
  rewrite (emission_this w w0) by done.
  split.
  - by rewrite <- !app_assoc.
  - rewrite Hp, insert_app_r_alt by done. by rewrite Nat.sub_diag.
Qed.

(** X18: the failure of an attempt is reported to whoever started it.
    On a client that is neither connected nor connecting, the expiry
    of a reconnect timer and a [connect()] call open the same channel
    with a new promise.  When that attempt fails with an error event
    (an object: not [null] or [undefined], on which the listener would
    stop at its first read), the error listener publishes
    [connection_error] and rejects the promise in both cases; for the
    attempt of the timer the rejection is caught and logged once as a
    failed reconnection, for the attempt of the caller it is left to
    the caller. *)
Theorem failed_attempt_is_reported w error :
  guarded w = false ->
  error <> VNull -> error <> VUndefined ->
  let s := length (sockets w) in
  let p := length (promises w) in
  let failed w0 := ws_onerror s error (set_readyState s CLOSED w0) in
  sockets (reconnect_callback w) = sockets (snd (connect w))
  /\ fst (connect w) = Normal (Some p)
  /\ effects (failed (reconnect_callback w))
     = effects (reconnect_callback w)
       ++ Console Err "Could not connect"
          :: emission w "connection_error" (VObj [("error", error)])
       ++ [Reject p error; Console Err "Reconnection failed:"]
  /\ effects (failed (snd (connect w)))
     = effects (snd (connect w))
       ++ Console Err "Could not connect"
          :: emission w "connection_error" (VObj [("error", error)])
       ++ [Reject p error]
  /\ promises (failed (reconnect_callback w)) = promises w ++ [mkPromise (Rejected error) 1]
  /\ promises (failed (snd (connect w))) = promises w ++ [mkPromise (Rejected error) 0].
Proof.
  intros Hidle Hn Hu s p failed. subst s p failed. cbv beta.
  rewrite (reconnect_callback_idle _ Hidle), (connect_idle _ Hidle).
  cbn [fst snd].
  split; [done|]. split; [done|].
  match goal with
  | |- context [ws_onerror _ _ (set_readyState _ _ ?w0)] =>
      destruct (failed_attempt w0 w error 1 Hn Hu eq_refl eq_refl eq_refl) as (E1 & P1)
  end.
  destruct (failed_attempt
              (mkWorld (with_connectionPromise (Some (length (promises w)))
                          (with_isConnecting true (this w)))
                       (sockets w ++ [mkWebSocket (url (this w)) CONNECTING
                                                  (length (promises w))])
                       (promises w ++ [mkPromise Pending 0])
                       (timers w)
                       (effects w ++ [Console Info "Establishing WebSocket connection...";
                                      NewWebSocket (length (sockets w)) (url (this w))]))
              w error 0 Hn Hu eq_refl eq_refl eq_refl) as (E0 & P0).
  split; [exact E1|]. split; [exact E0|]. split; [exact P1 | exact P0].
Qed.

(** ** The further properties at work on sample worlds *)

(** An image on a connected client, on a fresh one, and no image. *)
Lemma sendImage_rules_witness :
  sendImage (VStr "/9j/4AAQ") demo_connected
  = (Normal tt,
     perform [Send 0 (VObj [("realtimeInput",
                             VObj [("mediaChunks",
                                    VArr [VObj [("mimeType", VStr "image/jpeg");
                                                ("data", VStr "/9j/4AAQ")]])])]);
              Console Debug "Image was sent"] demo_connected)
  /\ sendImage (VStr "/9j/4AAQ") (initial demo_client)
     = (Normal tt,
        console Warn "Cannot send: WebSocket not connected" (initial demo_client))
  /\ sendImage VUndefined demo_connected = (Normal tt, demo_connected).
Proof.
  split; [|split].
  - exact (proj1 (sendImage_rules (VStr "/9j/4AAQ") demo_connected)
             eq_refl 0%nat eq_refl eq_refl).
  - exact (proj1 (proj2 (sendImage_rules (VStr "/9j/4AAQ") (initial demo_client)))
             eq_refl eq_refl).
  - exact (proj2 (proj2 (sendImage_rules VUndefined demo_connected)) eq_refl).
Defined.

(** An empty text whose turn is left open, and a text on a fresh
    client. *)
Lemma sendText_rules_witness :
  sendText (VStr "") (VBool false) demo_connected
  = (Normal tt,
     perform [Send 0 (text_turn (VStr "") (VBool false)); Console Debug "Text sent"]
             demo_connected)
  /\ sendText (VStr "hello") VUndefined (initial demo_client)
     = (Normal tt,
        console Warn "Cannot send: WebSocket not connected" (initial demo_client)).
Proof.
  split.
  - exact (proj1 (sendText_rules (VStr "") (VBool false) demo_connected)
             0%nat eq_refl eq_refl).
  - exact (proj1 (proj2 (sendText_rules (VStr "hello") VUndefined (initial demo_client)))
             eq_refl).
Defined.

(** The unguarded primitive on a fresh client. *)
Lemma sendJSON_rules_witness :
  sendJSON (VObj []) (initial demo_client)
  = (Throw (Error "Failed to send"), initial demo_client).
Proof.
  exact (proj1 (proj2 (sendJSON_rules (VObj []) (initial demo_client))) eq_refl).
Defined.

(** A tool call in a frame whose server content would fail. *)
Lemma tool_rules_first_witness :
  demo_dispatch
    (VObj [("toolCall", VObj [("functionCalls", VArr [])]);
           ("serverContent", VObj [("modelTurn", VObj [])])])
    (initial demo_client)
  = (Normal tt,
     perform [Console Debug "received tool call";
              Emit "tool_call" (VObj [("functionCalls", VArr [])])]
             (initial demo_client)).
Proof.
  exact (proj1 (tool_rules_first demo_base64ToArrayBuffer
                  (VObj [("toolCall", VObj [("functionCalls", VArr [])]);
                         ("serverContent", VObj [("modelTurn", VObj [])])])
                  (initial demo_client)) eq_refl).
Defined.

(** A frame that only ends the turn. *)
Lemma turn_without_model_turn_witness :
  demo_dispatch (VObj [("serverContent", VObj [("turnComplete", VBool true)])])
                (initial demo_client)
  = (Normal tt,
     perform [Console Debug "has completed its turn"; Emit "turn_complete" VUndefined]
             (initial demo_client)).
Proof.
  exact (turn_without_model_turn demo_base64ToArrayBuffer
           (VObj [("serverContent", VObj [("turnComplete", VBool true)])])
           (initial demo_client) eq_refl eq_refl eq_refl eq_refl eq_refl).
Defined.

(** A blob that does not parse. *)
Lemma message_only_reports_witness :
  receive bool (fun ok : bool => if ok then Normal VNull else Throw (Error "SyntaxError"))
          demo_base64ToArrayBuffer false demo_connected
  = (Throw (Error "SyntaxError"), demo_connected).
Proof.
  exact (proj1 (proj2 (message_only_reports bool
                         (fun ok : bool =>
                            if ok then Normal VNull else Throw (Error "SyntaxError"))
                         demo_base64ToArrayBuffer (OtherData VNull) demo_connected))
           false (Error "SyntaxError") eq_refl).
Defined.

(** A text part, a good audio part, an audio part whose payload does
    not decode, and a last text part: one [audio] event, no [content]. *)
Lemma decode_failure_aborts_frame_witness :
  demo_dispatch
    (model_turn_frame [] [text_part "a"; audio_inline [("data", VStr "QUJD")];
                          audio_inline [("data", VBool true)]; text_part "b"])
    (initial demo_client)
  = (Throw (Error "InvalidCharacterError"),
     perform [Emit "audio" (VBuffer (list_byte_of_string "QUJD"))] (initial demo_client)).
Proof.
  apply (decode_failure_aborts_frame demo_base64ToArrayBuffer
           (model_turn_frame [] [text_part "a"; audio_inline [("data", VStr "QUJD")];
                                 audio_inline [("data", VBool true)]; text_part "b"])
           [text_part "a"; audio_inline [("data", VStr "QUJD")]]
           (audio_inline [("data", VBool true)]) [text_part "b"]
           (Error "InvalidCharacterError") (initial demo_client)).
  - reflexivity.
  - reflexivity.
  - repeat constructor.
  - repeat constructor; intros H; first [discriminate H | reflexivity].
  - reflexivity.
  - reflexivity.
Defined.

(** The second socket of a client, opened by a reconnect timer, closes
    with code 1000. *)
Lemma normal_close_is_final_witness :
  let w := demo_run [TimerFires 0%nat] demo_dropped in
  let w' := demo_step (SocketClose 1%nat 1000 "") w in
  timers w' = [mkTimer 2000 true] /\ reconnectAttempts (this w') = 1.
Proof.
  destruct (normal_close_is_final value demo_blobToJSON demo_base64ToArrayBuffer
              (demo_run [TimerFires 0%nat] demo_dropped) 1%nat
              (mkWebSocket demo_url CONNECTING 1) "" eq_refl ltac:(discriminate))
    as (H1 & H2 & _).
  split; [exact H1 | exact H2].
Defined.

(** [disconnect()] on a connected client. *)
Lemma disconnect_teardown_witness :
  let w' := disconnect demo_connected in
  ws (this w') = None
  /\ reconnectAttempts (this w') = 3
  /\ effects w'
     = effects demo_connected
       ++ [Close 0 1000 "User initiated disconnect";
           Console Info "successfully disconnected from websocket"]
  /\ timers (demo_step (SocketClose 0%nat 1006 "") w') = [].
Proof.
  destruct (disconnect_teardown value demo_blobToJSON demo_base64ToArrayBuffer
              demo_connected 0%nat eq_refl)
    as (H1 & _ & _ & H4 & H5 & _ & _ & _ & _ & _ & H11 & _).
  split; [exact H1|]. split; [exact H4|]. split; [exact H5|].
  exact (H11 0%nat 1006 "").
Defined.



(** No URL and no global [apiKey]; and a URL. *)
Lemma constructor_rules_witness :
  new_GeminiWebsocketClient None "gemini" "" VNull = Throw ReferenceError
  /\ connect (initial demo_client)
     = (Normal (Some 0%nat),
        mkWorld (with_connectionPromise (Some 0%nat) (with_isConnecting true demo_client))
                [mkWebSocket demo_url CONNECTING 0] [mkPromise Pending 0] []
                [Console Info "Establishing WebSocket connection...";
                 NewWebSocket 0 demo_url]).
Proof.
  split.
  - exact (proj2 (proj1 (constructor_rules None "gemini" "" VNull))
             (conj eq_refl eq_refl)).
  - destruct (proj2 (proj2 (constructor_rules None "gemini" demo_url
                              (VObj [("model", VStr "models/gemini-2.0-flash-exp")])))
                demo_client eq_refl)
      as (_ & _ & _ & _ & _ & _ & H).
    exact H.
Defined.

(** A channel drops, the attempts of the timers fail, and the
    application gives up. *)
Lemma retry_budget_witness :
  let inputs := [SocketClose 0%nat 1006 ""; TimerFires 0%nat;
                 SocketFail 1%nat (VObj []) 1006 ""; TimerFires 1%nat;
                 SocketFail 2%nat (VObj []) 1006 ""; TimerFires 2%nat;
                 SocketFail 3%nat (VObj []) 1006 ""; CallConnect;
                 SocketFail 4%nat (VObj []) 1006 ""] in
  let w' := demo_run inputs demo_connected in
  reconnectAttempts (this demo_connected) <= reconnectAttempts (this w') <= 3
  /\ Z.of_nat (length (timers w')) - Z.of_nat (length (timers demo_connected))
     <= reconnectAttempts (this w') - reconnectAttempts (this demo_connected).
Proof.
  destruct (retry_budget value demo_blobToJSON demo_base64ToArrayBuffer
              [SocketClose 0%nat 1006 ""; TimerFires 0%nat;
               SocketFail 1%nat (VObj []) 1006 ""; TimerFires 1%nat;
               SocketFail 2%nat (VObj []) 1006 ""; TimerFires 2%nat;
               SocketFail 3%nat (VObj []) 1006 ""; CallConnect;
               SocketFail 4%nat (VObj []) 1006 ""]
              demo_connected
              (demo_reachable [CallConnect; SocketOpen 0%nat])
              ltac:(repeat constructor))
    as (H1 & _ & H3 & _).
  split; [exact H1 | exact H3].
Defined.

(** The timer of a first drop. *)
Lemma backoff_stays_bounded_witness :
  Forall backoff_delay
         (map t_delay
              (timers (demo_run [CallConnect; SocketOpen 0%nat; SocketClose 0%nat 1006 ""]
                                (initial demo_client)))).
Proof.
  exact (proj2 (proj2 (proj2
           (backoff_stays_bounded value demo_blobToJSON demo_base64ToArrayBuffer _
              (demo_reachable [CallConnect; SocketOpen 0%nat; SocketClose 0%nat 1006 ""]))))).
Defined.

(** A session with a text, an image and a reconnection. *)
Lemma setup_comes_first_witness :
  setup_first
    (demo_run [CallConnect; SocketOpen 0%nat; CallSendText (VStr "hello") VUndefined;
               CallSendImage (VStr "/9j/4AAQ"); SocketClose 0%nat 1006 "";
               TimerFires 0%nat; SocketOpen 1%nat; CallSendAudio (VStr "QUJD")]
              (initial demo_client)).
Proof.
  exact (setup_comes_first value demo_blobToJSON demo_base64ToArrayBuffer _
           (demo_reachable
              [CallConnect; SocketOpen 0%nat; CallSendText (VStr "hello") VUndefined;
               CallSendImage (VStr "/9j/4AAQ"); SocketClose 0%nat 1006 "";
               TimerFires 0%nat; SocketOpen 1%nat; CallSendAudio (VStr "QUJD")])).
Defined.

(** The attempt of the reconnect timer of a dropped client fails. *)
Lemma failed_attempt_is_reported_witness :
  let event := VObj [("type", VStr "error")] in
  let failed w0 := ws_onerror 1 event (set_readyState 1 CLOSED w0) in
  effects (failed (reconnect_callback demo_dropped))
  = effects (reconnect_callback demo_dropped)
    ++ [Console Err "Could not connect";
        Emit "connection_error" (VObj [("error", event)]);
        Reject 1 event; Console Err "Reconnection failed:"].
Proof.
  destruct (failed_attempt_is_reported demo_dropped (VObj [("type", VStr "error")])
              eq_refl ltac:(discriminate) ltac:(discriminate))
    as (_ & _ & H & _).
  exact H.
Defined.

(** After a reconnection [this.ws] refers to the second socket, which
    has opened. *)
Lemma nothing_written_before_open_witness :
  exists sock,
    sockets (demo_run [CallConnect; SocketOpen 0%nat; SocketClose 0%nat 1006 "";
                       TimerFires 0%nat; SocketOpen 1%nat]
                      (initial demo_client)) !! 1%nat = Some sock
    /\ readyState sock <> CONNECTING.
Proof.
  exact (proj2 (proj2 (proj2
           (nothing_written_before_open value demo_blobToJSON demo_base64ToArrayBuffer _
              (demo_reachable [CallConnect; SocketOpen 0%nat; SocketClose 0%nat 1006 "";
                               TimerFires 0%nat; SocketOpen 1%nat]))))
           1%nat eq_refl).
Defined.
